(** * LabJackPython: command framing, device sessions and USB discovery

    A shallow embedding of the checksum engine, the response validation,
    the [Device] session operations and the Unix USB enumeration loops of
    [LabJackPython.py], together with the properties the design document
    states about them.

    Python lists are mutable objects: the embedding keeps them in a store
    and passes references, so that in-place updates and aliasing are
    visible.  Calls into the native driver and the socket layer are
    answered by a [driver], a deterministic environment that sees the
    history of calls; every call is logged in the world's trace. *)

From Stdlib Require Import ZArith String List Lia DecimalString.
From stdpp Require Import base option list gmap strings.

Local Open Scope Z_scope.

(** ** Exceptions *)

(** [LabJackException.errorCode] is whatever was passed first: a number, or
    (for the one-argument calls with a message) the message itself. *)
Inductive errcode :=
| EcInt (z : Z)
| EcStr (s : string).

(** The Python exceptions that the embedded code can meet.  Each carries
    its [str()]. *)
Inductive exn :=
| LabJackException (errorCode : errcode) (errorString : string)
| IndexError (msg : string)
| ValueError (msg : string)
| struct_error (msg : string)
| socket_error (msg : string).

(** [LabJackException("msg")]: the message lands in [ec]; [errorString] is
    empty, the [ErrorToString] lookup raises on a non-number, and the
    [except] branch sets [errorString = str(errorCode)]. *)
Definition LJE (msg : string) : exn := LabJackException (EcStr msg) msg.

(** [LabJackException(0, "msg")]. *)
Definition LJE0 (msg : string) : exn := LabJackException (EcInt 0) msg.

Definition str_exn (e : exn) : string :=
  match e with
  | LabJackException _ s => s
  | IndexError s => s
  | ValueError s => s
  | struct_error s => s
  | socket_error s => s
  end.

Definition is_LabJackException (e : exn) : bool :=
  match e with LabJackException _ _ => true | _ => false end.

(** [str(n)] for a Python integer. *)
Definition str_int (z : Z) : string := NilEmpty.string_of_int (Z.to_int z).

(** ** Events: calls that leave the interpreter, with their answers *)

(** The three sockets of a [UE9TCPHandle]. *)
Inductive channel := data_sock | stream_sock | modbus_sock.

Inductive event :=
| EvGetDevCount (productID : Z) (count : Z)
| EvOpenDevice (devNumber reserved productID : Z) (handle : Z)
| EvCloseDevice (handle : Z)
| EvBulkWrite (handle endpoint : Z) (buf : list Z) (count : nat) (written : Z)
| EvBulkRead (handle endpoint : Z) (count : nat) (buf : list Z) (nread : Z)
| EveGet (handle iotype chan : Z) (pv : nat) (x1 : list Z) (ec : Z) (out : list Z)
| EvSend (conn : Z) (ch : channel) (s : list Byte.byte) (err : option string)
| EvRecv (conn : Z) (ch : channel) (n : nat) (res : string + list Byte.byte)
| EvSocket (conn : Z) (ch : channel) (err : option string)
| EvConnect (conn : Z) (ch : channel) (ip : string) (port : Z) (err : option string)
| EvSetTimeout (conn : Z) (ch : channel) (t : Z) (err : option string)
| EvSockClose (conn : Z) (ch : channel) (err : option string)
| EvPrint (s : string).

(** ** The world: a store of list objects and the trace of events *)

Definition loc := nat.

(** [heap] maps a reference to the current contents of the list object;
    [trace] holds the events so far, newest first. *)
Record world := World { heap : list (list Z); trace : list event }.

Definition set_heap (h : list (list Z)) (w : world) : world :=
  World h (trace w).

Definition log (e : event) (w : world) : world :=
  World (heap w) (e :: trace w).

(** The contents of object [l]; a reference the store does not know reads
    as an empty list. *)
Definition deref (w : world) (l : loc) : list Z := default [] (heap w !! l).

(** Object [l] now holds [xs]; everything else is as before. *)
Definition store (l : loc) (xs : list Z) (w : world) : world :=
  set_heap (<[l := xs]> (heap w)) w.

(** ** The monad of statements: state and exceptions *)

Inductive outcome (A : Type) :=
| Ret (a : A)
| Raise (e : exn).
Arguments Ret {A} a.
Arguments Raise {A} e.

Definition M (A : Type) : Type := world → outcome A * world.

#[global] Instance M_ret : MRet M := λ A a w, (Ret a, w).

#[global] Instance M_bind : MBind M := λ A B k m w,
  match m w with
  | (Ret a, w') => k a w'
  | (Raise e, w') => (Raise e, w')
  end.

Definition raise {A} (e : exn) : M A := λ w, (Raise e, w).

(** [try: m  except Exception, e: h e].  The handler decides which
    classes it takes and re-raises the others. *)
Definition try_except {A} (m : M A) (h : exn → M A) : M A := λ w,
  match m w with
  | (Ret a, w') => (Ret a, w')
  | (Raise e, w') => h e w'
  end.

(** [[...]] or [[0] * n]: a new list object. *)
Definition alloc (xs : list Z) : M loc := λ w,
  (Ret (length (heap w)), set_heap (heap w ++ [xs]) w).

(** [len(buffer)] *)
Definition len (l : loc) : M nat := λ w, (Ret (length (deref w l)), w).

(** [buffer[i]] for [i >= 0] *)
Definition getitem (l : loc) (i : nat) : M Z := λ w,
  match deref w l !! i with
  | Some x => (Ret x, w)
  | None => (Raise (IndexError "list index out of range"), w)
  end.

(** [buffer[i] = v] for [i >= 0] *)
Definition setitem (l : loc) (i : nat) (v : Z) : M unit := λ w,
  if decide (i < length (deref w l))%nat
  then (Ret tt, store l (<[i := v]> (deref w l)) w)
  else (Raise (IndexError "list assignment index out of range"), w).

(** [range(a, b)] *)
Definition range (a b : nat) : list nat := seq a (b - a).

(** [for i in xs: acc = body i acc] *)
Fixpoint for_ {S : Type} (xs : list nat) (body : nat → S → M S) (acc : S) : M S :=
  match xs with
  | [] => mret acc
  | i :: xs' => acc' ← body i acc; for_ xs' body acc'
  end.

(** ** Checksum engine *)

(** [setChecksum16(buffer)] *)
Definition setChecksum16 (buffer : loc) : M loc :=
  n ← len buffer;
  total ← for_ (range 6 n)
             (λ i total, b ← getitem buffer i; mret (total + Z.land b 0xff)) 0;
  setitem buffer 4 (Z.land total 0xff);;
  setitem buffer 5 (Z.land (Z.shiftr total 8) 0xff);;
  mret buffer.

(** [setChecksum8(buffer, numBytes)] *)
Definition setChecksum8 (buffer : loc) (numBytes : nat) : M loc :=
  total ← for_ (range 1 numBytes)
             (λ i total, b ← getitem buffer i; mret (total + Z.land b 0xff)) 0;
  setitem buffer 0 (Z.land total 0xff + Z.land (Z.shiftr total 8) 0xff);;
  b0 ← getitem buffer 0;
  b0' ← getitem buffer 0;
  setitem buffer 0 (Z.land b0 0xff + Z.land (Z.shiftr b0' 8) 0xff);;
  mret buffer.

(** [setChecksum(command)] *)
Definition setChecksum (command : loc) : M loc :=
  n ← len command;
  if decide (n < 8)%nat
  then raise (LJE "Command does not contain enough bytes.")
  else
    try_except
      (a ← getitem command 1;
       let a := Z.shiftr (Z.land a 0x78) 3 in
       if decide (a = 15)
       then
         command ← setChecksum16 command;
         command ← setChecksum8 command 6;
         mret command
       else
         n ← len command;
         command ← setChecksum8 command n;
         mret command)
      (λ e, if is_LabJackException e then raise e
            else raise (LJE ("SetChecksum Exception:" ++ str_exn e))).

(** [verifyChecksum(buffer)].  [and] evaluates its right operand only when
    the left one holds. *)
Definition verifyChecksum (buffer : loc) : M bool :=
  buff0 ← getitem buffer 0;
  buff4 ← getitem buffer 4;
  buff5 ← getitem buffer 5;
  tempBuffer ← setChecksum buffer;
  t0 ← getitem tempBuffer 0;
  if decide (buff0 = t0) then
    t4 ← getitem tempBuffer 4;
    if decide (buff4 = t4) then
      t5 ← getitem tempBuffer 5;
      if decide (buff5 = t5) then mret true else mret false
    else mret false
  else mret false.

(** ** The environment: operating system, native driver and sockets *)

Inductive os := posix | nt.

(** Every primitive gets the events so far (newest first) and its
    arguments.  Socket primitives answer [Some msg] for a [socket.error]. *)
Record driver := Driver {
  os_name : os;
  LJUSB_GetDevCount : list event → Z → Z;
  LJUSB_OpenDevice : list event → Z → Z → Z → Z;
  LJUSB_CloseDevice : list event → Z → unit;
  LJUSB_BulkWrite : list event → Z → Z → list Z → nat → Z;
  LJUSB_BulkRead : list event → Z → Z → nat → list Z * Z;
  eGet : list event → Z → Z → Z → nat → list Z → Z * list Z;
  ErrorToString : Z → string;
  sock_send : list event → Z → channel → list Byte.byte → option string;
  sock_recv : list event → Z → channel → nat → string + list Byte.byte;
  sock_socket : list event → Z → channel → option string;
  sock_connect : list event → Z → channel → string → Z → option string;
  sock_settimeout : list event → Z → channel → Z → option string;
  sock_close : list event → Z → channel → option string
}.

(** [ctypes.c_byte(x).value]: the low eight bits, read as a signed char. *)
Definition c_byte (x : Z) : Z := (x + 128) mod 256 - 128.

(** [ord] of a character of a Python 2 [str]. *)
Definition ord (b : Byte.byte) : Z := Z.of_N (Byte.to_N b).

(** [chr(j)] *)
Definition chr (j : Z) : outcome Byte.byte :=
  match (if decide (0 ≤ j) then Byte.of_N (Z.to_N j) else None) with
  | Some b => Ret b
  | None => Raise (ValueError "chr() arg not in range(256)")
  end.

(** [struct.pack("B" * len(xs), *xs)] *)
Fixpoint struct_pack_B (xs : list Z) : outcome (list Byte.byte) :=
  match xs with
  | [] => Ret []
  | x :: xs' =>
      match (if decide (0 ≤ x) then Byte.of_N (Z.to_N x) else None) with
      | Some b =>
          match struct_pack_B xs' with
          | Ret bs => Ret (b :: bs)
          | Raise e => Raise e
          end
      | None => Raise (struct_error "ubyte format requires 0 <= number <= 255")
      end
  end.

(** [str(xs)] for a list of integers, as [print] shows it. *)
Definition str_list (xs : list Z) : string :=
  "[" ++ String.concat ", " (map str_int xs) ++ "]".

Definition lift {A} (o : outcome A) : M A := λ w, (o, w).

(** The whole list behind a reference, as [list(buffer)] or a slice of
    everything would give it. *)
Definition contents (l : loc) : M (list Z) := λ w, (Ret (deref w l), w).

(** [buffer[a:b]] for [0 <= a <= b] *)
Definition slice (xs : list Z) (a b : nat) : list Z := take (b - a) (drop a xs).

(** [xs[i]] on a list that nothing else refers to. *)
Definition item (xs : list Z) (i : nat) : M Z :=
  match xs !! i with
  | Some x => mret x
  | None => raise (IndexError "list index out of range")
  end.

(** [newA[i]] on a ctypes array. *)
Definition c_item (newA : list Z) (i : nat) : M Z :=
  match newA !! i with
  | Some x => mret x
  | None => raise (IndexError "invalid index")
  end.

(** [print s] *)
Definition print (s : string) : M unit := λ w, (Ret tt, log (EvPrint s) w).

Section Primitives.
Context (d : driver).

Definition GetDevCount (productID : Z) : M Z := λ w,
  let n := LJUSB_GetDevCount d (trace w) productID in
  (Ret n, log (EvGetDevCount productID n) w).

Definition OpenDevice (devNumber reserved productID : Z) : M Z := λ w,
  let h := LJUSB_OpenDevice d (trace w) devNumber reserved productID in
  (Ret h, log (EvOpenDevice devNumber reserved productID h) w).

Definition CloseDevice (h : Z) : M unit := λ w,
  (Ret (LJUSB_CloseDevice d (trace w) h), log (EvCloseDevice h) w).

Definition BulkWrite (h endpoint : Z) (buf : list Z) (count : nat) : M Z := λ w,
  let n := LJUSB_BulkWrite d (trace w) h endpoint buf count in
  (Ret n, log (EvBulkWrite h endpoint buf count n) w).

(** The array handed to the driver has [count] signed chars, all zero; the
    driver's answer is cut or filled to that size. *)
Definition BulkRead (h endpoint : Z) (count : nat) : M (list Z * Z) := λ w,
  let r := LJUSB_BulkRead d (trace w) h endpoint count in
  let buf := map c_byte (resize count 0 r.1) in
  (Ret (buf, r.2), log (EvBulkRead h endpoint count buf r.2) w).

Definition UD_eGet (h iotype chan : Z) (pv : nat) (x1 : list Z) : M (Z * list Z) := λ w,
  let r := eGet d (trace w) h iotype chan pv x1 in
  let out := map c_byte (resize (length x1) 0 r.2) in
  (Ret (r.1, out), log (EveGet h iotype chan pv x1 r.1 out) w).

Definition sock_result {A} (r : string + A) : outcome A :=
  match r with inl msg => Raise (socket_error msg) | inr a => Ret a end.

Definition sock_status (r : option string) : outcome unit :=
  match r with Some msg => Raise (socket_error msg) | None => Ret tt end.

Definition send (conn : Z) (ch : channel) (s : list Byte.byte) : M unit := λ w,
  let r := sock_send d (trace w) conn ch s in
  (sock_status r, log (EvSend conn ch s r) w).

Definition recv (conn : Z) (ch : channel) (n : nat) : M (list Byte.byte) := λ w,
  let r := match sock_recv d (trace w) conn ch n with
           | inl msg => inl msg
           | inr s => inr (take n s)
           end in
  (sock_result r, log (EvRecv conn ch n r) w).

Definition socket_ (conn : Z) (ch : channel) : M unit := λ w,
  let r := sock_socket d (trace w) conn ch in
  (sock_status r, log (EvSocket conn ch r) w).

Definition connect (conn : Z) (ch : channel) (ip : string) (port : Z) : M unit := λ w,
  let r := sock_connect d (trace w) conn ch ip port in
  (sock_status r, log (EvConnect conn ch ip port r) w).

Definition settimeout (conn : Z) (ch : channel) (t : Z) : M unit := λ w,
  let r := sock_settimeout d (trace w) conn ch t in
  (sock_status r, log (EvSetTimeout conn ch t r) w).

Definition close_socket (conn : Z) (ch : channel) : M unit := λ w,
  let r := sock_close d (trace w) conn ch in
  (sock_status r, log (EvSockClose conn ch r) w).

(** [LabJackException(ec)] for a driver error code: the constructor asks
    the driver for the text and falls back to [str(ec)]. *)
Definition LabJackException_ec (ec : Z) : exn :=
  LabJackException (EcInt ec)
    (match os_name d with
     | nt => ErrorToString d ec
     | posix => str_int ec
     end).

Definition LJ_ioRAW_OUT : Z := 100.
Definition LJ_ioRAW_IN : Z := 101.

(** [eGetRaw(Handle, IOType, Channel, pValue, x1)] for the raw I/O types
    ([LJ_ioRAW_OUT], [LJ_ioRAW_IN]), which take the array branch with
    integer items; the second component of the returned pair. *)
Definition eGetRaw (Handle IOType Channel : Z) (pValue : nat) (x1 : list Z)
  : M (list Z) :=
  match os_name d with
  | nt =>
      if decide (length x1 < 1)%nat
      then raise (LJE0 "x1 is not a valid variable for the given IOType")
      else
        r ← UD_eGet Handle IOType Channel pValue (map c_byte x1);
        let x1 := map (λ b, Z.land b 0xff) r.2 in
        if decide (r.1 ≠ 0) then raise (LabJackException_ec r.1)
        else mret x1
  | posix => raise (LJE0 "Function only supported for Windows")
  end.

End Primitives.

(** ** Response validation *)

(** [Device._checkCommandBytes(self, results, commandBytes)]; [self] is not
    used.  [results] is a list object, as [Device.read] returns it over USB,
    and [commandBytes] a list that is only compared. *)
Definition _checkCommandBytes (results : loc) (commandBytes : list Z) : M unit :=
  let size := length commandBytes in
  r0 ← getitem results 0;
  sentinel ← (if decide (r0 = 0xB8)
              then r1 ← getitem results 1; mret (bool_decide (r1 = 0xB8))
              else mret false);
  if sentinel : bool then raise (LJE "Device detected a bad checksum.")
  else
    rs ← contents results;
    if decide (slice rs 1 (size + 1) ≠ commandBytes)
    then raise (LJE "Got incorrect command bytes.")
    else
      ok ← verifyChecksum results;
      if negb ok then raise (LJE "Checksum was incorrect.")
      else
        r6 ← getitem results 6;
        if decide (r6 ≠ 0)
        then raise (LJE ("Command returned with error number " ++ str_int r6))
        else mret tt.

(** ** Device sessions *)

Definition LJ_dtUE9 : Z := 9.
Definition LJ_dtU3 : Z := 3.

(** What [Device.handle] can hold: the number the USB driver returned, or
    a [UE9TCPHandle] object (named by [conn]). *)
Inductive handle_t :=
| USBHandle (h : Z)
| UE9TCPHandle (conn : Z).

(** [[(newA[i] & 0xff) for i in range(readBytes)]] *)
Definition bulk_result (newA : list Z) (readBytes : Z) : M (list Z) :=
  for_ (range 0 (Z.to_nat readBytes))
    (λ i acc, b ← c_item newA i; mret (acc ++ [Z.land b 0xff])) [].

Module Device.

Record t := Make {
  handle : option handle_t;
  localID : option Z;
  serialNumber : option Z;
  ipAddress : string;
  devType : option Z;
  debug : bool
}.

(** [Device(handle, devType = n)] *)
Definition new (h : handle_t) (ty : Z) : t :=
  Make (Some h) None None "" (Some ty) false.

Section Methods.
Context (d : driver).

(** [Device.write(self, writeBuffer, modbus = False, checksum = True)].
    [[0, 0] + writeBuffer] is a new list bound to the local name; the
    array [(ctypes.c_byte * n)(0)] cannot take its initializer when [n] is
    0. *)
Definition write (self : t) (writeBuffer : loc) (modbus checksum : bool) : M unit :=
  match handle self with
  | None => raise (LJE "The device handle is None.")
  | Some h =>
      (if checksum then setChecksum writeBuffer;; mret tt else mret tt);;
      match h with
      | UE9TCPHandle conn =>
          buf ← contents writeBuffer;
          tempString ← lift (struct_pack_B buf);
          if modbus then send d conn modbus_sock tempString
          else send d conn data_sock tempString
      | USBHandle h =>
          match os_name d with
          | posix =>
              buf ← contents writeBuffer;
              let buf := if modbus then [0; 0] ++ buf else buf in
              (if debug self then print ("In write:  " ++ str_list buf)
               else mret tt);;
              (if decide (length buf = 0)%nat
               then raise (IndexError "invalid index") else mret tt);;
              let newA := map c_byte buf in
              writeBytes ← BulkWrite d h 1 newA (length buf);
              if decide (writeBytes ≠ Z.of_nat (length buf))
              then raise (LJE ("Could only write " ++ str_int writeBytes ++
                               " of " ++ str_int (Z.of_nat (length buf)) ++
                               " bytes"))
              else mret tt
          | nt =>
              buf ← contents writeBuffer;
              let buf := if modbus then [0; 0] ++ buf else buf in
              eGetRaw d h LJ_ioRAW_OUT 0 (length buf) buf;;
              mret tt
          end
      end
  end.

(** [Device.read(self, numBytes, stream = False, modbus = False)] *)
Definition read (self : t) (numBytes : nat) (stream modbus : bool) : M (list Z) :=
  match handle self with
  | None => raise (LJE "The device handle is None.")
  | Some h =>
      match h with
      | UE9TCPHandle conn =>
          rcvString ←
            (if stream then recv d conn stream_sock numBytes
             else if modbus then
               try_except (recv d conn modbus_sock numBytes)
                 (λ e,
                    match e with
                    | socket_error _ =>
                        try_except
                          ((if debug self then print "Attempting connect in Read"
                            else mret tt);;
                           socket_ d conn modbus_sock;;
                           connect d conn modbus_sock (ipAddress self) 502;;
                           settimeout d conn modbus_sock 10;;
                           raise (LJE "Read had a problem, but it's ok now."))
                          (λ g, if is_LabJackException g then raise g
                                else raise e)
                    | _ => raise e
                    end)
             else recv d conn data_sock numBytes);
          mret (map ord rcvString)
      | USBHandle h =>
          match os_name d with
          | posix =>
              r ← BulkRead d h (if stream then 4 else 2) numBytes;
              bulk_result r.1 r.2
          | nt =>
              eGetRaw d h LJ_ioRAW_IN 0 numBytes (replicate numBytes 0)
          end
      end
  end.

(** [Device._modbusWriteRead(self, request, numBytes)] *)
Definition _modbusWriteRead (self : t) (request : loc) (numBytes : nat)
  : M (list Z) :=
  write self request true false;;
  try_except (read self numBytes false true)
    (λ e, if is_LabJackException e
          then write self request true false;;
               read self numBytes false true
          else raise e).

(** [Device.ping(self)] *)
Definition ping (self : t) : M bool :=
  try_except
    (if decide (devType self = Some LJ_dtUE9) then
       writeBuffer ← alloc [0x70; 0x70];
       write self writeBuffer false true;;
       try_except (read self 2 false false;; mret tt)
         (λ e, if is_LabJackException e
               then write self writeBuffer false true;;
                    read self 2 false false;; mret tt
               else raise e);;
       mret true
     else if decide (devType self = Some LJ_dtU3) then
       writeBuffer ← alloc [0; 0xf8; 0x01; 0x2a; 0; 0; 0; 0];
       writeBuffer ← setChecksum writeBuffer;
       write self writeBuffer false true;;
       read self 40 false false;;
       mret true
     else mret false)
    (λ e, print (str_exn e);; mret false).

(** [UE9TCPHandle.close(self)] *)
Definition UE9TCPHandle_close (conn : Z) : M unit :=
  try_except
    (close_socket d conn data_sock;;
     close_socket d conn stream_sock;;
     close_socket d conn modbus_sock)
    (λ e, print ("UE9 Handle close exception:  " ++ str_exn e)).

(** [Device.close(self)]; the result is [self] afterwards.  A handle that
    is already [None] reaches the driver as a null handle. *)
Definition close (self : t) : M t :=
  match os_name d with
  | posix =>
      match handle self with
      | Some (UE9TCPHandle conn) => UE9TCPHandle_close conn
      | Some (USBHandle h) => CloseDevice d h
      | None => CloseDevice d 0
      end
  | nt => mret tt
  end;;
  mret (Make None (localID self) (serialNumber self) (ipAddress self)
             (devType self) (debug self)).

End Methods.
End Device.

(** ** USB discovery on Unix *)

(** One entry of [deviceList]: the [dict(devType = .., localID = ..,
    serialNumber = .., ipAddress = ..)]. *)
Record devinfo := DevInfo {
  di_devType : Z;
  di_localID : Z;
  di_serialNumber : Z;
  di_ipAddress : option string
}.

(** [struct.unpack(">I", s)[0]] *)
Definition struct_unpack_I_be (s : list Byte.byte) : outcome Z :=
  match s with
  | [a; b; c; e] =>
      Ret (ord a * 16777216 + ord b * 65536 + ord c * 256 + ord e)
  | _ => Raise (struct_error "unpack requires a string argument of length 4")
  end.

(** [struct.unpack("<I", struct.pack("<BBBB", *xs))[0]] *)
Definition struct_pack_BBBB_unpack_I_le (xs : list Z) : outcome Z :=
  match xs with
  | [_; _; _; _] =>
      match struct_pack_B xs with
      | Ret [a; b; c; e] =>
          Ret (ord a + ord b * 256 + ord c * 65536 + ord e * 16777216)
      | Ret _ => Raise (struct_error "unpack requires a string argument of length 4")
      | Raise e => Raise e
      end
  | _ => Raise (struct_error "pack requires exactly 4 arguments")
  end.

(** [s += chr(j)] for [j] in [js] *)
Fixpoint append_chrs (s : list Byte.byte) (js : list Z) : outcome (list Byte.byte) :=
  match js with
  | [] => Ret s
  | j :: js' =>
      match chr j with
      | Ret b => append_chrs (s ++ [b]) js'
      | Raise e => Raise e
      end
  end.

(** [s[0:-1]] *)
Fixpoint strip_last (s : string) : string :=
  match s with
  | EmptyString => EmptyString
  | String c EmptyString => EmptyString
  | String c s' => String c (strip_last s')
  end.

(** The ["#Parse the packet"] block of [__listAllUE9Unix]: serial number,
    dotted address and local ID out of the comm-config response. *)
Definition parseUE9 (rcvDataBuff : list Z) : M (Z * devinfo) :=
  let macAddress := reverse (slice rcvDataBuff 28 34) in
  serialBytes ← lift (append_chrs [Byte.x10] (drop 3 macAddress));
  serial ← lift (struct_unpack_I_be serialBytes);
  ipAddress ← for_ [13; 12; 11; 10]%nat
                 (λ j ip, b ← item rcvDataBuff j; mret (ip +:+ str_int b +:+ "."))
                 ""%string;
  let ipAddress := strip_last ipAddress in
  b8 ← item rcvDataBuff 8;
  let localID := Z.land b8 0xff in
  mret (serial, DevInfo LJ_dtUE9 localID serial (Some ipAddress)).

(** The body of the [for] loop of [__listAllUE9Unix] over USB: candidate
    [i], with the dictionary so far; the result is the dictionary after. *)
Definition UE9_candidate (d : driver) (i : nat) (deviceList : gmap Z devinfo)
  : M (gmap Z devinfo) :=
  handle ← OpenDevice d (Z.of_nat i + 1) 0 LJ_dtUE9;
  let device := Device.new (USBHandle handle) 9 in
  sndDataBuff ← alloc (replicate 38 0);
  setitem sndDataBuff 1 0x78;;
  setitem sndDataBuff 2 0x10;;
  setitem sndDataBuff 3 0x01;;
  sndDataBuff ← setChecksum sndDataBuff;
  try_except
    (Device.write d device sndDataBuff false true;;
     rcvDataBuff ← Device.read d device 38 false false;
     p ← parseUE9 rcvDataBuff;
     let deviceList := <[p.1 := p.2]> deviceList in
     Device.close d device;;
     mret deviceList)
    (λ e, print (str_exn e);;
          Device.close d device;;
          mret deviceList).

(** [__listAllUE9Unix(connectionType)], the branch for
    [connectionType == LJ_ctUSB]. *)
Definition __listAllUE9Unix_USB (d : driver) : M (gmap Z devinfo) :=
  numDevices ← GetDevCount d LJ_dtUE9;
  for_ (range 0 (Z.to_nat numDevices)) (UE9_candidate d) ∅.

(** The lines of [__listAllU3Unix] after the [try]: serial number and
    local ID out of the config response. *)
Definition parseU3 (rcvDataBuff : list Z) : M (Z * devinfo) :=
  serialNumber ← lift (struct_pack_BBBB_unpack_I_le (slice rcvDataBuff 15 19));
  b21 ← item rcvDataBuff 21;
  let localID := Z.land b21 0xff in
  mret (serialNumber, DevInfo LJ_dtU3 localID serialNumber None).

(** The body of the [for] loop of [__listAllU3Unix]. *)
Definition U3_candidate (d : driver) (i : nat) (deviceList : gmap Z devinfo)
  : M (gmap Z devinfo) :=
  handle ← OpenDevice d (Z.of_nat i + 1) 0 LJ_dtU3;
  if decide (handle = 0) then mret deviceList
  else
    let device := Device.new (USBHandle handle) 3 in
    sndDataBuff ← alloc (replicate 26 0);
    setitem sndDataBuff 1 0xf8;;
    setitem sndDataBuff 2 0x0a;;
    setitem sndDataBuff 3 0x08;;
    sndDataBuff ← setChecksum sndDataBuff;
    rcvDataBuff ←
      try_except
        (Device.write d device sndDataBuff false true;;
         Device.read d device 38 false false)
        (λ e, if is_LabJackException e
              then Device.close d device;;
                   raise (LJE "Error in listAllU3")
              else raise e);
    p ← parseU3 rcvDataBuff;
    let deviceList := <[p.1 := p.2]> deviceList in
    Device.close d device;;
    mret deviceList.

(** [__listAllU3Unix()] *)
Definition __listAllU3Unix (d : driver) : M (gmap Z devinfo) :=
  numDevices ← GetDevCount d LJ_dtU3;
  for_ (range 0 (Z.to_nat numDevices)) (U3_candidate d) ∅.

(** ** A scripted environment *)

(** One answer per event, in order: the [k]-th call that leaves the
    interpreter (prints included) gets the [k]-th answer.  A missing or
    ill-typed answer reads as success with nothing transferred. *)
Inductive answer :=
| AInt (z : Z)
| ABuf (buf : list Z) (n : Z)
| ABytes (s : list Byte.byte)
| AErr (msg : string)
| AOk.

Definition answer_at (script : list answer) (tr : list event) : answer :=
  default AOk (script !! length tr).

Definition int_answer (a : answer) : Z :=
  match a with AInt z => z | _ => 0 end.

Definition buf_answer (a : answer) : list Z * Z :=
  match a with ABuf buf n => (buf, n) | _ => ([], 0) end.

Definition status_answer (a : answer) : option string :=
  match a with AErr msg => Some msg | _ => None end.

Definition bytes_answer (a : answer) : string + list Byte.byte :=
  match a with AErr msg => inl msg | ABytes s => inr s | _ => inr [] end.

Definition scripted (o : os) (script : list answer) : driver :=
  {| os_name := o;
     LJUSB_GetDevCount tr _ := int_answer (answer_at script tr);
     LJUSB_OpenDevice tr _ _ _ := int_answer (answer_at script tr);
     LJUSB_CloseDevice _ _ := tt;
     LJUSB_BulkWrite tr _ _ _ _ := int_answer (answer_at script tr);
     LJUSB_BulkRead tr _ _ _ := buf_answer (answer_at script tr);
     eGet tr _ _ _ _ _ :=
       let r := buf_answer (answer_at script tr) in (r.2, r.1);
     ErrorToString ec := str_int ec;
     sock_send tr _ _ _ := status_answer (answer_at script tr);
     sock_recv tr _ _ _ := bytes_answer (answer_at script tr);
     sock_socket tr _ _ := status_answer (answer_at script tr);
     sock_connect tr _ _ _ _ := status_answer (answer_at script tr);
     sock_settimeout tr _ _ _ := status_answer (answer_at script tr);
     sock_close tr _ _ := status_answer (answer_at script tr) |}.

(** An open UE9 on its TCP handle, an open UE9 and an open U3 on USB. *)
Definition ue9_tcp : Device.t := Device.new (UE9TCPHandle 1) LJ_dtUE9.
Definition ue9_usb : Device.t := Device.new (USBHandle 5) LJ_dtUE9.
Definition u3_usb : Device.t := Device.new (USBHandle 5) LJ_dtU3.

(** A 38-byte UE9 comm-config response: local ID 7, address
    192.168.1.209, hardware address ending in [a, b, c]. *)
Definition ue9_response (a b c : Z) : list Z :=
  replicate 8 0 ++ [7; 0; 209; 1; 168; 192] ++ replicate 14 0 ++
  [c; b; a; 0; 0; 0] ++ replicate 4 0.

(** Three UE9 candidates on USB: the first and the third answer, the
    second does not open (handle 0) and takes no bytes. *)
Definition three_ue9_second_fails : driver :=
  scripted posix
    [AInt 3;
     AInt 11; AInt 38; ABuf (ue9_response 1 2 3) 38; AOk;
     AInt 0; AInt 0; AOk; AOk;
     AInt 13; AInt 38; ABuf (ue9_response 4 5 6) 38; AOk].
(** ** What the checksum engine leaves in the list, as functions on lists *)

(** The loops' accumulator: [total += buffer[i] & 0xff] over [xs]. *)
Definition total_from (acc : Z) (xs : list Z) : Z :=
  foldl (λ total b, total + Z.land b 0xff) acc xs.

(** One carry fold as the code writes it. *)
Definition fold8 (s : Z) : Z := Z.land s 0xff + Z.land (Z.shiftr s 8) 0xff.

Definition frame16 (f : list Z) : list Z :=
  let total := total_from 0 (drop 6 f) in
  <[5%nat := Z.land (Z.shiftr total 8) 0xff]> (<[4%nat := Z.land total 0xff]> f).

Definition frame8 (f : list Z) (numBytes : nat) : list Z :=
  <[0%nat := fold8 (fold8 (total_from 0 (take (numBytes - 1) (drop 1 f))))]> f.

(** The frame-class nibble of byte 1. *)
Definition class_nibble (f : list Z) : Z :=
  Z.shiftr (Z.land (default 0 (f !! 1%nat)) 0x78) 3.

Definition checksummed (f : list Z) : list Z :=
  if decide (class_nibble f = 15) then frame8 (frame16 f) 6
  else frame8 f (length f).

(** The three comparisons of [verifyChecksum]. *)
Definition checks_agree (f g : list Z) : bool :=
  bool_decide (f !! 0%nat = g !! 0%nat) &&
  bool_decide (f !! 4%nat = g !! 4%nat) &&
  bool_decide (f !! 5%nat = g !! 5%nat).

(** ** Reading traces *)

(** An event that puts a payload on the wire, and one that takes a
    response off it. *)
Definition is_transmit (e : event) : bool :=
  match e with
  | EvBulkWrite _ _ _ _ _ | EvSend _ _ _ _ => true
  | EveGet _ iotype _ _ _ _ _ => bool_decide (iotype = LJ_ioRAW_OUT)
  | _ => false
  end.

Definition is_receive (e : event) : bool :=
  match e with
  | EvBulkRead _ _ _ _ _ | EvRecv _ _ _ _ => true
  | EveGet _ iotype _ _ _ _ _ => bool_decide (iotype = LJ_ioRAW_IN)
  | _ => false
  end.

Definition count_events (p : event → bool) (evs : list event) : nat :=
  length (List.filter p evs).

(** The octets a transmitting event puts on the wire. *)
Definition wire_octets (e : event) : option (list Z) :=
  match e with
  | EvBulkWrite _ _ buf _ _ => Some (map (λ b, Z.land b 0xff) buf)
  | EvSend _ _ s _ => Some (map ord s)
  | EveGet _ iotype _ _ x1 _ _ =>
      if decide (iotype = LJ_ioRAW_OUT)
      then Some (map (λ b, Z.land b 0xff) x1) else None
  | _ => None
  end.

(** [m] extends the trace, with at most [n] new events that satisfy [p]. *)
Definition adds (p : event → bool) (n : nat) {A} (m : M A) : Prop :=
  ∀ w, ∃ evs, trace (m w).2 = evs ++ trace w ∧ (count_events p evs ≤ n)%nat.


Definition opened (evs : list event) : list Z :=
  omap (λ e, match e with EvOpenDevice _ _ _ h => Some h | _ => None end) evs.

Definition closed (evs : list event) : list Z :=
  omap (λ e, match e with EvCloseDevice h => Some h | _ => None end) evs.

(** What a computation that does not look at the world returns. *)
Definition result_of {A} (m : M A) : outcome A := (m (World [] [])).1.

(** The device a bulk read identifies, if its response parses: the list
    [Device.read] makes of the array, handed to [parse]. *)
Definition identified (parse : list Z → M (Z * devinfo)) (e : event)
  : option (Z * devinfo) :=
  match e with
  | EvBulkRead _ _ _ buf nread =>
      match result_of (rcv ← bulk_result buf nread; parse rcv) with
      | Ret p => Some p
      | Raise _ => None
      end
  | _ => None
  end.


(** The device numbers [i + 1] for [i] in [range(n)]. *)
Definition candidates (n : nat) : list Z := map (λ i, Z.of_nat i + 1) (seq 0 n).

(** A computation that neither reads nor changes the world. *)
Definition stateless {A} (m : M A) : Prop := ∀ w, m w = (result_of m, w).

(** ** The checksum engine in the words of the design document *)

(** A byte of a frame. *)
Definition is_byte (b : Z) : Prop := 0 ≤ b < 256.

Module Spec.

(** The sum of a range of bytes. *)
Definition byte_sum (bytes : list Z) : Z := foldr Z.add 0 bytes.

(** One round of carry fold, [(sum & 0xFF) + (sum >> 8)]. *)
Definition carry_fold (sum : Z) : Z := Z.land sum 0xFF + Z.shiftr sum 8.

(** The frame-class nibble: bits 3-6 of byte 1. *)
Definition frame_class (frame : list Z) : Z :=
  Z.land (Z.shiftr (default 0 (frame !! 1%nat)) 3) 0xF.

Section Fold.
(** The carry fold is a parameter, so that the document's fold and the
    code's can be put side by side. *)
Variable fold : Z → Z.

(** [checksum8(bytes, count)]: the sum of [bytes[1..count)], folded twice,
    goes to [bytes[0]]. *)
Definition checksum8 (bytes : list Z) (count : nat) : list Z :=
  <[0%nat := fold (fold (byte_sum (take (count - 1) (drop 1 bytes))))]> bytes.

(** [checksum16(bytes)]: the sum of [bytes[6..len)]; low byte to offset 4,
    high byte to offset 5. *)
Definition checksum16 (bytes : list Z) : list Z :=
  let sum := byte_sum (drop 6 bytes) in
  <[5%nat := Z.land (Z.shiftr sum 8) 0xFF]> (<[4%nat := Z.land sum 0xFF]> bytes).

(** [applyChecksum(frame)] on a frame of at least 8 bytes. *)
Definition applyChecksum (frame : list Z) : list Z :=
  if decide (frame_class frame = 15)
  then checksum8 (checksum16 frame) 6
  else checksum8 frame (length frame).

End Fold.
End Spec.

(** ** More of the device session *)

(** A sequence argument is a list or a tuple; the two never compare
    equal. *)
Inductive pyseq :=
| PyList (xs : list Z)
| PyTuple (xs : list Z).

(** [str(xs)] for a tuple of integers. *)
Definition str_tuple (xs : list Z) : string :=
  match xs with
  | [x] => "(" ++ str_int x ++ ",)"
  | _ => "(" ++ String.concat ", " (map str_int xs) ++ ")"
  end.

(** [xs[i]] on a tuple. *)
Definition tuple_item (xs : list Z) (i : nat) : M Z :=
  match xs !! i with
  | Some x => mret x
  | None => raise (IndexError "tuple index out of range")
  end.

(** [setChecksum(command)] on a tuple of at least 8 integers.  The sums
    are taken, then the first item assignment ([buffer[4] = ..] in
    [setChecksum16], [buffer[0] = ..] in [setChecksum8]) raises a
    [TypeError], which the handler of [setChecksum] turns into a
    [LabJackException]. *)
Definition setChecksum_tuple (command : list Z) : M (list Z) :=
  if decide (length command < 8)%nat
  then raise (LJE "Command does not contain enough bytes.")
  else
    raise (LJE ("SetChecksum Exception:" ++
                "'tuple' object does not support item assignment")).

(** [verifyChecksum(buffer)] on a tuple. *)
Definition verifyChecksum_tuple (buffer : list Z) : M bool :=
  buff0 ← tuple_item buffer 0;
  buff4 ← tuple_item buffer 4;
  buff5 ← tuple_item buffer 5;
  tempBuffer ← setChecksum_tuple buffer;
  t0 ← tuple_item tempBuffer 0;
  if decide (buff0 = t0) then
    t4 ← tuple_item tempBuffer 4;
    if decide (buff4 = t4) then
      t5 ← tuple_item tempBuffer 5;
      if decide (buff5 = t5) then mret true else mret false
    else mret false
  else mret false.

(** [Device._checkCommandBytes(self, results, commandBytes)] when
    [results] is the tuple that [Device.read] returns over TCP. *)
Definition _checkCommandBytes_tuple (results : list Z) (commandBytes : pyseq)
  : M unit :=
  r0 ← tuple_item results 0;
  sentinel ← (if decide (r0 = 0xB8)
              then r1 ← tuple_item results 1; mret (bool_decide (r1 = 0xB8))
              else mret false);
  if sentinel : bool then raise (LJE "Device detected a bad checksum.")
  else
    let differs :=
      match commandBytes with
      | PyList _ => true
      | PyTuple cb => bool_decide (slice results 1 (length cb + 1) ≠ cb)
      end in
    if differs then raise (LJE "Got incorrect command bytes.")
    else
      ok ← verifyChecksum_tuple results;
      if negb ok then raise (LJE "Checksum was incorrect.")
      else
        r6 ← tuple_item results 6;
        if decide (r6 ≠ 0)
        then raise (LJE ("Command returned with error number " ++ str_int r6))
        else mret tt.

(** [Device._checkCommandBytes(self, results, commandBytes)] when
    [results] is a list and [commandBytes] a list or a tuple. *)
Definition _checkCommandBytes_seq (results : loc) (commandBytes : pyseq)
  : M unit :=
  match commandBytes with
  | PyList cb => _checkCommandBytes results cb
  | PyTuple _ =>
      r0 ← getitem results 0;
      sentinel ← (if decide (r0 = 0xB8)
                  then r1 ← getitem results 1; mret (bool_decide (r1 = 0xB8))
                  else mret false);
      if sentinel : bool then raise (LJE "Device detected a bad checksum.")
      else raise (LJE "Got incorrect command bytes.")
  end.

(** [Device._writeRead(self, command, readLen, commandBytes,
    checkBytes = True, checksum = True)].  The result of [read] is a tuple
    over TCP and a new list otherwise. *)
Definition _writeRead (d : driver) (self : Device.t) (command : loc)
    (readLen : nat) (commandBytes : pyseq) (checkBytes checksum : bool)
  : M (list Z) :=
  Device.write d self command false checksum;;
  result ← Device.read d self readLen false false;
  match Device.handle self with
  | Some (UE9TCPHandle _) =>
      (if Device.debug self then print ("Result:  " ++ str_tuple result)
       else mret tt);;
      (if checkBytes then _checkCommandBytes_tuple result commandBytes
       else mret tt);;
      mret result
  | _ =>
      result ← alloc result;
      (if Device.debug self
       then rs ← contents result; print ("Result:  " ++ str_list rs)
       else mret tt);;
      (if checkBytes then _checkCommandBytes_seq result commandBytes
       else mret tt);;
      contents result
  end.

(** [Device.reset(self)], the branch for [os.name == 'posix']. *)
Definition reset_posix (d : driver) (self : Device.t) : M unit :=
  sndDataBuff ← alloc (replicate 4 0);
  setitem sndDataBuff 0 0x9B;;
  setitem sndDataBuff 1 0x99;;
  setitem sndDataBuff 2 0x02;;
  try_except
    (Device.write d self sndDataBuff false true;;
     rcvDataBuff ← Device.read d self 4 false false;
     if decide (length rcvDataBuff ≠ 4%nat)
     then raise (LJE0 "Unable to reset labJack 2")
     else mret tt)
    (λ e, raise (LJE0 ("Unable to reset labjack: " ++ str_exn e))).

From Stdlib Require Import Ascii DecimalZ.

(** ** Network addresses as numbers and as dotted strings *)


(** [s.split('.')] *)
Fixpoint split_dot (s : string) : list string :=
  match s with
  | EmptyString => [EmptyString]
  | String c s' =>
      if Ascii.eqb c "."%char then EmptyString :: split_dot s'
      else match split_dot s' with
           | p :: ps => String c p :: ps
           | [] => [String c EmptyString]
           end
  end.

(** [DoubleToStringAddress(number)] for an integer [number]:
    ["%i.%i.%i.%i"] of the four octets, highest first. *)
Definition DoubleToStringAddress (number : Z) : string :=
  str_int (Z.land (Z.shiftr number (8 * 3)) 0xFF) +:+ "." +:+
  str_int (Z.land (Z.shiftr number (8 * 2)) 0xFF) +:+ "." +:+
  str_int (Z.land (Z.shiftr number 8) 0xFF) +:+ "." +:+
  str_int (Z.land number 0xFF).

Section Address.
(** The builtin [int(s)] on a [str]: the number, or [None] where it raises
    [ValueError]. *)
Variable py_int : string → option Z.

(** [StringToDoubleAddress(pString)] *)
Definition StringToDoubleAddress (pString : string) : outcome Z :=
  match split_dot pString with
  | [p0; p1; p2; p3] =>
      match py_int p0, py_int p1, py_int p2, py_int p3 with
      | Some a, Some b, Some c, Some e =>
          Ret (Z.shiftl a (8 * 3) + Z.shiftl b (8 * 2) + Z.shiftl c 8 + e)
      | _, _, _, _ => Raise (LJE0 "IP address not correctly formatted")
      end
  | _ => Raise (LJE0 "IP address not correctly formatted")
  end.

End Address.

(** A reading of decimal numerals, as one possible [int]. *)
Definition decimal (s : string) : option Z :=
  match s with
  | EmptyString => None
  | _ => option_map Z.of_int (NilEmpty.int_of_string s)
  end.

(** The number of ['.'] in a string. *)
Fixpoint count_dots (s : string) : nat :=
  match s with
  | EmptyString => 0
  | String c s' => (if Ascii.eqb c "."%char then 1 else 0) + count_dots s'
  end.

(** ** Opening a device over USB on Unix *)

Definition LJE_LABJACK_NOT_FOUND : Z := 1007.

(** [device.localID = v], [device.serialNumber = v], [device.ipAddress = s] *)
Definition set_localID (v : Z) (self : Device.t) : Device.t :=
  Device.Make (Device.handle self) (Some v) (Device.serialNumber self)
    (Device.ipAddress self) (Device.devType self) (Device.debug self).

Definition set_serialNumber (v : Z) (self : Device.t) : Device.t :=
  Device.Make (Device.handle self) (Device.localID self) (Some v)
    (Device.ipAddress self) (Device.devType self) (Device.debug self).

Definition set_ipAddress (s : string) (self : Device.t) : Device.t :=
  Device.Make (Device.handle self) (Device.localID self)
    (Device.serialNumber self) s (Device.devType self) (Device.debug self).

(** The [pAddress] argument of [openLabJack]: [None], an integer or a
    string. *)
Inductive pyval :=
| PyNone
| PyInt (z : Z)
| PyStr (s : string).

(** [attribute == pAddress] for an attribute that is [None] or an integer,
    and for one that is a string. *)
Definition eq_int (a : option Z) (p : pyval) : bool :=
  match a, p with
  | Some x, PyInt y => bool_decide (x = y)
  | None, PyNone => true
  | _, _ => false
  end.

Definition eq_str (s : string) (p : pyval) : bool :=
  match p with
  | PyStr t => bool_decide (s = t)
  | _ => false
  end.

(** [device.localID == pAddress or device.serialNumber == pAddress or
    device.ipAddress == pAddress] *)
Definition matches (device : Device.t) (pAddress : pyval) : bool :=
  eq_int (Device.localID device) pAddress ||
  eq_int (Device.serialNumber device) pAddress ||
  eq_str (Device.ipAddress device) pAddress.

(** What the [try] blocks of [openLabJack] catch: a Python exception of the
    embedding, the bare [Exception] raised for a handle that is not
    positive, or the [UnboundLocalError] of [return device] when no branch
    of [_makeDeviceFromHandle] bound [device]. *)
Inductive caught :=
| Known (e : exn)
| BareException
| UnboundLocalError.

(** [str(type(e))] and [str(e)] *)
Definition str_type (c : caught) : string :=
  match c with
  | Known (LabJackException _ _) => "<class 'LabJackPython.LabJackException'>"
  | Known (IndexError _) => "<type 'exceptions.IndexError'>"
  | Known (ValueError _) => "<type 'exceptions.ValueError'>"
  | Known (struct_error _) => "<class 'struct.error'>"
  | Known (socket_error _) => "<class 'socket.error'>"
  | BareException => "<type 'exceptions.Exception'>"
  | UnboundLocalError => "<type 'exceptions.UnboundLocalError'>"
  end.

Definition str_caught (c : caught) : string :=
  match c with
  | Known e => str_exn e
  | BareException => ""
  | UnboundLocalError => "local variable 'device' referenced before assignment"
  end.

Section Open.
Context (d : driver).

(** [_makeDeviceFromHandle(handle, deviceType)], the branch for
    [deviceType == LJ_dtUE9].  The handler closes the same object that the
    body has been filling in. *)
Definition _makeDeviceFromHandle_UE9 (handle : Z) : M Device.t :=
  let device := Device.new (USBHandle handle) 9 in
  sndDataBuff ← alloc (replicate 38 0);
  setitem sndDataBuff 0 0x89;;
  setitem sndDataBuff 1 0x78;;
  setitem sndDataBuff 2 0x10;;
  setitem sndDataBuff 3 0x01;;
  try_except
    (Device.write d device sndDataBuff false false;;
     rcvDataBuff ← Device.read d device 38 false false;
     b8 ← item rcvDataBuff 8;
     let device := set_localID (Z.land b8 0xff) device in
     let macAddress := reverse (slice rcvDataBuff 28 34) in
     serialBytes ← lift (append_chrs [Byte.x10] (drop 3 macAddress));
     serial ← lift (struct_unpack_I_be serialBytes);
     let device := set_serialNumber serial device in
     ipAddress ← for_ [13; 12; 11; 10]%nat
                    (λ j ip, b ← item rcvDataBuff j; mret (ip +:+ str_int b +:+ "."))
                    ""%string;
     let device := set_ipAddress (strip_last ipAddress) device in
     mret device)
    (λ e, Device.close d device;; raise e).

(** The lines after the [try] of the U3 and the U6 branch. *)
Definition fill_in (device : Device.t) (rcvDataBuff : list Z) : M Device.t :=
  b21 ← item rcvDataBuff 21;
  let device := set_localID (Z.land b21 0xff) device in
  serialNumber ← lift (struct_pack_BBBB_unpack_I_le (slice rcvDataBuff 15 19));
  let device := set_serialNumber serialNumber device in
  let device := set_ipAddress "" device in
  mret device.

(** The branch for [deviceType == LJ_dtU3]. *)
Definition _makeDeviceFromHandle_U3 (handle : Z) : M Device.t :=
  let device := Device.new (USBHandle handle) 3 in
  sndDataBuff ← alloc (replicate 26 0);
  setitem sndDataBuff 0 0x0b;;
  setitem sndDataBuff 1 0xf8;;
  setitem sndDataBuff 2 0x0a;;
  setitem sndDataBuff 3 0x08;;
  rcvDataBuff ←
    try_except
      (Device.write d device sndDataBuff false false;;
       Device.read d device 38 false false)
      (λ e, if is_LabJackException e
            then Device.close d device;; raise e
            else raise e);
  fill_in device rcvDataBuff.

(** The branch for [deviceType == 6]. *)
Definition _makeDeviceFromHandle_U6 (handle : Z) : M Device.t :=
  let device := Device.new (USBHandle handle) 6 in
  command ← alloc (replicate 26 0);
  setitem command 1 0xF8;;
  setitem command 2 0x0A;;
  setitem command 3 0x08;;
  rcvDataBuff ←
    try_except
      (Device.write d device command false true;;
       Device.read d device 38 false false)
      (λ e, if is_LabJackException e
            then Device.close d device;; raise e
            else raise e);
  fill_in device rcvDataBuff.

(** [_makeDeviceFromHandle(handle, deviceType)].  [None] stands for the
    [UnboundLocalError] that [return device] raises when [deviceType] is
    none of 9, 3 and 6. *)
Definition _makeDeviceFromHandle (handle deviceType : Z) : M (option Device.t) :=
  if decide (deviceType = LJ_dtUE9) then
    device ← _makeDeviceFromHandle_UE9 handle; mret (Some device)
  else if decide (deviceType = LJ_dtU3) then
    device ← _makeDeviceFromHandle_U3 handle; mret (Some device)
  else if decide (deviceType = 6) then
    device ← _makeDeviceFromHandle_U6 handle; mret (Some device)
  else mret None.

(** The [try] block that [openLabJack] wraps around a handle, in each of
    its three modes: [if handle <= 0: raise Exception], then
    [_makeDeviceFromHandle(handle, deviceType)]; the result is the device
    or what the [except] clause gets. *)
Definition attempt (handle deviceType : Z) : M (caught + Device.t) :=
  if decide (handle ≤ 0) then mret (inl BareException)
  else
    try_except
      (r ← _makeDeviceFromHandle handle deviceType;
       mret (match r with
             | Some device => inr device
             | None => inl UnboundLocalError
             end))
      (λ e, mret (inl (Known e))).

(** The [for] loop of the search mode, over the remaining values of [i],
    with the [raise] that follows it. *)
Fixpoint search (deviceType : Z) (pAddress : pyval) (candidates : list nat)
  : M Device.t :=
  match candidates with
  | [] => raise (LabJackException_ec d LJE_LABJACK_NOT_FOUND)
  | i :: rest =>
      handle ← OpenDevice d (Z.of_nat i + 1) 0 deviceType;
      r ← attempt handle deviceType;
      match r with
      | inl _ => search deviceType pAddress rest
      | inr device =>
          if matches device pAddress
          then mret device
          else Device.close d device;; search deviceType pAddress rest
      end
  end.

(** [openLabJack(deviceType, LJ_ctUSB, firstFound, pAddress, devNumber)]
    where [os.name == 'posix'], for a [deviceType] that ctypes passes on
    unchanged. *)
Definition openLabJack_USB (deviceType : Z) (firstFound : bool)
    (pAddress : pyval) (devNumber : option Z) : M Device.t :=
  match devNumber with
  | Some devNumber =>
      handle ← OpenDevice d devNumber 0 deviceType;
      r ← attempt handle deviceType;
      match r with
      | inr device => mret device
      | inl e =>
          print (str_type e +:+ " " +:+ str_caught e);;
          raise (LabJackException_ec d LJE_LABJACK_NOT_FOUND)
      end
  | None =>
      if firstFound then
        handle ← OpenDevice d 1 0 deviceType;
        r ← attempt handle deviceType;
        match r with
        | inr device => mret device
        | inl _ => raise (LabJackException_ec d LJE_LABJACK_NOT_FOUND)
        end
      else
        numDevices ← GetDevCount d deviceType;
        search deviceType pAddress (range 0 (Z.to_nat numDevices))
  end.

End Open.

(** An event of the USB driver that opens or closes a handle. *)
Definition is_session (e : event) : bool :=
  match e with
  | EvOpenDevice _ _ _ _ | EvCloseDevice _ => true
  | _ => false
  end.

(** The newest of the events [evs] is a bulk read whose response the
    enumeration would parse ([parse]) into the identity that the session
    [dev] on handle [h] carries. *)
Definition identified_as (parse : list Z → M (Z * devinfo)) (ty : Z)
    (ip : option string) (h : Z) (evs : list event) (dev : Device.t) : Prop :=
  ∃ ev rest lid sn,
    evs = ev :: rest ∧
    identified parse ev = Some (sn, DevInfo ty lid sn ip) ∧
    dev = Device.Make (Some (USBHandle h)) (Some lid) (Some sn)
            (default ""%string ip) (Some ty) false.

(** An open session on the USB handle [h] for a device of type [ty], with
    its local ID and serial number known. *)
Definition fresh_session (h ty : Z) (dev : Device.t) : Prop :=
  ∃ lid sn, dev = Device.Make (Some (USBHandle h)) (Some lid) (Some sn)
                    (Device.ipAddress dev) (Some ty) false.

(** ** Connecting a UE9 over TCP *)

Definition SOCKET_TIMEOUT : Z := 10.

(** [UE9TCPHandle.__init__(self, ipAddress, timeout)]; [conn] names the
    new object. *)
Definition UE9TCPHandle_init (d : driver) (conn : Z) (ipAddress : string)
    (timeout : Z) : M unit :=
  try_except
    (print "Attempting connect in TCP Handle";;
     socket_ d conn data_sock;;
     connect d conn data_sock ipAddress 52360;;
     settimeout d conn data_sock timeout;;
     socket_ d conn stream_sock;;
     connect d conn stream_sock ipAddress 52361;;
     settimeout d conn stream_sock timeout;;
     socket_ d conn modbus_sock;;
     connect d conn modbus_sock ipAddress 502;;
     settimeout d conn modbus_sock timeout)
    (λ e, print (str_exn e);;
          raise (LJE ("Could not connect to labjack at address: " ++ ipAddress))).

(** The error that a socket call logged, if it failed. *)
Definition sock_failure (e : event) : option string :=
  match e with
  | EvSocket _ _ err | EvConnect _ _ _ _ err | EvSetTimeout _ _ _ err
  | EvSockClose _ _ err | EvSend _ _ _ err => err
  | EvRecv _ _ _ (inl msg) => Some msg
  | _ => None
  end.

(** The calls of a complete connection, newest first. *)
Definition connected (conn : Z) (ipAddress : string) (timeout : Z) : list event :=
  [EvSetTimeout conn modbus_sock timeout None;
   EvConnect conn modbus_sock ipAddress 502 None;
   EvSocket conn modbus_sock None;
   EvSetTimeout conn stream_sock timeout None;
   EvConnect conn stream_sock ipAddress 52361 None;
   EvSocket conn stream_sock None;
   EvSetTimeout conn data_sock timeout None;
   EvConnect conn data_sock ipAddress 52360 None;
   EvSocket conn data_sock None;
   EvPrint "Attempting connect in TCP Handle"].
(** ** Running statements *)

Lemma run_bind {A B} (m : M A) (k : A → M B) w :
  (m ≫= k) w =
  match m w with (Ret a, w') => k a w' | (Raise e, w') => (Raise e, w') end.
Proof. reflexivity. Qed.

Lemma run_bind_ret {A B} (m : M A) (k : A → M B) w a w' :
  m w = (Ret a, w') → (m ≫= k) w = k a w'.
Proof. intros H. rewrite run_bind, H. reflexivity. Qed.

Lemma run_bind_raise {A B} (m : M A) (k : A → M B) w e w' :
  m w = (Raise e, w') → (m ≫= k) w = (Raise e, w').
Proof. intros H. rewrite run_bind, H. reflexivity. Qed.

Lemma run_try_ret {A} (m : M A) h w a w' :
  m w = (Ret a, w') → try_except m h w = (Ret a, w').
Proof. intros H. unfold try_except. rewrite H. reflexivity. Qed.

Lemma run_try_raise {A} (m : M A) h w e w' :
  m w = (Raise e, w') → try_except m h w = h e w'.
Proof. intros H. unfold try_except. rewrite H. reflexivity. Qed.

Lemma deref_Some w l f : heap w !! l = Some f → deref w l = f.
Proof. intros H. unfold deref. rewrite H. reflexivity. Qed.

Lemma heap_store_eq w l f xs :
  heap w !! l = Some f → heap (store l xs w) !! l = Some xs.
Proof.
  intros H. simpl. apply list_lookup_insert_eq. eapply lookup_lt_Some, H.
Qed.

Lemma heap_store_ne w l l' xs :
  l ≠ l' → heap (store l xs w) !! l' = heap w !! l'.
Proof. intros H. simpl. apply list_lookup_insert_ne, H. Qed.

Lemma store_store w l xs ys : store l ys (store l xs w) = store l ys w.
Proof. unfold store, set_heap. simpl. rewrite list_insert_insert_eq. reflexivity. Qed.

Lemma store_id w l f : heap w !! l = Some f → store l f w = w.
Proof.
  intros H. destruct w as [h t]. unfold store, set_heap. simpl in *.
  rewrite list_insert_id; [reflexivity | exact H].
Qed.

Lemma run_len w l f : heap w !! l = Some f → len l w = (Ret (length f), w).
Proof. intros H. unfold len. rewrite (deref_Some _ _ _ H). reflexivity. Qed.

Lemma run_getitem w l f i x :
  heap w !! l = Some f → f !! i = Some x → getitem l i w = (Ret x, w).
Proof.
  intros H Hi. unfold getitem. rewrite (deref_Some _ _ _ H), Hi. reflexivity.
Qed.

Lemma run_getitem_out w l f i :
  heap w !! l = Some f → (length f ≤ i)%nat →
  getitem l i w = (Raise (IndexError "list index out of range"), w).
Proof.
  intros H Hi. unfold getitem. rewrite (deref_Some _ _ _ H).
  rewrite (lookup_ge_None_2 _ _ Hi). reflexivity.
Qed.

Lemma run_setitem w l f i v :
  heap w !! l = Some f → (i < length f)%nat →
  setitem l i v w = (Ret tt, store l (<[i := v]> f) w).
Proof.
  intros H Hi. unfold setitem. rewrite (deref_Some _ _ _ H).
  destruct (decide (i < length f)%nat); [reflexivity | contradiction].
Qed.

(** The summing loop reads [n] items from index [a] on and changes
    nothing. *)
Lemma run_sum_loop w l f n : ∀ a acc,
  heap w !! l = Some f → (a + n ≤ length f)%nat →
  for_ (seq a n) (λ i total, b ← getitem l i; mret (total + Z.land b 0xff)) acc w
  = (Ret (total_from acc (take n (drop a f))), w).
Proof.
  induction n as [|n IH]; intros a acc H Hn.
  - reflexivity.
  - destruct (lookup_lt_is_Some_2 f a) as [x Hx]; [lia|].
    cbn [seq for_].
    rewrite (run_bind_ret _ _ w (acc + Z.land x 0xff) w).
    2:{ rewrite (run_bind_ret _ _ w x w); [reflexivity|].
        eapply run_getitem; eassumption. }
    rewrite IH by (assumption || lia).
    rewrite (drop_S _ _ _ Hx). cbn [take total_from foldl].
    reflexivity.
Qed.

(** ** The checksum engine on the store *)

Lemma length_frame16 f : length (frame16 f) = length f.
Proof. unfold frame16. rewrite !length_insert. reflexivity. Qed.

Lemma length_frame8 f n : length (frame8 f n) = length f.
Proof. unfold frame8. rewrite length_insert. reflexivity. Qed.

Lemma length_checksummed f : length (checksummed f) = length f.
Proof.
  unfold checksummed. destruct (decide (class_nibble f = 15)).
  - rewrite length_frame8, length_frame16. reflexivity.
  - apply length_frame8.
Qed.

Lemma run_setChecksum16 w l f :
  heap w !! l = Some f → (6 ≤ length f)%nat →
  setChecksum16 l w = (Ret l, store l (frame16 f) w).
Proof.
  intros H Hlen. unfold setChecksum16.
  rewrite (run_bind_ret _ _ _ _ _ (run_len _ _ _ H)).
  unfold range.
  erewrite run_bind_ret; [| apply run_sum_loop; [exact H | lia]].
  rewrite take_ge by (rewrite length_drop; lia).
  erewrite run_bind_ret; [| apply (run_setitem _ _ _ _ _ H); lia].
  erewrite run_bind_ret.
  2:{ eapply run_setitem; [eapply heap_store_eq, H | rewrite length_insert; lia]. }
  rewrite store_store. reflexivity.
Qed.

Lemma run_setChecksum8 w l f numBytes :
  heap w !! l = Some f → (1 ≤ length f)%nat → (numBytes ≤ length f)%nat →
  setChecksum8 l numBytes w = (Ret l, store l (frame8 f numBytes) w).
Proof.
  intros H Hlen Hn. unfold setChecksum8, range.
  erewrite run_bind_ret; [| apply run_sum_loop; [exact H | lia]].
  set (total := total_from 0 _).
  erewrite run_bind_ret; [| apply (run_setitem _ _ _ _ _ H); lia].
  assert (Hg : getitem l 0 (store l (<[0%nat := fold8 total]> f) w)
               = (Ret (fold8 total), store l (<[0%nat := fold8 total]> f) w)).
  { eapply run_getitem; [eapply heap_store_eq, H |].
    apply list_lookup_insert_eq. lia. }
  rewrite (run_bind_ret _ _ _ _ _ Hg), (run_bind_ret _ _ _ _ _ Hg).
  erewrite run_bind_ret.
  2:{ eapply run_setitem; [eapply heap_store_eq, H | rewrite length_insert; lia]. }
  rewrite store_store, list_insert_insert_eq. reflexivity.
Qed.

Lemma run_setChecksum w l f :
  heap w !! l = Some f → (8 ≤ length f)%nat →
  setChecksum l w = (Ret l, store l (checksummed f) w).
Proof.
  intros H Hlen. unfold setChecksum.
  rewrite (run_bind_ret _ _ _ _ _ (run_len _ _ _ H)).
  destruct (decide (length f < 8)%nat) as [?|_]; [lia|].
  destruct (lookup_lt_is_Some_2 f 1) as [a Ha]; [lia|].
  apply run_try_ret.
  rewrite (run_bind_ret _ _ _ _ _ (run_getitem _ _ _ _ _ H Ha)).
  assert (Hc : class_nibble f = Z.shiftr (Z.land a 0x78) 3).
  { unfold class_nibble. rewrite Ha. reflexivity. }
  unfold checksummed. rewrite Hc.
  destruct (decide (Z.shiftr (Z.land a 0x78) 3 = 15)) as [He|He].
  - erewrite run_bind_ret; [| apply (run_setChecksum16 _ _ _ H); lia].
    erewrite run_bind_ret.
    2:{ eapply run_setChecksum8; [eapply heap_store_eq, H | |];
        rewrite length_frame16; lia. }
    rewrite store_store. reflexivity.
  - rewrite (run_bind_ret _ _ _ _ _ (run_len _ _ _ H)).
    erewrite run_bind_ret; [| apply (run_setChecksum8 _ _ _ _ H); lia].
    reflexivity.
Qed.

Lemma run_verifyChecksum w l f :
  heap w !! l = Some f → (8 ≤ length f)%nat →
  verifyChecksum l w
  = (Ret (checks_agree f (checksummed f)), store l (checksummed f) w).
Proof.
  intros H Hlen. unfold verifyChecksum.
  destruct (lookup_lt_is_Some_2 f 0) as [b0 H0]; [lia|].
  destruct (lookup_lt_is_Some_2 f 4) as [b4 H4]; [lia|].
  destruct (lookup_lt_is_Some_2 f 5) as [b5 H5]; [lia|].
  pose proof (length_checksummed f) as Hl.
  destruct (lookup_lt_is_Some_2 (checksummed f) 0) as [t0 T0]; [lia|].
  destruct (lookup_lt_is_Some_2 (checksummed f) 4) as [t4 T4]; [lia|].
  destruct (lookup_lt_is_Some_2 (checksummed f) 5) as [t5 T5]; [lia|].
  rewrite (run_bind_ret _ _ _ _ _ (run_getitem _ _ _ _ _ H H0)).
  rewrite (run_bind_ret _ _ _ _ _ (run_getitem _ _ _ _ _ H H4)).
  rewrite (run_bind_ret _ _ _ _ _ (run_getitem _ _ _ _ _ H H5)).
  rewrite (run_bind_ret _ _ _ _ _ (run_setChecksum _ _ _ H Hlen)).
  pose proof (heap_store_eq w l f (checksummed f) H) as H'.
  rewrite (run_bind_ret _ _ _ _ _ (run_getitem _ _ _ _ _ H' T0)).
  unfold checks_agree. rewrite H0, H4, H5, T0, T4, T5.
  destruct (decide (b0 = t0)) as [->|N0].
  2:{ rewrite (bool_decide_eq_false_2 _) by congruence. reflexivity. }
  rewrite (run_bind_ret _ _ _ _ _ (run_getitem _ _ _ _ _ H' T4)).
  rewrite (bool_decide_eq_true_2 _) by reflexivity.
  destruct (decide (b4 = t4)) as [->|N4].
  2:{ rewrite (bool_decide_eq_false_2 (Some b4 = _)) by congruence. reflexivity. }
  rewrite (run_bind_ret _ _ _ _ _ (run_getitem _ _ _ _ _ H' T5)).
  rewrite (bool_decide_eq_true_2 _) by reflexivity.
  destruct (decide (b5 = t5)) as [->|N5].
  - rewrite (bool_decide_eq_true_2 _) by reflexivity. reflexivity.
  - rewrite (bool_decide_eq_false_2 _) by congruence. reflexivity.
Qed.

Lemma run_setChecksum_short w l f :
  heap w !! l = Some f → (length f < 8)%nat →
  setChecksum l w
  = (Raise (LJE "Command does not contain enough bytes."), w).
Proof.
  intros H Hlen. unfold setChecksum.
  rewrite (run_bind_ret _ _ _ _ _ (run_len _ _ _ H)).
  destruct (decide (length f < 8)%nat); [reflexivity | contradiction].
Qed.

Lemma run_verifyChecksum_short w l f :
  heap w !! l = Some f → (length f < 8)%nat →
  ∃ e, verifyChecksum l w = (Raise e, w).
Proof.
  intros H Hlen. unfold verifyChecksum.
  destruct (f !! 0%nat) as [b0|] eqn:H0.
  2:{ eexists. apply run_bind_raise. eapply run_getitem_out; [exact H|].
      apply lookup_ge_None_1, H0. }
  rewrite (run_bind_ret _ _ _ _ _ (run_getitem _ _ _ _ _ H H0)).
  destruct (f !! 4%nat) as [b4|] eqn:H4.
  2:{ eexists. apply run_bind_raise. eapply run_getitem_out; [exact H|].
      apply lookup_ge_None_1, H4. }
  rewrite (run_bind_ret _ _ _ _ _ (run_getitem _ _ _ _ _ H H4)).
  destruct (f !! 5%nat) as [b5|] eqn:H5.
  2:{ eexists. apply run_bind_raise. eapply run_getitem_out; [exact H|].
      apply lookup_ge_None_1, H5. }
  rewrite (run_bind_ret _ _ _ _ _ (run_getitem _ _ _ _ _ H H5)).
  eexists. apply run_bind_raise. eapply run_setChecksum_short; eassumption.
Qed.

(** ** Which bytes the checksum touches *)

Lemma checksummed_normal f i :
  class_nibble f ≠ 15 → i ≠ 0%nat → checksummed f !! i = f !! i.
Proof.
  intros Hc Hi. unfold checksummed.
  destruct (decide (class_nibble f = 15)); [contradiction|].
  unfold frame8. apply list_lookup_insert_ne. congruence.
Qed.

Lemma checksummed_extended f i :
  class_nibble f = 15 → i ≠ 0%nat → i ≠ 4%nat → i ≠ 5%nat →
  checksummed f !! i = f !! i.
Proof.
  intros Hc H0 H4 H5. unfold checksummed.
  destruct (decide (class_nibble f = 15)); [|contradiction].
  unfold frame8, frame16.
  rewrite !list_lookup_insert_ne by congruence. reflexivity.
Qed.

Lemma checksummed_other f i :
  i ≠ 0%nat → i ≠ 4%nat → i ≠ 5%nat → checksummed f !! i = f !! i.
Proof.
  intros H0 H4 H5. destruct (decide (class_nibble f = 15)).
  - apply checksummed_extended; assumption.
  - apply checksummed_normal; assumption.
Qed.

Lemma class_nibble_checksummed f : class_nibble (checksummed f) = class_nibble f.
Proof. unfold class_nibble. rewrite checksummed_other by lia. reflexivity. Qed.

(** When the three checksum positions already agree, nothing changes. *)
Lemma checksummed_fixed f :
  checks_agree f (checksummed f) = true → checksummed f = f.
Proof.
  unfold checks_agree. rewrite !andb_true_iff, !bool_decide_eq_true.
  intros [[E0 E4] E5]. apply list_eq. intros i.
  destruct (decide (i = 0%nat)) as [->|?]; [congruence|].
  destruct (decide (i = 4%nat)) as [->|?]; [congruence|].
  destruct (decide (i = 5%nat)) as [->|?]; [congruence|].
  apply checksummed_other; assumption.
Qed.

Lemma frame8_frame8 f n : frame8 (frame8 f n) n = frame8 f n.
Proof.
  unfold frame8. rewrite drop_insert_lt by lia.
  apply list_insert_insert_eq.
Qed.

Lemma frame16_after f c :
  (6 ≤ length f)%nat →
  frame16 (<[0%nat := c]> (frame16 f)) = <[0%nat := c]> (frame16 f).
Proof.
  intros Hlen. unfold frame16 at 1. cbv zeta.
  assert (Hd : drop 6 (<[0%nat := c]> (frame16 f)) = drop 6 f).
  { unfold frame16. rewrite !drop_insert_lt by lia. reflexivity. }
  rewrite Hd.
  rewrite (list_insert_id (<[0%nat := c]> (frame16 f)) 4).
  2:{ rewrite list_lookup_insert_ne by lia. unfold frame16.
      rewrite list_lookup_insert_ne by lia.
      apply list_lookup_insert_eq. lia. }
  apply list_insert_id.
  rewrite list_lookup_insert_ne by lia. unfold frame16.
  apply list_lookup_insert_eq. rewrite length_insert. lia.
Qed.

Lemma checksummed_idem f :
  (6 ≤ length f)%nat → checksummed (checksummed f) = checksummed f.
Proof.
  intros Hlen. unfold checksummed at 1.
  rewrite class_nibble_checksummed, length_checksummed.
  unfold checksummed.
  destruct (decide (class_nibble f = 15)).
  - unfold frame8 at 2. rewrite frame16_after by assumption.
    fold (frame8 (frame16 f) 6). apply frame8_frame8.
  - apply frame8_frame8.
Qed.

Lemma checks_agree_refl f : checks_agree f f = true.
Proof.
  unfold checks_agree. rewrite !bool_decide_eq_true_2 by reflexivity.
  reflexivity.
Qed.

(** ** Properties of the checksum engine *)

(** C1.  For every list [f] of at least 8 items (bytes in particular),
    [verifyChecksum(setChecksum(f))] returns [True]: the call of
    [setChecksum] writes the checksums into the list and hands back the same
    reference, and the verification of that list succeeds. *)
Theorem verifyChecksum_setChecksum w l f :
  heap w !! l = Some f → (8 ≤ length f)%nat →
  (command ← setChecksum l; verifyChecksum command) w
  = (Ret true, store l (checksummed f) w).
Proof.
  intros H Hlen.
  rewrite (run_bind_ret _ _ _ _ _ (run_setChecksum _ _ _ H Hlen)).
  pose proof (heap_store_eq w l f (checksummed f) H) as H'.
  rewrite (run_verifyChecksum _ _ _ H') by (rewrite length_checksummed; lia).
  rewrite checksummed_idem by lia.
  rewrite store_store, checks_agree_refl. reflexivity.
Qed.

Lemma verifyChecksum_setChecksum_witness :
  (command ← setChecksum 0%nat; verifyChecksum command)
    (World [[0; 0xf8; 3; 0x0b; 0; 0; 0; 0; 0; 0; 0; 0]] [])
  = (Ret true, World [[7; 0xf8; 3; 0x0b; 0; 0; 0; 0; 0; 0; 0; 0]] []).
Proof.
  exact (verifyChecksum_setChecksum
           (World [[0; 0xf8; 3; 0x0b; 0; 0; 0; 0; 0; 0; 0; 0]] []) 0%nat
           [0; 0xf8; 3; 0x0b; 0; 0; 0; 0; 0; 0; 0; 0]
           eq_refl ltac:(simpl; lia)).
Defined.

(** C3.  For every list of fewer than 8 items [setChecksum] raises the
    [LabJackException] "Command does not contain enough bytes." at its first
    statement; the store and the trace are as before, so no byte of the
    input is modified. *)
Theorem setChecksum_too_short w l f :
  heap w !! l = Some f → (length f < 8)%nat →
  setChecksum l w
  = (Raise (LJE "Command does not contain enough bytes."), w).
Proof.
  intros H Hlen. eapply run_setChecksum_short; eassumption.
Qed.

Lemma setChecksum_too_short_witness :
  setChecksum 0%nat (World [[0x70; 0x70]] [])
  = (Raise (LJE "Command does not contain enough bytes."),
     World [[0x70; 0x70]] []).
Proof.
  apply (setChecksum_too_short (World [[0x70; 0x70]] []) 0%nat [0x70; 0x70]).
  - reflexivity.
  - simpl. lia.
Defined.

(** C10.  For every frame of at least 8 items [setChecksum] returns the
    reference it was given and updates that list in place, keeping its
    length: a normal frame (class nibble of byte 1 other than 15) changes at
    index 0 only, an extended frame (class nibble 15) at indices 0, 4 and 5
    only.  Other list objects and the trace are untouched. *)
Theorem setChecksum_frame_effect w l f :
  heap w !! l = Some f → (8 ≤ length f)%nat →
  ∃ f' w',
    setChecksum l w = (Ret l, w') ∧
    heap w' !! l = Some f' ∧
    (∀ l', l' ≠ l → heap w' !! l' = heap w !! l') ∧
    trace w' = trace w ∧
    length f' = length f ∧
    (class_nibble f ≠ 15 → ∀ i, i ≠ 0%nat → f' !! i = f !! i) ∧
    (class_nibble f = 15 →
     ∀ i, i ≠ 0%nat → i ≠ 4%nat → i ≠ 5%nat → f' !! i = f !! i).
Proof.
  intros H Hlen.
  exists (checksummed f), (store l (checksummed f) w).
  split; [apply run_setChecksum; assumption|].
  split; [eapply heap_store_eq, H|].
  split; [intros l' Hl; apply heap_store_ne; congruence|].
  split; [reflexivity|].
  split; [apply length_checksummed|].
  split.
  - intros Hc i Hi. apply checksummed_normal; assumption.
  - intros Hc i H0 H4 H5. apply checksummed_extended; assumption.
Qed.

Lemma setChecksum_frame_effect_witness :
  ∃ f' w',
    setChecksum 1%nat (World [[9; 9]; [0; 0xf8; 3; 0x0b; 5; 5; 1; 2]] [])
    = (Ret 1%nat, w') ∧
    heap w' !! 1%nat = Some f' ∧ f' !! 0%nat = Some 10 ∧ f' !! 6%nat = Some 1.
Proof.
  destruct (setChecksum_frame_effect
              (World [[9; 9]; [0; 0xf8; 3; 0x0b; 5; 5; 1; 2]] []) 1%nat
              [0; 0xf8; 3; 0x0b; 5; 5; 1; 2] eq_refl ltac:(simpl; lia))
    as (f' & w' & Hrun & Hf' & _ & _ & _ & _ & Hext).
  exists f', w'. split; [exact Hrun|]. split; [exact Hf'|].
  vm_compute in Hrun. injection Hrun as <-. vm_compute in Hf'.
  injection Hf' as <-. split; reflexivity.
Defined.

(** ** The code against the document's reference algorithm *)

Lemma land_255_mod x : Z.land x 0xff = x mod 256.
Proof. change 0xff with (Z.ones 8). rewrite Z.land_ones by lia. reflexivity. Qed.

Lemma land_255_byte b : is_byte b → Z.land b 0xff = b.
Proof. intros Hb. rewrite land_255_mod. apply Z.mod_small. exact Hb. Qed.

Lemma land_255_is_byte x : is_byte (Z.land x 0xff).
Proof. rewrite land_255_mod. apply Z.mod_pos_bound. lia. Qed.

Lemma total_from_byte_sum xs : ∀ acc,
  Forall is_byte xs → total_from acc xs = acc + Spec.byte_sum xs.
Proof.
  induction xs as [|b xs IH]; intros acc Hb; simpl.
  - lia.
  - inversion Hb as [|? ? Hb1 Hb2]; subst.
    unfold total_from in IH. rewrite IH by assumption.
    rewrite (land_255_byte _ Hb1). unfold Spec.byte_sum. lia.
Qed.

Lemma byte_sum_bound xs :
  Forall is_byte xs → 0 ≤ Spec.byte_sum xs ≤ 255 * Z.of_nat (length xs).
Proof.
  induction 1 as [|b xs Hb _ IH]; simpl; [lia|].
  unfold is_byte in Hb. lia.
Qed.

Lemma class_nibble_frame_class f : class_nibble f = Spec.frame_class f.
Proof.
  unfold class_nibble, Spec.frame_class.
  rewrite Z.shiftr_land. reflexivity.
Qed.

Lemma frame16_spec f : Forall is_byte f → frame16 f = Spec.checksum16 f.
Proof.
  intros Hb. unfold frame16, Spec.checksum16.
  rewrite total_from_byte_sum by (apply Forall_drop, Hb).
  reflexivity.
Qed.

Lemma frame8_spec f n :
  Forall is_byte f → frame8 f n = Spec.checksum8 fold8 f n.
Proof.
  intros Hb. unfold frame8, Spec.checksum8.
  rewrite total_from_byte_sum by (apply Forall_take, Forall_drop, Hb).
  reflexivity.
Qed.

Lemma checksum16_bytes f : Forall is_byte f → Forall is_byte (Spec.checksum16 f).
Proof.
  intros Hb. unfold Spec.checksum16.
  apply Forall_insert; [apply Forall_insert; [exact Hb|] |];
    apply land_255_is_byte.
Qed.

Lemma checksummed_spec f :
  Forall is_byte f → checksummed f = Spec.applyChecksum fold8 f.
Proof.
  intros Hb. unfold checksummed, Spec.applyChecksum.
  rewrite class_nibble_frame_class.
  destruct (decide (Spec.frame_class f = 15)).
  - rewrite (frame16_spec _ Hb). apply frame8_spec, checksum16_bytes, Hb.
  - apply frame8_spec, Hb.
Qed.

(** Below [2^16] the mask on the carry is the identity. *)
Lemma fold8_carry_fold s : 0 ≤ s < 65536 → fold8 s = Spec.carry_fold s.
Proof.
  intros Hs. unfold fold8, Spec.carry_fold. f_equal.
  rewrite land_255_mod, Z.shiftr_div_pow2 by lia.
  apply Z.mod_small. change (2 ^ 8) with 256.
  split; [apply Z.div_pos; lia | apply Z.div_lt_upper_bound; lia].
Qed.

Lemma fold8_small s : 0 ≤ s < 65536 → 0 ≤ fold8 s < 65536.
Proof.
  intros Hs. unfold fold8.
  pose proof (land_255_is_byte s) as H1.
  pose proof (land_255_is_byte (Z.shiftr s 8)) as H2.
  unfold is_byte in *. lia.
Qed.

Lemma checksum8_folds_agree f n :
  0 ≤ Spec.byte_sum (take (n - 1) (drop 1 f)) < 65536 →
  Spec.checksum8 fold8 f n = Spec.checksum8 Spec.carry_fold f n.
Proof.
  intros Hs. unfold Spec.checksum8. f_equal.
  rewrite <- (fold8_carry_fold _ Hs).
  apply fold8_carry_fold, fold8_small, Hs.
Qed.

Lemma applyChecksum_folds_agree f :
  Forall is_byte f →
  (length f ≤ 258)%nat ∨ Spec.frame_class f = 15 →
  Spec.applyChecksum fold8 f = Spec.applyChecksum Spec.carry_fold f.
Proof.
  intros Hb Hsmall. unfold Spec.applyChecksum.
  destruct (decide (Spec.frame_class f = 15)) as [Hc|Hc].
  - apply checksum8_folds_agree.
    assert (Hb' : Forall is_byte (take (6 - 1) (drop 1 (Spec.checksum16 f)))).
    { apply Forall_take, Forall_drop, checksum16_bytes, Hb. }
    pose proof (byte_sum_bound _ Hb') as Hs.
    rewrite length_take in Hs. lia.
  - destruct Hsmall as [Hlen|?]; [|contradiction].
    apply checksum8_folds_agree.
    assert (Hb' : Forall is_byte (take (length f - 1) (drop 1 f))).
    { apply Forall_take, Forall_drop, Hb. }
    pose proof (byte_sum_bound _ Hb') as Hs.
    rewrite length_take in Hs. lia.
Qed.

(** C2, as stated, fails on a long frame: with 258 bytes [0xFF] after two
    zero bytes the byte sum is 65790; the code keeps only the low eight bits
    of the carry and stores 254, the document's fold gives 255. *)
Lemma setChecksum_differs_from_carry_fold :
  let f := 0 :: 0 :: replicate 258 255 in
  Forall is_byte f ∧ (8 ≤ length f)%nat ∧
  setChecksum 0%nat (World [f] [])
  ≠ (Ret 0%nat, World [Spec.applyChecksum Spec.carry_fold f] []) ∧
  (∃ w', setChecksum 0%nat (World [f] []) = (Ret 0%nat, w') ∧
         (heap w' !! 0%nat) ≫= (.!! 0%nat) = Some 254) ∧
  Spec.applyChecksum Spec.carry_fold f !! 0%nat = Some 255.
Proof.
  cbv zeta. split; [|split; [|split; [|split]]].
  - apply Forall_cons_2; [unfold is_byte; lia|].
    apply Forall_cons_2; [unfold is_byte; lia|].
    apply Forall_replicate. unfold is_byte. lia.
  - simpl. lia.
  - intros Heq.
    apply (f_equal (λ r : outcome loc * world,
                      (heap r.2 !! 0%nat) ≫= (.!! 0%nat))) in Heq.
    vm_compute in Heq. discriminate Heq.
  - eexists. split; [vm_compute; reflexivity | reflexivity].
  - vm_compute. reflexivity.
Qed.

(** C2, amended.  For every byte sequence of at least 8 bytes [setChecksum]
    leaves in the list what the reference algorithm computes when the carry
    fold is [(sum & 0xFF) + ((sum >> 8) & 0xFF)]: class nibble from bits 3-6
    of byte 1; for class 15 the 16-bit sum of bytes 6..end at offsets 4 and
    5, then the folded sum of bytes 1..5 at byte 0; otherwise the folded sum
    of bytes 1..len-1 at byte 0.  This is the document's fold
    [(sum & 0xFF) + (sum >> 8)] for every extended frame and for every frame
    of at most 258 bytes. *)
Theorem setChecksum_refines_reference w l f :
  heap w !! l = Some f → Forall is_byte f → (8 ≤ length f)%nat →
  setChecksum l w = (Ret l, store l (Spec.applyChecksum fold8 f) w) ∧
  ((length f ≤ 258)%nat ∨ Spec.frame_class f = 15 →
   Spec.applyChecksum fold8 f = Spec.applyChecksum Spec.carry_fold f).
Proof.
  intros H Hb Hlen. split.
  - rewrite <- (checksummed_spec _ Hb). apply run_setChecksum; assumption.
  - apply applyChecksum_folds_agree, Hb.
Qed.

Lemma setChecksum_refines_reference_witness :
  setChecksum 0%nat (World [[0; 0xf8; 3; 0x0b; 0; 0; 0; 0; 0; 0; 0; 0]] [])
  = (Ret 0%nat, World [[7; 0xf8; 3; 0x0b; 0; 0; 0; 0; 0; 0; 0; 0]] []).
Proof.
  refine (proj1 (setChecksum_refines_reference
           (World [[0; 0xf8; 3; 0x0b; 0; 0; 0; 0; 0; 0; 0; 0]] []) 0%nat
           [0; 0xf8; 3; 0x0b; 0; 0; 0; 0; 0; 0; 0; 0] eq_refl _ _)).
  - repeat constructor; unfold is_byte; lia.
  - simpl. lia.
Defined.




(** ** Response validation *)

Lemma run_contents w l f : heap w !! l = Some f → contents l w = (Ret f, w).
Proof. intros H. unfold contents. rewrite (deref_Some _ _ _ H). reflexivity. Qed.

(** A verification that returns has seen at least 8 items, and the item at
    offset 6 is not one it rewrites. *)
Lemma verifyChecksum_returns w l f b w' :
  heap w !! l = Some f → verifyChecksum l w = (Ret b, w') →
  (8 ≤ length f)%nat ∧ w' = store l (checksummed f) w.
Proof.
  intros H Hv. destruct (decide (8 ≤ length f)%nat) as [Hlen|Hlen].
  - rewrite (run_verifyChecksum _ _ _ H Hlen) in Hv.
    split; [assumption | congruence].
  - destruct (run_verifyChecksum_short w l f H) as [e He]; [lia|].
    congruence.
Qed.

Lemma run_sentinel w l f r0 r1 (k : bool → M unit) :
  heap w !! l = Some f → f !! 0%nat = Some r0 → f !! 1%nat = Some r1 →
  (r0 ← getitem l 0;
   sentinel ← (if decide (r0 = 0xB8)
               then r1 ← getitem l 1; mret (bool_decide (r1 = 0xB8))
               else mret false);
   k sentinel) w
  = k (bool_decide (r0 = 0xB8 ∧ r1 = 0xB8)) w.
Proof.
  intros H H0 H1.
  rewrite (run_bind_ret _ _ _ _ _ (run_getitem _ _ _ _ _ H H0)).
  destruct (decide (r0 = 0xB8)) as [E0|N0].
  - rewrite (run_bind_ret _ _ w (bool_decide (r1 = 0xB8)) w).
    2:{ rewrite (run_bind_ret _ _ _ _ _ (run_getitem _ _ _ _ _ H H1)).
        reflexivity. }
    f_equal. apply bool_decide_ext. tauto.
  - rewrite (run_bind_ret _ _ w false w) by reflexivity.
    rewrite (bool_decide_eq_false_2 (r0 = 0xB8 ∧ r1 = 0xB8)) by tauto.
    reflexivity.
Qed.

(** ** How statements extend the trace *)

Lemma count_events_app p evs1 evs2 :
  count_events p (evs1 ++ evs2) = (count_events p evs1 + count_events p evs2)%nat.
Proof. unfold count_events. rewrite List.filter_app, length_app. reflexivity. Qed.

Lemma adds_mono p n n' {A} (m : M A) : (n ≤ n')%nat → adds p n m → adds p n' m.
Proof.
  intros Hn Hm w. destruct (Hm w) as (evs & Ht & Hc).
  exists evs. split; [exact Ht | lia].
Qed.

Lemma adds_silent p {A} (m : M A) :
  (∀ w, trace (m w).2 = trace w) → adds p 0 m.
Proof. intros Hm w. exists []. split; [apply Hm | reflexivity]. Qed.

Lemma adds_ret p {A} (a : A) : adds p 0 (mret a).
Proof. apply adds_silent. reflexivity. Qed.

Lemma adds_raise p {A} e : adds p 0 (raise e : M A).
Proof. apply adds_silent. reflexivity. Qed.

Lemma adds_lift p {A} (o : outcome A) : adds p 0 (lift o).
Proof. apply adds_silent. reflexivity. Qed.

Lemma adds_bind p n n' {A B} (m : M A) (k : A → M B) :
  adds p n m → (∀ a, adds p n' (k a)) → adds p (n + n') (m ≫= k).
Proof.
  intros Hm Hk w. destruct (Hm w) as (evs & Ht & Hc).
  rewrite run_bind. destruct (m w) as [[a|e] w1]; simpl in *.
  - destruct (Hk a w1) as (evs' & Ht' & Hc').
    exists (evs' ++ evs). rewrite Ht', Ht, app_assoc, count_events_app.
    split; [reflexivity | lia].
  - exists evs. split; [exact Ht | lia].
Qed.

Lemma adds_try p n n' {A} (m : M A) (h : exn → M A) :
  adds p n m → (∀ e, adds p n' (h e)) → adds p (n + n') (try_except m h).
Proof.
  intros Hm Hh w. destruct (Hm w) as (evs & Ht & Hc).
  unfold try_except. destruct (m w) as [[a|e] w1]; simpl in *.
  - exists evs. split; [exact Ht | lia].
  - destruct (Hh e w1) as (evs' & Ht' & Hc').
    exists (evs' ++ evs). rewrite Ht', Ht, app_assoc, count_events_app.
    split; [reflexivity | lia].
Qed.

Lemma adds_if p n n' {A} (b : bool) (m1 m2 : M A) :
  adds p n m1 → adds p n' m2 → adds p (n `max` n') (if b then m1 else m2).
Proof.
  intros H1 H2. destruct b; (eapply adds_mono; [|eassumption]); lia.
Qed.

Lemma adds_decide p n n' {A} (P : Prop) `{!Decision P} (m1 m2 : M A) :
  adds p n m1 → adds p n' m2 → adds p (n `max` n') (if decide P then m1 else m2).
Proof.
  intros H1 H2. destruct (decide P); (eapply adds_mono; [|eassumption]); lia.
Qed.

Lemma adds_for p {S} (xs : list nat) (body : nat → S → M S) :
  (∀ i acc, adds p 0 (body i acc)) → ∀ acc, adds p 0 (for_ xs body acc).
Proof.
  intros Hb. induction xs as [|i xs IH]; intros acc; simpl.
  - apply adds_ret.
  - apply (adds_bind p 0 0); [apply Hb | apply IH].
Qed.

Lemma adds_len p l : adds p 0 (len l).
Proof. apply adds_silent. reflexivity. Qed.

Lemma adds_contents p l : adds p 0 (contents l).
Proof. apply adds_silent. reflexivity. Qed.

Lemma adds_alloc p xs : adds p 0 (alloc xs).
Proof. apply adds_silent. reflexivity. Qed.

Lemma adds_getitem p l i : adds p 0 (getitem l i).
Proof.
  apply adds_silent. intros w. unfold getitem.
  destruct (deref w l !! i); reflexivity.
Qed.

Lemma adds_setitem p l i v : adds p 0 (setitem l i v).
Proof.
  apply adds_silent. intros w. unfold setitem.
  destruct (decide _); reflexivity.
Qed.

Lemma adds_item p xs i : adds p 0 (item xs i).
Proof.
  apply adds_silent. intros w. unfold item. destruct (xs !! i); reflexivity.
Qed.

Lemma adds_c_item p xs i : adds p 0 (c_item xs i).
Proof.
  apply adds_silent. intros w. unfold c_item. destruct (xs !! i); reflexivity.
Qed.

(** A primitive logs one event. *)
Lemma adds_log (p : event → bool) {A} (m : M A) (o : world → outcome A) (ev : world → event) n :
  (∀ w, m w = (o w, log (ev w) w)) →
  (∀ w, ((if p (ev w) then 1 else 0) ≤ n)%nat) →
  adds p n m.
Proof.
  intros Hm Hp w. exists [ev w]. rewrite Hm. split; [reflexivity|].
  unfold count_events. simpl. specialize (Hp w).
  destruct (p (ev w)); simpl; lia.
Qed.

Lemma adds_print (p : event → bool) s : p (EvPrint s) = false → adds p 0 (print s).
Proof.
  intros Hp. eapply (adds_log _ _ (λ _, Ret tt) (λ _, EvPrint s));
    [reflexivity | intros _; rewrite Hp; lia].
Qed.

Ltac adds_step :=
  first
    [ apply adds_ret | apply adds_raise | apply adds_lift | apply adds_len
    | apply adds_contents | apply adds_alloc | apply adds_getitem
    | apply adds_setitem | apply adds_item | apply adds_c_item
    | apply adds_print; reflexivity
    | apply adds_for; intros ? ?; adds_auto
    | eapply adds_bind; [|intros ?]
    | eapply adds_try; [|intros ?]
    | eapply adds_decide
    | eapply adds_if ]
with adds_auto :=
  (eapply adds_mono; [|repeat adds_step]); [simpl; lia].

Lemma adds_setChecksum16 p l : adds p 0 (setChecksum16 l).
Proof. unfold setChecksum16. adds_auto. Qed.

Lemma adds_setChecksum8 p l n : adds p 0 (setChecksum8 l n).
Proof. unfold setChecksum8. adds_auto. Qed.

Lemma adds_setChecksum p l : adds p 0 (setChecksum l).
Proof.
  unfold setChecksum.
  (eapply adds_mono;
    [|repeat first [apply adds_setChecksum16 | apply adds_setChecksum8
                   | adds_step]]); [simpl; lia].
Qed.

Lemma adds_bulk_result p buf n : adds p 0 (bulk_result buf n).
Proof. unfold bulk_result. adds_auto. Qed.

(** ** Device sessions: what reaches the transport *)

Ltac adds_one :=
  intros w; eexists [_]; split; [reflexivity | unfold count_events; simpl; lia].

Section DeviceTrace.
Context (d : driver).

Lemma transmit_BulkWrite h ep buf n : adds is_transmit 1 (BulkWrite d h ep buf n).
Proof. adds_one. Qed.
Lemma receive_BulkWrite h ep buf n : adds is_receive 0 (BulkWrite d h ep buf n).
Proof. adds_one. Qed.
Lemma transmit_BulkRead h ep n : adds is_transmit 0 (BulkRead d h ep n).
Proof. adds_one. Qed.
Lemma receive_BulkRead h ep n : adds is_receive 1 (BulkRead d h ep n).
Proof. adds_one. Qed.
Lemma transmit_send c ch s : adds is_transmit 1 (send d c ch s).
Proof. adds_one. Qed.
Lemma receive_send c ch s : adds is_receive 0 (send d c ch s).
Proof. adds_one. Qed.
Lemma transmit_recv c ch n : adds is_transmit 0 (recv d c ch n).
Proof. adds_one. Qed.
Lemma receive_recv c ch n : adds is_receive 1 (recv d c ch n).
Proof. adds_one. Qed.
Lemma transmit_socket c ch : adds is_transmit 0 (socket_ d c ch).
Proof. adds_one. Qed.
Lemma receive_socket c ch : adds is_receive 0 (socket_ d c ch).
Proof. adds_one. Qed.
Lemma transmit_connect c ch ip port : adds is_transmit 0 (connect d c ch ip port).
Proof. adds_one. Qed.
Lemma receive_connect c ch ip port : adds is_receive 0 (connect d c ch ip port).
Proof. adds_one. Qed.
Lemma transmit_settimeout c ch t : adds is_transmit 0 (settimeout d c ch t).
Proof. adds_one. Qed.
Lemma receive_settimeout c ch t : adds is_receive 0 (settimeout d c ch t).
Proof. adds_one. Qed.
Lemma transmit_eGet_out h ch pv x1 :
  adds is_transmit 1 (UD_eGet d h LJ_ioRAW_OUT ch pv x1).
Proof. adds_one. Qed.
Lemma receive_eGet_out h ch pv x1 :
  adds is_receive 0 (UD_eGet d h LJ_ioRAW_OUT ch pv x1).
Proof. adds_one. Qed.
Lemma transmit_eGet_in h ch pv x1 :
  adds is_transmit 0 (UD_eGet d h LJ_ioRAW_IN ch pv x1).
Proof. adds_one. Qed.
Lemma receive_eGet_in h ch pv x1 :
  adds is_receive 1 (UD_eGet d h LJ_ioRAW_IN ch pv x1).
Proof. adds_one. Qed.

Ltac device_step :=
  first
    [ apply adds_setChecksum | apply adds_bulk_result
    | apply transmit_BulkWrite | apply receive_BulkWrite
    | apply transmit_BulkRead | apply receive_BulkRead
    | apply transmit_send | apply receive_send
    | apply transmit_recv | apply receive_recv
    | apply transmit_socket | apply receive_socket
    | apply transmit_connect | apply receive_connect
    | apply transmit_settimeout | apply receive_settimeout
    | apply transmit_eGet_out | apply receive_eGet_out
    | apply transmit_eGet_in | apply receive_eGet_in
    | adds_step ].

Ltac device_auto := (eapply adds_mono; [|repeat device_step]); [simpl; lia].

Lemma transmit_eGetRaw_out h ch pv x1 :
  adds is_transmit 1 (eGetRaw d h LJ_ioRAW_OUT ch pv x1).
Proof. unfold eGetRaw. destruct (os_name d); device_auto. Qed.

Lemma receive_eGetRaw_out h ch pv x1 :
  adds is_receive 0 (eGetRaw d h LJ_ioRAW_OUT ch pv x1).
Proof. unfold eGetRaw. destruct (os_name d); device_auto. Qed.

Lemma transmit_eGetRaw_in h ch pv x1 :
  adds is_transmit 0 (eGetRaw d h LJ_ioRAW_IN ch pv x1).
Proof. unfold eGetRaw. destruct (os_name d); device_auto. Qed.

Lemma receive_eGetRaw_in h ch pv x1 :
  adds is_receive 1 (eGetRaw d h LJ_ioRAW_IN ch pv x1).
Proof. unfold eGetRaw. destruct (os_name d); device_auto. Qed.

Ltac session_auto :=
  (eapply adds_mono;
   [|repeat first [ apply transmit_eGetRaw_out | apply receive_eGetRaw_out
                  | apply transmit_eGetRaw_in | apply receive_eGetRaw_in
                  | device_step ]]); [simpl; lia].

(** One call of [Device.write] transmits at most once and receives
    nothing; one call of [Device.read] receives at most once and transmits
    nothing. *)
Lemma transmit_write self l modbus checksum :
  adds is_transmit 1 (Device.write d self l modbus checksum).
Proof.
  unfold Device.write.
  destruct (Device.handle self) as [[h|conn]|]; [destruct (os_name d)| |];
    session_auto.
Qed.

Lemma receive_write self l modbus checksum :
  adds is_receive 0 (Device.write d self l modbus checksum).
Proof.
  unfold Device.write.
  destruct (Device.handle self) as [[h|conn]|]; [destruct (os_name d)| |];
    session_auto.
Qed.

Lemma transmit_read self n stream modbus :
  adds is_transmit 0 (Device.read d self n stream modbus).
Proof.
  unfold Device.read.
  destruct (Device.handle self) as [[h|conn]|]; [destruct (os_name d)| |];
    try session_auto.
  destruct stream; [session_auto|]. destruct modbus; [|session_auto].
  eapply adds_mono; [|eapply adds_bind; [eapply adds_try|intros ?]].
  2: apply transmit_recv.
  2:{ intros e. instantiate (1 := 0%nat). destruct e; session_auto. }
  2: apply adds_ret.
  simpl. lia.
Qed.

Lemma receive_read self n stream modbus :
  adds is_receive 1 (Device.read d self n stream modbus).
Proof.
  unfold Device.read.
  destruct (Device.handle self) as [[h|conn]|]; [destruct (os_name d)| |];
    try session_auto.
  destruct stream; [session_auto|]. destruct modbus; [|session_auto].
  eapply adds_mono; [|eapply adds_bind; [eapply adds_try|intros ?]].
  2: apply receive_recv.
  2:{ intros e. instantiate (1 := 0%nat). destruct e; session_auto. }
  2: apply adds_ret.
  simpl. lia.
Qed.



End DeviceTrace.

(** ** Register operations: one retry, on the retry signal only *)





(** ** ping *)

Lemma ping_never_raises d self w : ∃ b w', Device.ping d self w = (Ret b, w').
Proof.
  unfold Device.ping, try_except.
  match goal with |- context [match ?m w with _ => _ end] =>
    destruct (m w) as [[b|e] w1] end.
  - eauto.
  - rewrite run_bind. unfold print. eauto.
Qed.

(** The U3 branch, which sets the checksum on an 8-byte probe, does reach
    the transport and answers [True]. *)
Lemma ping_U3_probes :
  Device.ping (scripted posix [AInt 8; ABuf [] 0]) u3_usb (World [] [])
  = (Ret true,
     World [[0x24; 0xf8; 0x01; 0x2a; 0; 0; 0; 0]]
           [EvBulkRead 5 2 40 (replicate 40 0) 0;
            EvBulkWrite 5 1 [0x24; -8; 0x01; 0x2a; 0; 0; 0; 0] 8 8]).
Proof. vm_compute. reflexivity. Qed.

(** C8, the defect.  For a UE9 [ping] never reaches the transport:
    [Device.write] is called with its default [checksum = True] on the
    two-byte probe, [setChecksum] (or the handle test) raises before
    anything is sent, and [ping] prints the error and returns [False],
    whatever the driver would have answered. *)
Theorem ping_UE9_never_probes d self w :
  Device.devType self = Some LJ_dtUE9 →
  ∃ msg, Device.ping d self w
         = (Ret false,
            log (EvPrint msg) (set_heap (heap w ++ [[0x70; 0x70]]) w)).
Proof.
  intros Hty. unfold Device.ping. rewrite Hty.
  destruct (decide (Some LJ_dtUE9 = Some LJ_dtUE9)) as [_|N]; [|congruence].
  set (w1 := set_heap (heap w ++ [[0x70; 0x70]]) w).
  assert (Hl : heap w1 !! length (heap w) = Some [0x70; 0x70]).
  { unfold w1. simpl. rewrite lookup_app_r by lia.
    rewrite Nat.sub_diag. reflexivity. }
  unfold Device.write. destruct (Device.handle self) as [h|].
  - exists "Command does not contain enough bytes."%string.
    erewrite run_try_raise.
    2:{ rewrite (run_bind_ret _ _ w (length (heap w)) w1) by reflexivity.
        apply run_bind_raise, run_bind_raise, run_bind_raise.
        eapply run_setChecksum_short; [exact Hl | simpl; lia]. }
    reflexivity.
  - exists "The device handle is None."%string.
    erewrite run_try_raise.
    2:{ rewrite (run_bind_ret _ _ w (length (heap w)) w1) by reflexivity.
        apply run_bind_raise. reflexivity. }
    reflexivity.
Qed.

Lemma ping_UE9_never_probes_witness :
  ∃ msg,
    Device.ping (scripted posix [AInt 2; ABuf [0x70; 0x70] 2]) ue9_usb
      (World [] [])
    = (Ret false, World [[0x70; 0x70]] [EvPrint msg]).
Proof.
  exact (ping_UE9_never_probes (scripted posix [AInt 2; ABuf [0x70; 0x70] 2])
           ue9_usb (World [] []) eq_refl).
Defined.

(** ** Device.write: checksum flag and register pad *)

Lemma c_byte_octet b : is_byte b → Z.land (c_byte b) 0xff = b.
Proof.
  intros Hb. rewrite land_255_mod. unfold c_byte, is_byte in *.
  rewrite Zminus_mod_idemp_l. replace (b + 128 - 128) with b by lia.
  apply Z.mod_small. lia.
Qed.

Lemma c_byte_octets xs :
  Forall is_byte xs → map (λ b, Z.land b 0xff) (map c_byte xs) = xs.
Proof.
  induction 1 as [|b xs Hb _ IH]; simpl; [reflexivity|].
  rewrite (c_byte_octet _ Hb), IH. reflexivity.
Qed.

Lemma struct_pack_B_bytes xs :
  Forall is_byte xs → ∃ s, struct_pack_B xs = Ret s ∧ map ord s = xs.
Proof.
  induction 1 as [|x xs Hx _ IH]; simpl.
  - exists []. split; reflexivity.
  - destruct IH as (s & Hs & Hm). unfold is_byte in Hx.
    destruct (decide (0 ≤ x)) as [_|?]; [|lia].
    destruct (Byte.of_N (Z.to_N x)) as [b|] eqn:Hb.
    + rewrite Hs. exists (b :: s). split; [reflexivity|]. simpl.
      rewrite Hm. unfold ord. rewrite (Byte.to_of_N _ Hb).
      rewrite Z2N.id by lia. reflexivity.
    + apply Byte.of_N_None_iff in Hb. lia.
Qed.

Lemma fold8_fold8_byte s : is_byte (fold8 (fold8 s)).
Proof.
  assert (Ht : 0 ≤ fold8 s ≤ 510).
  { unfold fold8.
    pose proof (land_255_is_byte s). pose proof (land_255_is_byte (Z.shiftr s 8)).
    unfold is_byte in *. lia. }
  revert Ht. generalize (fold8 s). intros t Ht.
  unfold fold8, is_byte. rewrite !land_255_mod, Z.shiftr_div_pow2 by lia.
  change (2 ^ 8) with 256.
  assert (Hq : t / 256 = 0 ∨ t / 256 = 1).
  { assert (0 ≤ t / 256 < 2); [|lia].
    split; [apply Z.div_pos; lia | apply Z.div_lt_upper_bound; lia]. }
  pose proof (Z.div_mod t 256 ltac:(lia)) as Hdm.
  pose proof (Z.mod_pos_bound t 256 ltac:(lia)) as Hm.
  assert (Hq' : (t / 256) mod 256 = t / 256) by (apply Z.mod_small; lia).
  rewrite Hq'. lia.
Qed.

Lemma checksummed_bytes f : Forall is_byte f → Forall is_byte (checksummed f).
Proof.
  intros Hb. unfold checksummed, frame8.
  destruct (decide (class_nibble f = 15)).
  - apply Forall_insert; [|apply fold8_fold8_byte].
    rewrite (frame16_spec _ Hb). apply checksum16_bytes, Hb.
  - apply Forall_insert; [exact Hb | apply fold8_fold8_byte].
Qed.

(** The first statement of [Device.write]: the checksum goes into the
    caller's list exactly when the flag is set. *)
Lemma run_checksum_flag w l f (checksum : bool) :
  heap w !! l = Some f → (checksum = true → (8 ≤ length f)%nat) →
  (if checksum then setChecksum l;; mret tt else mret tt) w
  = (Ret tt, store l (if checksum then checksummed f else f) w).
Proof.
  intros H Hlen. destruct checksum.
  - rewrite (run_bind_ret _ _ _ _ _ (run_setChecksum _ _ _ H (Hlen eq_refl))).
    reflexivity.
  - rewrite (store_id _ _ _ H). reflexivity.
Qed.

(** C9, as stated, fails on both counts.  A register write with the
    checksum flag left at its default gets the native checksum: the 8-byte
    payload [0,0,0,0,0,0,0,1] goes out over USB as [0,0] followed by
    [1,0,0,0,0,0,0,1].  And a register write over the TCP handle goes out on
    the register socket with no pad at all. *)
Lemma write_modbus_checksummed_or_unpadded :
  Device.write (scripted posix [AInt 10]) ue9_usb 0%nat true true
    (World [[0; 0; 0; 0; 0; 0; 0; 1]] [])
  = (Ret tt,
     World [[1; 0; 0; 0; 0; 0; 0; 1]]
           [EvBulkWrite 5 1 [0; 0; 1; 0; 0; 0; 0; 0; 0; 1] 10 10]) ∧
  Device.write (scripted posix [AOk]) ue9_tcp 0%nat true false
    (World [[1; 2; 3]] [])
  = (Ret tt,
     World [[1; 2; 3]]
           [EvSend 1 modbus_sock [Byte.x01; Byte.x02; Byte.x03] None]).
Proof. split; vm_compute; reflexivity. Qed.

(** What the driver gets is the low eight bits of each item. *)
Lemma c_byte_low xs :
  map (λ b, Z.land b 0xff) (map c_byte xs) = map (λ b, Z.land b 0xff) xs.
Proof.
  rewrite map_map. apply map_ext. intros b. rewrite !land_255_mod.
  unfold c_byte. rewrite Zminus_mod_idemp_l. f_equal. lia.
Qed.

(** [struct.pack] refuses a list with an item that is not a byte. *)
Lemma struct_pack_B_not_bytes xs :
  ¬ Forall is_byte xs →
  struct_pack_B xs
  = Raise (struct_error "ubyte format requires 0 <= number <= 255").
Proof.
  induction xs as [|x xs IH]; intros Hn.
  - exfalso. apply Hn, Forall_nil_2.
  - cbn [struct_pack_B].
    destruct (decide (0 ≤ x)) as [Hx|Hx]; [|reflexivity].
    destruct (Byte.of_N (Z.to_N x)) as [b|] eqn:Hb; [|reflexivity].
    rewrite IH; [reflexivity|].
    intros Hxs. apply Hn, Forall_cons_2; [|exact Hxs].
    pose proof (Byte.to_of_N _ Hb) as Hto.
    pose proof (Byte.to_N_bounded b) as Hbd.
    unfold is_byte. lia.
Qed.

(** C9, amended.  [Device.write] on an open session puts the native
    checksum into the payload list exactly when its [checksum] flag is set
    (the default), whatever the [modbus] flag says; the register operations
    pass [checksum = False].  With the flag set, a payload of fewer than 8
    items makes [write] raise "Command does not contain enough bytes." with
    nothing changed and nothing sent.  In every other case the payload list
    holds the result of that step afterwards, and what is transmitted is
    that result, item by item in its low eight bits, prefixed with the two
    zero bytes when [modbus] is set and the handle is a USB handle; an empty
    transmission over USB raises with nothing sent.  Over the TCP handle a
    register write goes unpadded to the register socket and any other write
    to the data socket; a payload with an item outside 0..255 raises
    [struct.error] there with nothing sent. *)
Theorem write_checksum_and_pad d self h l f (modbus checksum : bool) w :
  Device.handle self = Some h →
  heap w !! l = Some f →
  let run := Device.write d self l modbus checksum w in
  let body := if checksum then checksummed f else f in
  let wire := match h with
              | USBHandle _ => if modbus then [0; 0] ++ body else body
              | UE9TCPHandle _ => body
              end in
  (checksum = true → (length f < 8)%nat →
   run = (Raise (LJE "Command does not contain enough bytes."), w)) ∧
  ((checksum = true → (8 ≤ length f)%nat) →
   heap run.2 = <[l := body]> (heap w) ∧
   match h with
   | USBHandle _ =>
       (wire = [] →
        ∃ e evs, run.1 = Raise e ∧ trace run.2 = evs ++ trace w ∧
                 count_events is_transmit evs = 0%nat) ∧
       (wire ≠ [] →
        ∃ ev evs, trace run.2 = ev :: evs ++ trace w ∧
                  count_events is_transmit evs = 0%nat ∧
                  wire_octets ev = Some (map (λ b, Z.land b 0xff) wire))
   | UE9TCPHandle conn =>
       (Forall is_byte body →
        ∃ s err, trace run.2
                 = EvSend conn (if modbus then modbus_sock else data_sock) s err
                   :: trace w ∧
                 map ord s = wire) ∧
       (¬ Forall is_byte body →
        run = (Raise (struct_error "ubyte format requires 0 <= number <= 255"),
               store l body w))
   end).
Proof.
  intros Hh H. cbv zeta. split.
  { intros -> Hlen. unfold Device.write. rewrite Hh.
    apply run_bind_raise, run_bind_raise.
    eapply run_setChecksum_short; eassumption. }
  intros Hlen.
  set (body := if checksum then checksummed f else f).
  unfold Device.write. rewrite Hh.
  rewrite (run_bind_ret _ _ _ _ _ (run_checksum_flag _ _ _ _ H Hlen)).
  fold body.
  pose proof (run_contents _ _ _ (heap_store_eq w l f body H)) as Hc.
  destruct h as [h|conn].
  - set (wire := if modbus then [0; 0] ++ body else body).
    destruct (os_name d) eqn:Hos.
    + rewrite (run_bind_ret _ _ _ _ _ Hc). fold wire.
      unfold mbind, M_bind, print, BulkWrite, raise, mret, M_ret.
      destruct (decide (length wire = 0%nat)) as [Hz|Hz].
      * destruct (Device.debug self); cbn [log trace heap fst snd];
          (split; [reflexivity|]);
          (split; [|intros Hne; destruct wire;
                    [contradiction | discriminate Hz]]);
          intros _;
          first [ eexists _, [_]; split; [reflexivity|]; split; reflexivity
                | eexists _, []; split; [reflexivity|]; split; reflexivity ].
      * destruct (Device.debug self); cbn [log trace heap fst snd];
          match goal with |- context [decide (?a ≠ ?b)] =>
            destruct (decide (a ≠ b)) end;
          cbn [log trace heap fst snd];
          (split; [reflexivity|]);
          (split; [intros E; rewrite E in Hz; contradiction|]);
          intros _;
          first [ eexists _, [_]; split; [reflexivity|]; split; [reflexivity|];
                  cbn [wire_octets]; rewrite c_byte_low; reflexivity
                | eexists _, []; split; [reflexivity|]; split; [reflexivity|];
                  cbn [wire_octets]; rewrite c_byte_low; reflexivity ].
    + rewrite (run_bind_ret _ _ _ _ _ Hc). fold wire.
      unfold eGetRaw. rewrite Hos.
      destruct (decide (length wire < 1)%nat) as [Hz|Hz].
      * unfold mbind, M_bind, raise. cbn [fst snd trace heap].
        split; [reflexivity|].
        split; [|intros Hne; destruct wire; [contradiction | cbn in Hz; lia]].
        intros _. eexists _, []. split; [reflexivity|].
        split; reflexivity.
      * unfold mbind, M_bind, UD_eGet, raise, mret, M_ret.
        cbn [fst snd log trace heap].
        match goal with |- context [decide (?a ≠ 0)] =>
          destruct (decide (a ≠ 0)) end;
          cbn [fst snd log trace heap];
          (split; [reflexivity|]);
          (split; [intros E; rewrite E in Hz; cbn in Hz; lia|]);
          intros _; eexists _, [];
          (split; [reflexivity|]); (split; [reflexivity|]);
          cbn [wire_octets]; rewrite decide_True by reflexivity;
          rewrite c_byte_low; reflexivity.
  - rewrite (run_bind_ret _ _ _ _ _ Hc).
    split.
    { unfold lift, mbind, M_bind, send.
      destruct (struct_pack_B body) as [s|e]; [|reflexivity].
      destruct modbus; reflexivity. }
    split.
    + intros Hb. destruct (struct_pack_B_bytes _ Hb) as (s & Hs & Hord).
      rewrite (run_bind_ret _ _ _ s (store l body w))
        by (unfold lift; rewrite Hs; reflexivity).
      destruct modbus; unfold send; cbn [snd trace log store set_heap];
        eexists _, _; (split; [reflexivity | exact Hord]).
    + intros Hb.
      apply run_bind_raise. unfold lift.
      rewrite (struct_pack_B_not_bytes _ Hb). reflexivity.
Qed.

Lemma write_checksum_and_pad_witness :
  Device.write (scripted posix [AInt 10]) ue9_usb 0%nat true true
    (World [[1; 2; 3]] [])
  = (Raise (LJE "Command does not contain enough bytes."),
     World [[1; 2; 3]] []) ∧
  ∃ ev evs,
    trace (Device.write (scripted posix [AInt 10]) ue9_usb 0%nat true true
             (World [[0; 0; 0; 0; 0; 0; 0; 1]] [])).2
    = ev :: evs ++ [] ∧
    count_events is_transmit evs = 0%nat ∧
    wire_octets ev = Some [0; 0; 1; 0; 0; 0; 0; 0; 0; 1].
Proof.
  split.
  - apply (proj1 (write_checksum_and_pad (scripted posix [AInt 10]) ue9_usb
                    (USBHandle 5) 0%nat [1; 2; 3] true true
                    (World [[1; 2; 3]] []) eq_refl eq_refl)).
    + reflexivity.
    + simpl. lia.
  - destruct (proj2 (write_checksum_and_pad (scripted posix [AInt 10]) ue9_usb
                       (USBHandle 5) 0%nat [0; 0; 0; 0; 0; 0; 0; 1] true true
                       (World [[0; 0; 0; 0; 0; 0; 0; 1]] []) eq_refl eq_refl))
      as (_ & _ & Hsent).
    + intros _. simpl. lia.
    + apply Hsent. intros E. discriminate E.
Defined.

(** ** Discovery: computations that do not touch the world *)

Lemma stateless_ret {A} (a : A) : stateless (mret a).
Proof. intros w. reflexivity. Qed.

Lemma stateless_raise {A} e : stateless (raise e : M A).
Proof. intros w. reflexivity. Qed.

Lemma stateless_lift {A} (o : outcome A) : stateless (lift o).
Proof. intros w. reflexivity. Qed.

Lemma stateless_item xs i : stateless (item xs i).
Proof. intros w. unfold item. destruct (xs !! i); reflexivity. Qed.

Lemma stateless_c_item xs i : stateless (c_item xs i).
Proof. intros w. unfold c_item. destruct (xs !! i); reflexivity. Qed.

Lemma result_of_bind {A B} (m : M A) (k : A → M B) :
  stateless m →
  result_of (m ≫= k)
  = match result_of m with Ret a => result_of (k a) | Raise e => Raise e end.
Proof.
  intros Hm. unfold result_of at 1. rewrite run_bind, (Hm (World [] [])).
  destruct (result_of m); reflexivity.
Qed.

Lemma stateless_bind {A B} (m : M A) (k : A → M B) :
  stateless m → (∀ a, stateless (k a)) → stateless (m ≫= k).
Proof.
  intros Hm Hk w. rewrite (result_of_bind _ _ Hm), run_bind, (Hm w).
  destruct (result_of m) as [a|e]; [apply Hk | reflexivity].
Qed.

Lemma stateless_for {S} (xs : list nat) (body : nat → S → M S) :
  (∀ i acc, stateless (body i acc)) → ∀ acc, stateless (for_ xs body acc).
Proof.
  intros Hb. induction xs as [|i xs IH]; intros acc; simpl.
  - apply stateless_ret.
  - apply stateless_bind; [apply Hb | apply IH].
Qed.

Ltac stateless_auto :=
  repeat first
    [ apply stateless_ret | apply stateless_raise | apply stateless_lift
    | apply stateless_item | apply stateless_c_item
    | apply stateless_for; intros ? ?
    | apply stateless_bind; [|intros ?] ].

Lemma stateless_bulk_result buf n : stateless (bulk_result buf n).
Proof. unfold bulk_result. stateless_auto. Qed.



(** ** Discovery: reading the trace piecewise *)


Lemma opened_app evs1 evs2 : opened (evs1 ++ evs2) = opened evs1 ++ opened evs2.
Proof. apply omap_app. Qed.

Lemma closed_app evs1 evs2 : closed (evs1 ++ evs2) = closed evs1 ++ closed evs2.
Proof. apply omap_app. Qed.



Lemma cons_ext {A} (e : A) rest evs t :
  rest = evs ++ t → e :: rest = (e :: evs) ++ t.
Proof. intros ->. reflexivity. Qed.

Lemma nil_ext {A} (t : list A) : t = [] ++ t.
Proof. reflexivity. Qed.

(** ** Discovery: a USB session on Unix *)

Section UnixUSB.
Context (d : driver) (Hos : os_name d = posix).

Lemma run_write_probe h ty l f w :
  heap w !! l = Some f → (8 ≤ length f)%nat →
  Device.write d (Device.new (USBHandle h) ty) l false true w
  = ((if decide (LJUSB_BulkWrite d (trace w) h 1 (map c_byte (checksummed f))
                   (length (checksummed f))
                 ≠ Z.of_nat (length (checksummed f)))
      then Raise (LJE ("Could only write " ++
                       str_int (LJUSB_BulkWrite d (trace w) h 1
                                  (map c_byte (checksummed f))
                                  (length (checksummed f))) ++
                       " of " ++ str_int (Z.of_nat (length (checksummed f))) ++
                       " bytes"))
      else Ret tt),
     log (EvBulkWrite h 1 (map c_byte (checksummed f)) (length (checksummed f))
            (LJUSB_BulkWrite d (trace w) h 1 (map c_byte (checksummed f))
               (length (checksummed f))))
         (store l (checksummed f) w)).
Proof.
  intros H Hlen. unfold Device.write. cbn [Device.handle Device.new Device.debug].
  rewrite (run_bind_ret _ _ _ _ _ (run_checksum_flag _ _ _ true H (λ _, Hlen))).
  rewrite Hos.
  rewrite (run_bind_ret _ _ _ _ _
             (run_contents _ _ _ (heap_store_eq w l f (checksummed f) H))).
  unfold mbind, M_bind, BulkWrite, raise, mret, M_ret.
  destruct (decide (length (checksummed f) = 0%nat)) as [E|_].
  { rewrite length_checksummed in E. lia. }
  cbn [trace store set_heap].
  destruct (decide _); reflexivity.
Qed.

Lemma run_read_usb h ty n w :
  Device.read d (Device.new (USBHandle h) ty) n false false w
  = (result_of (bulk_result
                  (map c_byte (resize n 0 (LJUSB_BulkRead d (trace w) h 2 n).1))
                  (LJUSB_BulkRead d (trace w) h 2 n).2),
     log (EvBulkRead h 2 n
            (map c_byte (resize n 0 (LJUSB_BulkRead d (trace w) h 2 n).1))
            (LJUSB_BulkRead d (trace w) h 2 n).2) w).
Proof.
  unfold Device.read. cbn [Device.handle Device.new]. rewrite Hos.
  rewrite run_bind. unfold BulkRead. cbn [fst snd].
  apply stateless_bulk_result.
Qed.



End UnixUSB.

(** ** Discovery: one candidate *)

Section Candidates.
Context (d : driver) (Hos : os_name d = posix).






End Candidates.

(** ** Discovery: the enumeration loops *)

Section Enumeration.
Context (d : driver) (Hos : os_name d = posix).



End Enumeration.


(** The same loop with a response that is too short to parse: the
    [struct.error] leaves the loop with the session still open. *)
Lemma listAllU3_short_response_leaves_session_open :
  ∃ w', __listAllU3Unix
          (scripted posix [AInt 1; AInt 11; AInt 26; ABuf [1; 2; 3] 3])
          (World [] [])
        = (Raise (struct_error "pack requires exactly 4 arguments"), w') ∧
        opened (trace w') = [11] ∧ closed (trace w') = [].
Proof. eexists. split; [vm_compute; reflexivity|]. split; reflexivity. Qed.



(** The scenario of the design document: a device count of 3 where the
    second candidate fails.  The two others are returned, under their serial
    numbers, and all three sessions are closed. *)
Lemma listAllUE9_second_of_three_fails :
  ∃ devs w',
    __listAllUE9Unix_USB three_ue9_second_fails (World [] []) = (Ret devs, w') ∧
    devs = <[0x10040506 := DevInfo LJ_dtUE9 7 0x10040506 (Some "192.168.1.209")]>
             (<[0x10010203 := DevInfo LJ_dtUE9 7 0x10010203 (Some "192.168.1.209")]> ∅) ∧
    opened (trace w') = [13; 0; 11] ∧ closed (trace w') = [13; 0; 11].
Proof.
  eexists _, _. split; [vm_compute; reflexivity|].
  split; [vm_compute; reflexivity|]. split; reflexivity.
Qed.

(** ** More on the checksum engine *)

Lemma for_app {S} (xs ys : list nat) (body : nat → S → M S) : ∀ acc w,
  for_ (xs ++ ys) body acc w = (acc' ← for_ xs body acc; for_ ys body acc') w.
Proof.
  induction xs as [|i xs IH]; intros acc w; simpl.
  - reflexivity.
  - rewrite !run_bind. destruct (body i acc w) as [[acc1|e] w1]; [|reflexivity].
    rewrite IH, run_bind. reflexivity.
Qed.

(** The end-around-carry sum of a 16-bit total: a byte, congruent to the
    total modulo 255, and zero for a zero total only. *)
Lemma fold8_fold8_carry s :
  0 ≤ s < 65536 →
  0 ≤ fold8 (fold8 s) ≤ 255 ∧
  fold8 (fold8 s) mod 255 = s mod 255 ∧
  (fold8 (fold8 s) = 0 ↔ s = 0).
Proof.
  intros Hs.
  assert (Hf : ∀ t, 0 ≤ t < 65536 → fold8 t = t mod 256 + t / 256).
  { intros t Ht. unfold fold8.
    rewrite !land_255_mod, Z.shiftr_div_pow2 by lia. change (2 ^ 8) with 256.
    f_equal. apply Z.mod_small.
    split; [apply Z.div_pos; lia | apply Z.div_lt_upper_bound; lia]. }
  pose proof (Z.div_mod s 256 ltac:(lia)) as Hs1.
  pose proof (Z.mod_pos_bound s 256 ltac:(lia)) as Hs2.
  assert (Hq : 0 ≤ s / 256 < 256).
  { split; [apply Z.div_pos; lia | apply Z.div_lt_upper_bound; lia]. }
  set (t := fold8 s).
  assert (Ht : t = s mod 256 + s / 256) by (apply Hf, Hs).
  assert (Htr : 0 ≤ t < 65536) by lia.
  pose proof (Z.div_mod t 256 ltac:(lia)) as Ht1.
  pose proof (Z.mod_pos_bound t 256 ltac:(lia)) as Ht2.
  assert (Htq : t / 256 = 0 ∨ t / 256 = 1).
  { assert (0 ≤ t / 256 < 2); [|lia].
    split; [apply Z.div_pos; lia | apply Z.div_lt_upper_bound; lia]. }
  rewrite (Hf t Htr).
  split; [lia|]. split.
  - replace (t mod 256 + t / 256) with (s + (- (s / 256) - t / 256) * 255) by lia.
    apply Z_mod_plus_full.
  - lia.
Qed.

(** X1: after [setChecksum8(buffer, numBytes)] on bytes whose sum stays
    below 65536, [buffer[0]] is a byte that is congruent to the sum of
    [buffer[1..numBytes)] modulo 255, and it is 0 only when that sum is 0. *)
Theorem setChecksum8_end_around_carry w l f numBytes :
  heap w !! l = Some f → Forall is_byte f →
  (1 ≤ length f)%nat → (numBytes ≤ length f)%nat → (numBytes ≤ 258)%nat →
  let sum := Spec.byte_sum (take (numBytes - 1) (drop 1 f)) in
  ∃ c, setChecksum8 l numBytes w = (Ret l, store l (<[0%nat := c]> f) w) ∧
       0 ≤ c ≤ 255 ∧ c mod 255 = sum mod 255 ∧ (c = 0 ↔ sum = 0).
Proof.
  intros H Hb Hlen Hn Hmax sum.
  exists (fold8 (fold8 sum)). split.
  - rewrite (run_setChecksum8 _ _ _ _ H Hlen Hn). unfold frame8.
    rewrite total_from_byte_sum by (apply Forall_take, Forall_drop, Hb).
    reflexivity.
  - apply fold8_fold8_carry.
    assert (Hb' : Forall is_byte (take (numBytes - 1) (drop 1 f))).
    { apply Forall_take, Forall_drop, Hb. }
    pose proof (byte_sum_bound _ Hb') as Hs. rewrite length_take in Hs.
    subst sum. lia.
Qed.

Lemma setChecksum8_end_around_carry_witness :
  ∃ c, setChecksum8 0%nat 8 (World [[0; 255; 255; 3; 0; 0; 0; 0]] [])
       = (Ret 0%nat,
          store 0%nat (<[0%nat := c]> [0; 255; 255; 3; 0; 0; 0; 0])
            (World [[0; 255; 255; 3; 0; 0; 0; 0]] [])) ∧
       0 ≤ c ≤ 255 ∧ c mod 255 = 513 mod 255 ∧ (c = 0 ↔ 513 = 0).
Proof.
  apply (setChecksum8_end_around_carry
           (World [[0; 255; 255; 3; 0; 0; 0; 0]] []) 0%nat
           [0; 255; 255; 3; 0; 0; 0; 0] 8 eq_refl).
  - repeat constructor; unfold is_byte; lia.
  - simpl. lia.
  - simpl. lia.
  - lia.
Defined.

(** X2: after [setChecksum16(buffer)] on bytes, items 4 and 5 are the low
    and the high byte of the sum of [buffer[6..len)]: both are bytes, and
    [buffer[4] + 256 * buffer[5]] is that sum modulo 65536. *)
Theorem setChecksum16_little_endian w l f :
  heap w !! l = Some f → Forall is_byte f → (6 ≤ length f)%nat →
  let sum := Spec.byte_sum (drop 6 f) in
  ∃ lo hi,
    setChecksum16 l w
    = (Ret l, store l (<[5%nat := hi]> (<[4%nat := lo]> f)) w) ∧
    is_byte lo ∧ is_byte hi ∧ lo + 256 * hi = sum mod 65536.
Proof.
  intros H Hb Hlen sum.
  exists (Z.land sum 0xff), (Z.land (Z.shiftr sum 8) 0xff).
  split.
  - rewrite (run_setChecksum16 _ _ _ H Hlen). unfold frame16.
    rewrite total_from_byte_sum by (apply Forall_drop, Hb). reflexivity.
  - split; [apply land_255_is_byte|]. split; [apply land_255_is_byte|].
    rewrite !land_255_mod, Z.shiftr_div_pow2 by lia. change (2 ^ 8) with 256.
    change 65536 with (256 * 256). rewrite Z.rem_mul_r by lia. lia.
Qed.

Lemma setChecksum16_little_endian_witness :
  ∃ lo hi,
    setChecksum16 0%nat (World [[0; 0; 0; 0; 0; 0; 255; 255]] [])
    = (Ret 0%nat,
       store 0%nat (<[5%nat := hi]> (<[4%nat := lo]> [0; 0; 0; 0; 0; 0; 255; 255]))
         (World [[0; 0; 0; 0; 0; 0; 255; 255]] [])) ∧
    is_byte lo ∧ is_byte hi ∧ lo + 256 * hi = 510 mod 65536.
Proof.
  apply (setChecksum16_little_endian
           (World [[0; 0; 0; 0; 0; 0; 255; 255]] []) 0%nat
           [0; 0; 0; 0; 0; 0; 255; 255] eq_refl).
  - repeat constructor; unfold is_byte; lia.
  - simpl. lia.
Defined.

(** X3: [setChecksum] takes a frame of bytes to a frame of bytes, so the
    checksummed frame can always be packed for a socket. *)
Theorem setChecksum_keeps_bytes w l f :
  heap w !! l = Some f → Forall is_byte f → (8 ≤ length f)%nat →
  ∃ g s, setChecksum l w = (Ret l, store l g w) ∧
         Forall is_byte g ∧
         struct_pack_B g = Ret s ∧ map ord s = g.
Proof.
  intros H Hb Hlen.
  pose proof (checksummed_bytes _ Hb) as Hg.
  destruct (struct_pack_B_bytes _ Hg) as (s & Hs & Hord).
  exists (checksummed f), s.
  split; [apply run_setChecksum; assumption|]. auto.
Qed.

Lemma setChecksum_keeps_bytes_witness :
  ∃ g s, setChecksum 0%nat (World [[0; 1; 255; 255; 255; 255; 255; 255]] [])
         = (Ret 0%nat, store 0%nat g (World [[0; 1; 255; 255; 255; 255; 255; 255]] [])) ∧
         Forall is_byte g ∧ struct_pack_B g = Ret s ∧ map ord s = g.
Proof.
  apply (setChecksum_keeps_bytes
           (World [[0; 1; 255; 255; 255; 255; 255; 255]] []) 0%nat
           [0; 1; 255; 255; 255; 255; 255; 255] eq_refl).
  - repeat constructor; unfold is_byte; lia.
  - simpl. lia.
Defined.

(** X4: [setChecksum8(buffer, numBytes)] with [numBytes] beyond the end of
    a non-empty list raises [IndexError] in its summing loop and leaves the
    list as it was. *)
Theorem setChecksum8_count_out_of_range w l f numBytes :
  heap w !! l = Some f → (1 ≤ length f)%nat → (length f < numBytes)%nat →
  setChecksum8 l numBytes w
  = (Raise (IndexError "list index out of range"), w).
Proof.
  intros H Hlen Hn. unfold setChecksum8, range.
  apply run_bind_raise.
  replace (numBytes - 1)%nat
    with ((length f - 1) + (numBytes - length f))%nat by lia.
  rewrite seq_app, for_app.
  erewrite run_bind_ret; [|apply run_sum_loop; [exact H | lia]].
  replace (1 + (length f - 1))%nat with (length f) by lia.
  destruct (numBytes - length f)%nat as [|k] eqn:Hk; [lia|].
  cbn [seq for_].
  apply run_bind_raise, run_bind_raise.
  eapply run_getitem_out; [exact H | lia].
Qed.

Lemma setChecksum8_count_out_of_range_witness :
  setChecksum8 0%nat 6 (World [[1; 2; 3]] [])
  = (Raise (IndexError "list index out of range"), World [[1; 2; 3]] []).
Proof.
  apply (setChecksum8_count_out_of_range (World [[1; 2; 3]] []) 0%nat [1; 2; 3] 6
           eq_refl); simpl; lia.
Defined.

(** ** More on device sessions *)

Lemma bulk_loop_ok buf k : ∀ a acc w,
  (a + k ≤ length buf)%nat →
  for_ (seq a k) (λ i acc, b ← c_item buf i; mret (acc ++ [Z.land b 0xff])) acc w
  = (Ret (acc ++ map (λ b, Z.land b 0xff) (take k (drop a buf))), w).
Proof.
  induction k as [|k IH]; intros a acc w Hk; cbn [seq for_].
  - rewrite app_nil_r. reflexivity.
  - destruct (lookup_lt_is_Some_2 buf a) as [x Hx]; [lia|].
    rewrite (run_bind_ret _ _ w (acc ++ [Z.land x 0xff]) w).
    2:{ unfold c_item. rewrite Hx. reflexivity. }
    rewrite IH by lia. rewrite (drop_S _ _ _ Hx). cbn [take map].
    rewrite <- app_assoc. reflexivity.
Qed.

(** What [Device.read] makes of the array after a bulk read: the first
    [readBytes] items as bytes, or an [IndexError] when the driver reports
    more than the array holds. *)
Lemma run_bulk_result buf n w :
  bulk_result buf n w
  = (if decide (Z.to_nat n ≤ length buf)%nat
     then Ret (map (λ b, Z.land b 0xff) (take (Z.to_nat n) buf))
     else Raise (IndexError "invalid index"), w).
Proof.
  unfold bulk_result, range. rewrite Nat.sub_0_r.
  destruct (decide (Z.to_nat n ≤ length buf)%nat) as [Hn|Hn].
  - rewrite bulk_loop_ok by lia. reflexivity.
  - replace (Z.to_nat n) with (length buf + (Z.to_nat n - length buf))%nat by lia.
    rewrite seq_app, for_app.
    rewrite (run_bind_ret _ _ _ _ _ (bulk_loop_ok buf (length buf) 0 [] w ltac:(lia))).
    destruct (Z.to_nat n - length buf)%nat as [|k] eqn:Hk; [lia|].
    cbn [seq for_ Nat.add]. apply run_bind_raise, run_bind_raise.
    unfold c_item. rewrite (lookup_ge_None_2 buf (length buf)) by lia.
    reflexivity.
Qed.

Lemma ord_is_byte b : is_byte (ord b).
Proof.
  unfold is_byte, ord. pose proof (Byte.to_N_bounded b). lia.
Qed.

Lemma land_map_bytes xs : Forall is_byte (map (λ b, Z.land b 0xff) xs).
Proof. apply Forall_map, Forall_forall. intros x _. apply land_255_is_byte. Qed.

Lemma recv_returns d conn ch n w s w' :
  recv d conn ch n w = (Ret s, w') → (length s ≤ n)%nat.
Proof.
  unfold recv. destruct (sock_recv d (trace w) conn ch n) as [msg|s0]; cbn.
  - intros Hr. discriminate Hr.
  - intros [= <- _]. rewrite length_take. lia.
Qed.

(** The items of a returned read: each a byte, at most [numBytes] of
    them. *)
Lemma read_bytes_bound d self numBytes stream modbus w rcv w' :
  Device.read d self numBytes stream modbus w = (Ret rcv, w') →
  Forall is_byte rcv ∧ (length rcv ≤ numBytes)%nat.
Proof.
  unfold Device.read.
  destruct (Device.handle self) as [[h|conn]|].
  - destruct (os_name d) eqn:Hos.
    + rewrite run_bind. unfold BulkRead. cbn [fst snd].
      rewrite run_bulk_result.
      destruct (decide _) as [Hn|Hn]; [|intros Hr; discriminate Hr].
      intros [= <- _]. split; [apply land_map_bytes|].
      rewrite length_map, length_take.
      rewrite length_map, length_resize in Hn. lia.
    + unfold eGetRaw, raise. rewrite Hos.
      destruct (decide (_ < 1)%nat);
        [cbv beta; intros Hr; discriminate Hr|].
      rewrite run_bind. unfold UD_eGet. cbn [fst snd].
      destruct (decide _); [cbv beta; intros Hr; discriminate Hr|].
      intros [= <- _]. split; [apply land_map_bytes|].
      repeat first [rewrite length_map | rewrite length_resize
                   | rewrite length_replicate].
      lia.
  - rewrite run_bind.
    assert (Hall : ∀ (m : M (list Byte.byte)) s w1,
              (∀ s w1, m w = (Ret s, w1) → (length s ≤ numBytes)%nat) →
              m w = (Ret s, w1) →
              Forall is_byte (map ord s) ∧ (length (map ord s) ≤ numBytes)%nat).
    { intros m s w1 Hm Hr. split.
      - apply Forall_map, Forall_forall. intros b _. apply ord_is_byte.
      - rewrite length_map. eapply Hm, Hr. }
    destruct stream; [|destruct modbus].
    + destruct (recv d conn stream_sock numBytes w) as [[s|e] w1] eqn:Hr;
        [|intros Hx; discriminate Hx].
      intros [= <- _]. eapply Hall; [|exact Hr].
      intros s' w2 Hs. eapply recv_returns, Hs.
    + unfold try_except at 1.
      destruct (recv d conn modbus_sock numBytes w) as [[s|e] w1] eqn:Hr.
      * intros [= <- _]. eapply Hall; [|exact Hr].
        intros s' w2 Hs. eapply recv_returns, Hs.
      * destruct e; try (intros Hx; discriminate Hx).
        unfold try_except, mbind, M_bind, socket_, connect, settimeout, print, raise.
        destruct (Device.debug self); cbn;
          repeat match goal with
                 | |- context [sock_status ?r] => destruct r; cbn
                 end; intros Hx; discriminate Hx.
    + destruct (recv d conn data_sock numBytes w) as [[s|e] w1] eqn:Hr;
        [|intros Hx; discriminate Hx].
      intros [= <- _]. eapply Hall; [|exact Hr].
      intros s' w2 Hs. eapply recv_returns, Hs.
  - unfold raise. cbv beta. intros Hr. discriminate Hr.
Qed.

(** X5: whatever the transport and the operating system, a [Device.read]
    that returns gives at most [numBytes] items, each of them a byte. *)
Theorem read_returns_bytes d self numBytes stream modbus w rcv w' :
  Device.read d self numBytes stream modbus w = (Ret rcv, w') →
  Forall is_byte rcv ∧ (length rcv ≤ numBytes)%nat.
Proof. apply read_bytes_bound. Qed.

Lemma read_returns_bytes_witness :
  Forall is_byte [1; 2; 3] ∧ (length [1; 2; 3] ≤ 3)%nat.
Proof.
  apply (read_returns_bytes
           (scripted posix [ABytes [Byte.x01; Byte.x02; Byte.x03; Byte.x04]])
           ue9_tcp 3 false false (World [] []) [1; 2; 3]
           (World [] [EvRecv 1 data_sock 3 (inr [Byte.x01; Byte.x02; Byte.x03])])).
  reflexivity.
Defined.

(** X6: after [Device.close] the session is closed for good: [write],
    [read] and [_modbusWriteRead] raise "The device handle is None." and
    nothing reaches the transport. *)
Theorem closed_session_fails_fast d self w self' w' :
  Device.close d self w = (Ret self', w') →
  Device.handle self' = None ∧
  ∀ w1 l n modbus checksum stream,
    Device.write d self' l modbus checksum w1
    = (Raise (LJE "The device handle is None."), w1) ∧
    Device.read d self' n stream modbus w1
    = (Raise (LJE "The device handle is None."), w1) ∧
    Device._modbusWriteRead d self' l n w1
    = (Raise (LJE "The device handle is None."), w1).
Proof.
  unfold Device.close. rewrite run_bind.
  match goal with |- context [match ?m w with _ => _ end] =>
    destruct (m w) as [[[]|e] w0] end; [|intros Hr; discriminate Hr].
  intros [= <- _]. split; [reflexivity|].
  intros w1 l n modbus checksum stream.
  unfold Device._modbusWriteRead, Device.write, Device.read. cbn.
  repeat split; reflexivity.
Qed.

Lemma closed_session_fails_fast_witness :
  Device.handle (Device.Make None None None "" (Some 9) false) = None ∧
  ∀ w1 l n modbus checksum stream,
    Device.write (scripted posix []) (Device.Make None None None "" (Some 9) false)
      l modbus checksum w1
    = (Raise (LJE "The device handle is None."), w1) ∧
    Device.read (scripted posix []) (Device.Make None None None "" (Some 9) false)
      n stream modbus w1
    = (Raise (LJE "The device handle is None."), w1) ∧
    Device._modbusWriteRead (scripted posix [])
      (Device.Make None None None "" (Some 9) false) l n w1
    = (Raise (LJE "The device handle is None."), w1).
Proof.
  exact (closed_session_fails_fast (scripted posix []) ue9_usb (World [] [])
           (Device.Make None None None "" (Some 9) false)
           (World [] [EvCloseDevice 5]) eq_refl).
Defined.

(** X7: [UE9TCPHandle.close] never raises.  It closes the data, the stream
    and the register socket in that order, each close seeing the ones before
    it, and stops at the first one that fails: the error is printed as "UE9
    Handle close exception:  ..." and the sockets after it are not closed.
    When the three closes succeed nothing is printed.  The trace is exactly
    these calls. *)
Theorem UE9TCPHandle_close_stops_at_failure d conn w :
  let r1 := sock_close d (trace w) conn data_sock in
  let w1 := log (EvSockClose conn data_sock r1) w in
  let r2 := sock_close d (trace w1) conn stream_sock in
  let w2 := log (EvSockClose conn stream_sock r2) w1 in
  let r3 := sock_close d (trace w2) conn modbus_sock in
  let w3 := log (EvSockClose conn modbus_sock r3) w2 in
  let report msg := log (EvPrint ("UE9 Handle close exception:  " ++ msg)) in
  Device.UE9TCPHandle_close d conn w
  = (Ret tt,
     match r1, r2, r3 with
     | Some msg, _, _ => report msg w1
     | None, Some msg, _ => report msg w2
     | None, None, Some msg => report msg w3
     | None, None, None => w3
     end).
Proof.
  cbv zeta.
  unfold Device.UE9TCPHandle_close, try_except, mbind, M_bind, close_socket,
    print, sock_status.
  cbn [trace log fst snd].
  destruct (sock_close d (trace w) conn data_sock); cbn [trace log fst snd];
    [reflexivity|].
  destruct (sock_close d _ conn stream_sock); cbn [trace log fst snd];
    [reflexivity|].
  destruct (sock_close d _ conn modbus_sock); reflexivity.
Qed.

Lemma UE9TCPHandle_close_stops_at_failure_witness :
  Device.UE9TCPHandle_close (scripted posix [AOk; AErr "bad descriptor"]) 1
    (World [] [])
  = (Ret tt,
     World [] [EvPrint "UE9 Handle close exception:  bad descriptor";
               EvSockClose 1 stream_sock (Some "bad descriptor");
               EvSockClose 1 data_sock None]).
Proof.
  exact (UE9TCPHandle_close_stops_at_failure
           (scripted posix [AOk; AErr "bad descriptor"]) 1 (World [] [])).
Defined.

(** ** reset, ping and _writeRead *)

Lemma heap_alloc_eq w (xs : list Z) :
  heap (set_heap (heap w ++ [xs]) w) !! length (heap w) = Some xs.
Proof.
  simpl. rewrite lookup_app_r by lia. rewrite Nat.sub_diag. reflexivity.
Qed.

Lemma store_alloc w (xs ys : list Z) :
  store (length (heap w)) ys (set_heap (heap w ++ [xs]) w)
  = set_heap (heap w ++ [ys]) w.
Proof.
  unfold store, set_heap. cbn [heap trace]. f_equal.
  rewrite insert_app_r_alt by lia. rewrite Nat.sub_diag. reflexivity.
Qed.

(** X8: on Unix, [Device.reset] never resets anything.  [Device.write] is
    called with its default [checksum = True] on the 4-byte reset packet, so
    [setChecksum] (or the handle test) raises before anything is sent, and
    [reset] raises "Unable to reset labjack: ..." whatever the driver would
    have answered; the trace is as before. *)
Theorem reset_posix_always_raises d self w :
  ∃ msg,
    reset_posix d self w
    = (Raise (LJE0 ("Unable to reset labjack: " ++ msg)),
       set_heap (heap w ++ [[0x9B; 0x99; 0x02; 0]]) w) ∧
    (msg = "Command does not contain enough bytes."%string ∨
     msg = "The device handle is None."%string).
Proof.
  unfold reset_posix.
  set (l := length (heap w)).
  set (w1 := set_heap (heap w ++ [replicate 4 0]) w).
  pose proof (heap_alloc_eq w (replicate 4 0)) as H1. fold w1 l in H1.
  rewrite (run_bind_ret _ _ w l w1) by reflexivity.
  erewrite run_bind_ret; [|eapply run_setitem; [exact H1 | simpl; lia]].
  erewrite run_bind_ret;
    [|eapply run_setitem; [eapply heap_store_eq, H1 | simpl; lia]].
  rewrite store_store.
  erewrite run_bind_ret;
    [|eapply run_setitem; [eapply heap_store_eq, H1 | simpl; lia]].
  rewrite store_store. unfold w1, l. rewrite store_alloc.
  cbn [replicate insert list_insert].
  set (w2 := set_heap _ w).
  assert (H2 : heap w2 !! length (heap w) = Some [0x9B; 0x99; 0x02; 0])
    by apply heap_alloc_eq.
  unfold Device.write. destruct (Device.handle self) as [h|].
  - exists "Command does not contain enough bytes."%string.
    split; [|left; reflexivity].
    erewrite run_try_raise.
    2:{ apply run_bind_raise, run_bind_raise, run_bind_raise.
        eapply run_setChecksum_short; [exact H2 | simpl; lia]. }
    reflexivity.
  - exists "The device handle is None."%string.
    split; [|right; reflexivity].
    erewrite run_try_raise; [|apply run_bind_raise; reflexivity].
    reflexivity.
Qed.

(** X9: on Unix over USB, the U3 [ping] answers [True] exactly when the
    driver took all 8 bytes of the probe and reports no more than the 40
    bytes asked for; the response itself is not looked at, so a device that
    answers nothing still pings. *)
Theorem ping_U3_checks_the_write_only d h w :
  os_name d = posix →
  let probe := [0x24; -8; 0x01; 0x2a; 0; 0; 0; 0] in
  let written := LJUSB_BulkWrite d (trace w) h 1 probe 8 in
  let reported :=
    (LJUSB_BulkRead d (EvBulkWrite h 1 probe 8 written :: trace w) h 2 40).2 in
  ∃ w', Device.ping d (Device.new (USBHandle h) LJ_dtU3) w
        = (Ret (bool_decide (written = 8 ∧ (Z.to_nat reported ≤ 40)%nat)), w').
Proof.
  intros Hos probe written reported. unfold Device.ping.
  cbn [Device.devType Device.new].
  destruct (decide (Some LJ_dtU3 = Some LJ_dtUE9)) as [E|_]; [discriminate E|].
  destruct (decide (Some LJ_dtU3 = Some LJ_dtU3)) as [_|N]; [|congruence].
  set (f := [0; 0xf8; 0x01; 0x2a; 0; 0; 0; 0]).
  set (l := length (heap w)).
  set (w1 := set_heap (heap w ++ [f]) w).
  pose proof (heap_alloc_eq w f) as H1. fold w1 l in H1.
  assert (Hck : checksummed f = [0x24; 0xf8; 0x01; 0x2a; 0; 0; 0; 0])
    by reflexivity.
  assert (Hck2 : checksummed [0x24; 0xf8; 0x01; 0x2a; 0; 0; 0; 0]
                 = [0x24; 0xf8; 0x01; 0x2a; 0; 0; 0; 0]) by reflexivity.
  unfold try_except.
  rewrite (run_bind_ret _ _ w l w1) by reflexivity.
  rewrite (run_bind_ret _ _ _ _ _ (run_setChecksum _ _ _ H1 ltac:(simpl; lia))).
  rewrite Hck. pose proof (heap_store_eq _ _ _ [0x24; 0xf8; 0x01; 0x2a; 0; 0; 0; 0] H1) as H2.
  rewrite run_bind, (run_write_probe d Hos _ _ _ _ _ H2 ltac:(simpl; lia)).
  rewrite Hck2, store_store.
  change (map c_byte [0x24; 0xf8; 0x01; 0x2a; 0; 0; 0; 0]) with probe.
  cbn [length trace store set_heap w1].
  fold written.
  destruct (decide (written ≠ _)) as [Hw|Hw].
  { eexists. rewrite bool_decide_eq_false_2 by (intros [Hx _]; apply Hw; lia).
    reflexivity. }
  rewrite run_bind, (run_read_usb d Hos).
  cbn [trace log].
  change (trace (store l [0x24; 0xf8; 0x01; 0x2a; 0; 0; 0; 0] w1)) with (trace w).
  fold reported.
  unfold result_of. rewrite run_bulk_result. cbn [fst].
  rewrite length_map, length_resize.
  destruct (decide (Z.to_nat reported ≤ 40)%nat) as [Hr|Hr].
  - eexists. rewrite bool_decide_eq_true_2 by (split; [lia | exact Hr]).
    reflexivity.
  - eexists. rewrite bool_decide_eq_false_2 by tauto. reflexivity.
Qed.

Lemma ping_U3_checks_the_write_only_witness :
  ∃ w', Device.ping (scripted posix [AInt 8; ABuf [] 0]) u3_usb (World [] [])
        = (Ret true, w').
Proof.
  exact (ping_U3_checks_the_write_only (scripted posix [AInt 8; ABuf [] 0]) 5
           (World [] []) eq_refl).
Defined.

(** ** _writeRead: what a validated response is *)

(** A response that [_checkCommandBytes] lets pass has at least 8 items,
    does not start with the sentinel pair, echoes the command bytes, carries
    the checksums [setChecksum] computes for it and has 0 at offset 6; the
    list is as before. *)
Lemma checkCommandBytes_returns w l f cb w' :
  heap w !! l = Some f →
  _checkCommandBytes l cb w = (Ret tt, w') →
  w' = w ∧ (8 ≤ length f)%nat ∧
  ¬ (f !! 0%nat = Some 0xB8 ∧ f !! 1%nat = Some 0xB8) ∧
  slice f 1 (length cb + 1) = cb ∧
  checks_agree f (checksummed f) = true ∧
  f !! 6%nat = Some 0.
Proof.
  intros H. unfold _checkCommandBytes.
  destruct (f !! 0%nat) as [r0|] eqn:H0.
  2:{ rewrite (run_bind_raise _ _ _ _ _
                 (run_getitem_out _ _ _ _ H (lookup_ge_None_1 _ _ H0))).
      intros Hr. discriminate Hr. }
  rewrite (run_bind_ret _ _ _ _ _ (run_getitem _ _ _ _ _ H H0)).
  assert (Hsent : ∀ (k : bool → M unit),
            (sentinel ← (if decide (r0 = 0xB8)
                         then r1 ← getitem l 1; mret (bool_decide (r1 = 0xB8))
                         else mret false); k sentinel) w = (Ret tt, w') →
            ¬ (Some r0 = Some 0xB8 ∧ f !! 1%nat = Some 0xB8) ∨
            k true w = (Ret tt, w')).
  { intros k. destruct (decide (r0 = 0xB8)) as [E0|N0].
    - destruct (f !! 1%nat) as [r1|] eqn:H1.
      + rewrite (run_bind_ret _ _ w (bool_decide (r1 = 0xB8)) w)
          by (rewrite (run_bind_ret _ _ _ _ _ (run_getitem _ _ _ _ _ H H1));
              reflexivity).
        destruct (decide (r1 = 0xB8)) as [E1|N1].
        * rewrite (bool_decide_eq_true_2 _ E1). right. assumption.
        * intros _. left. intros [_ [= E]]. contradiction.
      + intros _. left. intros [_ E]. discriminate E.
    - intros _. left. intros [[= E] _]. contradiction. }
  intros Hrun.
  assert (Hns : ¬ (Some r0 = Some 0xB8 ∧ f !! 1%nat = Some 0xB8)).
  { destruct (Hsent _ Hrun) as [Hn|Hk]; [exact Hn | discriminate Hk]. }
  clear Hsent.
  assert (Hs : (sentinel ← (if decide (r0 = 0xB8)
                            then r1 ← getitem l 1; mret (bool_decide (r1 = 0xB8))
                            else mret false);
                mret sentinel) w = (Ret false, w)).
  { destruct (decide (r0 = 0xB8)) as [E0|N0]; [|reflexivity].
    destruct (f !! 1%nat) as [r1|] eqn:H1.
    - rewrite (run_bind_ret _ _ w (bool_decide (r1 = 0xB8)) w)
        by (rewrite (run_bind_ret _ _ _ _ _ (run_getitem _ _ _ _ _ H H1));
            reflexivity).
      rewrite bool_decide_eq_false_2; [reflexivity|].
      intros E1. apply Hns. subst. auto.
    - exfalso. revert Hrun.
      rewrite (run_bind_raise _ _ w (IndexError "list index out of range") w).
      + intros Hr. discriminate Hr.
      + apply run_bind_raise. eapply run_getitem_out; [exact H|].
        apply lookup_ge_None_1, H1. }
  revert Hrun. rewrite run_bind.
  rewrite run_bind in Hs.
  destruct ((if decide (r0 = 0xB8)
             then r1 ← getitem l 1; mret (bool_decide (r1 = 0xB8))
             else mret false) w) as [[b|e] w0]; [|discriminate Hs].
  injection Hs as -> ->.
  rewrite (run_bind_ret _ _ _ _ _ (run_contents _ _ _ H)).
  destruct (decide (slice f 1 (length cb + 1) ≠ cb)) as [Hne|Heq];
    [intros Hr; discriminate Hr|].
  apply dec_stable in Heq.
  destruct (decide (8 ≤ length f)%nat) as [Hlen|Hlen].
  2:{ destruct (run_verifyChecksum_short w l f H ltac:(lia)) as [e He].
      rewrite (run_bind_raise _ _ _ _ _ He). intros Hr. discriminate Hr. }
  rewrite (run_bind_ret _ _ _ _ _ (run_verifyChecksum _ _ _ H Hlen)).
  destruct (checks_agree f (checksummed f)) eqn:Hok;
    [|intros Hr; discriminate Hr].
  cbn [negb]. rewrite (checksummed_fixed _ Hok), (store_id _ _ _ H).
  destruct (lookup_lt_is_Some_2 f 6) as [r6 H6]; [lia|].
  rewrite (run_bind_ret _ _ _ _ _ (run_getitem _ _ _ _ _ H H6)).
  destruct (decide (r6 ≠ 0)) as [N6|E6]; [intros Hr; discriminate Hr|].
  apply dec_stable in E6. subst r6.
  intros [= <-]. repeat split; auto.
Qed.

(** X10: over a USB handle, a [_writeRead] that checks the command bytes
    (given as a list) returns only a validated response: the bytes that
    [read] gave, at least 8 of them, not starting with the sentinel pair,
    echoing the command bytes, with items 0, 4 and 5 equal to the checksums
    [setChecksum] computes, and with error code 0 at offset 6. *)
Theorem writeRead_usb_returns_validated d self h command readLen cb checksum
    w rcv w' :
  Device.handle self = Some (USBHandle h) →
  _writeRead d self command readLen (PyList cb) true checksum w = (Ret rcv, w') →
  (∃ w1 w2, Device.write d self command false checksum w = (Ret tt, w1) ∧
            Device.read d self readLen false false w1 = (Ret rcv, w2)) ∧
  Forall is_byte rcv ∧ (8 ≤ length rcv ≤ readLen)%nat ∧
  ¬ (rcv !! 0%nat = Some 0xB8 ∧ rcv !! 1%nat = Some 0xB8) ∧
  slice rcv 1 (length cb + 1) = cb ∧
  checks_agree rcv (checksummed rcv) = true ∧
  rcv !! 6%nat = Some 0.
Proof.
  intros Hh. unfold _writeRead. rewrite Hh.
  rewrite run_bind.
  destruct (Device.write d self command false checksum w) as [[[]|e] w1] eqn:Hw;
    [|intros Hr; discriminate Hr].
  rewrite run_bind.
  destruct (Device.read d self readLen false false w1) as [[r|e] w2] eqn:Hrd;
    [|intros Hr; discriminate Hr].
  set (l := length (heap w2)).
  set (w3 := set_heap (heap w2 ++ [r]) w2).
  pose proof (heap_alloc_eq w2 r) as H3. fold w3 l in H3.
  rewrite (run_bind_ret _ _ w2 l w3) by reflexivity.
  rewrite run_bind.
  assert (Hdbg : ∃ w4, (if Device.debug self
                        then rs ← contents l; print ("Result:  " ++ str_list rs)
                        else mret tt) w3 = (Ret tt, w4) ∧
                       heap w4 !! l = Some r).
  { destruct (Device.debug self).
    - rewrite (run_bind_ret _ _ _ _ _ (run_contents _ _ _ H3)).
      eexists. split; [reflexivity | exact H3].
    - eexists. split; [reflexivity | exact H3]. }
  destruct Hdbg as (w4 & -> & H4).
  rewrite run_bind. cbn [_checkCommandBytes_seq].
  destruct (_checkCommandBytes l cb w4) as [[[]|e] w5] eqn:Hck;
    [|intros Hr; discriminate Hr].
  destruct (checkCommandBytes_returns _ _ _ _ _ H4 Hck)
    as (-> & Hlen & Hns & Hecho & Hok & H6).
  rewrite (run_contents _ _ _ H4). intros [= <- <-].
  destruct (read_bytes_bound _ _ _ _ _ _ _ _ Hrd) as [Hb Hmax].
  split; [eauto|]. repeat split; auto.
Qed.

Lemma writeRead_usb_returns_validated_witness :
  Forall is_byte [7; 0xf8; 3; 0x0b; 0; 0; 0; 0] ∧
  (8 ≤ length [7; 0xf8; 3; 0x0b; 0; 0; 0; 0] ≤ 8)%nat ∧
  checks_agree [7; 0xf8; 3; 0x0b; 0; 0; 0; 0]
    (checksummed [7; 0xf8; 3; 0x0b; 0; 0; 0; 0]) = true.
Proof.
  destruct (writeRead_usb_returns_validated
              (scripted posix [AInt 8; ABuf [7; 0xf8; 3; 0x0b; 0; 0; 0; 0] 8])
              ue9_usb 5 0%nat 8 [0xf8; 3; 0x0b] true
              (World [[0; 0xf8; 3; 0x0b; 0; 0; 0; 0]] [])
              [7; 0xf8; 3; 0x0b; 0; 0; 0; 0]
              (World [[7; 0xf8; 3; 0x0b; 0; 0; 0; 0]; [7; 0xf8; 3; 0x0b; 0; 0; 0; 0]]
                     [EvBulkRead 5 2 8 [7; -8; 3; 0x0b; 0; 0; 0; 0] 8;
                      EvBulkWrite 5 1 [7; -8; 3; 0x0b; 0; 0; 0; 0] 8 8])
              eq_refl)
    as (_ & Hb & Hlen & _ & _ & Hok & _).
  - vm_compute. reflexivity.
  - auto.
Defined.

(** On a tuple the verification cannot return: [setChecksum] refuses the
    item assignment. *)
Lemma verifyChecksum_tuple_raises buffer w :
  ∃ e, verifyChecksum_tuple buffer w = (Raise e, w).
Proof.
  unfold verifyChecksum_tuple, tuple_item, setChecksum_tuple.
  destruct (buffer !! 0%nat); [|eexists; reflexivity].
  destruct (buffer !! 4%nat); [|eexists; reflexivity].
  destruct (buffer !! 5%nat); [|eexists; reflexivity].
  destruct (decide (length buffer < 8)%nat); eexists; reflexivity.
Qed.

Lemma checkCommandBytes_tuple_raises results cb w :
  ∃ e, _checkCommandBytes_tuple results cb w = (Raise e, w).
Proof.
  unfold _checkCommandBytes_tuple, tuple_item.
  destruct (results !! 0%nat) as [r0|]; [|eexists; reflexivity].
  assert (Hs : ∃ o, (if decide (r0 = 0xB8)
                     then r1 ← match results !! 1%nat with
                               | Some x => mret x
                               | None => raise (IndexError "tuple index out of range")
                               end;
                          mret (bool_decide (r1 = 0xB8))
                     else mret false) w = (o, w)).
  { destruct (decide (r0 = 0xB8)); [|eexists; reflexivity].
    destruct (results !! 1%nat); eexists; reflexivity. }
  destruct Hs as [o Hs].
  rewrite (run_bind_ret _ _ w r0 w) by reflexivity.
  rewrite run_bind, Hs.
  destruct o as [[|]|e]; [eexists; reflexivity| |eexists; reflexivity].
  destruct cb as [cb|cb]; [eexists; reflexivity|].
  destruct (bool_decide _); [eexists; reflexivity|].
  destruct (verifyChecksum_tuple_raises results w) as [e He].
  exists e. apply run_bind_raise, He.
Qed.

(** X11: over the TCP handle, a [_writeRead] that checks the command bytes
    never returns.  [read] gives a tuple there: compared with a list of
    command bytes it always differs, and with an equal tuple the checksum
    verification fails on the first item assignment. *)
Theorem writeRead_tcp_never_validates d self conn command readLen commandBytes
    checksum w :
  Device.handle self = Some (UE9TCPHandle conn) →
  ∃ e w', _writeRead d self command readLen commandBytes true checksum w
          = (Raise e, w').
Proof.
  intros Hh. unfold _writeRead. rewrite Hh. rewrite run_bind.
  destruct (Device.write d self command false checksum w) as [[[]|e] w1];
    [|eauto].
  rewrite run_bind.
  destruct (Device.read d self readLen false false w1) as [[r|e] w2]; [|eauto].
  rewrite run_bind.
  destruct ((if Device.debug self then print ("Result:  " ++ str_tuple r)
             else mret tt) w2) as [[[]|e] w3]; [|eauto].
  destruct (checkCommandBytes_tuple_raises r commandBytes w3) as [e He].
  exists e, w3. apply run_bind_raise, He.
Qed.

Lemma writeRead_tcp_never_validates_witness :
  ∃ e w',
    _writeRead (scripted posix [AOk; ABytes [Byte.x07; Byte.xf8; Byte.x03; Byte.x0b;
                                             Byte.x00; Byte.x00; Byte.x00; Byte.x00]])
      ue9_tcp 0%nat 8 (PyList [0xf8; 3; 0x0b]) true true
      (World [[0; 0xf8; 3; 0x0b; 0; 0; 0; 0]] [])
    = (Raise e, w').
Proof.
  exact (writeRead_tcp_never_validates _ ue9_tcp 1 0%nat 8 (PyList [0xf8; 3; 0x0b])
           true (World [[0; 0xf8; 3; 0x0b; 0; 0; 0; 0]] []) eq_refl).
Defined.

(** ** Network addresses *)

Lemma split_dot_length s : length (split_dot s) = S (count_dots s).
Proof.
  induction s as [|c s IH]; cbn [split_dot count_dots]; [reflexivity|].
  destruct (Ascii.eqb c "."); cbn [length]; [rewrite IH; reflexivity|].
  destruct (split_dot s) as [|p ps]; [discriminate IH|].
  cbn [length] in *. lia.
Qed.

Lemma split_dot_app p rest :
  count_dots p = 0%nat →
  split_dot (p +:+ "." +:+ rest) = p :: split_dot rest.
Proof.
  induction p as [|c p IH]; cbn [count_dots]; intros Hp.
  - reflexivity.
  - destruct (Ascii.eqb c ".") eqn:Hc; [discriminate Hp|].
    change (String c p +:+ "." +:+ rest)
      with (String c (p +:+ "." +:+ rest)).
    cbn [split_dot]. rewrite Hc, (IH Hp). reflexivity.
Qed.

Lemma split_dot_dotless p : count_dots p = 0%nat → split_dot p = [p].
Proof.
  induction p as [|c p IH]; cbn [count_dots]; intros Hp.
  - reflexivity.
  - destruct (Ascii.eqb c ".") eqn:Hc; [discriminate Hp|].
    cbn [split_dot]. rewrite Hc, (IH Hp). reflexivity.
Qed.

Lemma str_int_octet_dotless o : 0 ≤ o < 256 → count_dots (str_int o) = 0%nat.
Proof.
  intros Ho.
  assert (Hall : forallb (λ k, Nat.eqb (count_dots (str_int (Z.of_nat k))) 0)
                   (seq 0 256) = true) by (vm_compute; reflexivity).
  rewrite forallb_forall in Hall.
  specialize (Hall (Z.to_nat o)). rewrite Z2Nat.id in Hall by lia.
  apply Nat.eqb_eq, Hall, in_seq. lia.
Qed.

Lemma land_255_octet x : 0 ≤ Z.land x 0xFF < 256.
Proof. apply land_255_is_byte. Qed.

Lemma split_dotted a b c e :
  0 ≤ a < 256 → 0 ≤ b < 256 → 0 ≤ c < 256 → 0 ≤ e < 256 →
  split_dot (str_int a +:+ "." +:+ str_int b +:+ "." +:+ str_int c +:+ "." +:+
             str_int e)
  = [str_int a; str_int b; str_int c; str_int e].
Proof.
  intros Ha Hb Hc He.
  rewrite (split_dot_app (str_int a)) by (apply str_int_octet_dotless, Ha).
  rewrite (split_dot_app (str_int b)) by (apply str_int_octet_dotless, Hb).
  rewrite (split_dot_app (str_int c)) by (apply str_int_octet_dotless, Hc).
  rewrite split_dot_dotless by (apply str_int_octet_dotless, He).
  reflexivity.
Qed.

Lemma octets_of_number n :
  Z.shiftl (Z.land (Z.shiftr n (8 * 3)) 0xFF) (8 * 3) +
  Z.shiftl (Z.land (Z.shiftr n (8 * 2)) 0xFF) (8 * 2) +
  Z.shiftl (Z.land (Z.shiftr n 8) 0xFF) 8 + Z.land n 0xFF
  = n mod 4294967296.
Proof.
  rewrite !land_255_mod, !Z.shiftr_div_pow2, !Z.shiftl_mul_pow2 by lia.
  change (2 ^ (8 * 3)) with (256 * (256 * 256)).
  change (2 ^ (8 * 2)) with (256 * 256). change (2 ^ 8) with 256.
  rewrite <- !Z.div_div by lia.
  pose proof (Z.div_mod n 256 ltac:(lia)) as H0.
  pose proof (Z.mod_pos_bound n 256 ltac:(lia)) as B0.
  set (q1 := n / 256) in *.
  pose proof (Z.div_mod q1 256 ltac:(lia)) as H1.
  pose proof (Z.mod_pos_bound q1 256 ltac:(lia)) as B1.
  set (q2 := q1 / 256) in *.
  pose proof (Z.div_mod q2 256 ltac:(lia)) as H2.
  pose proof (Z.mod_pos_bound q2 256 ltac:(lia)) as B2.
  set (q3 := q2 / 256) in *.
  pose proof (Z.div_mod q3 256 ltac:(lia)) as H3.
  pose proof (Z.mod_pos_bound q3 256 ltac:(lia)) as B3.
  apply (Z.mod_unique_pos _ _ (q3 / 256)); lia.
Qed.

Lemma number_of_octets a b c e :
  0 ≤ a < 256 → 0 ≤ b < 256 → 0 ≤ c < 256 → 0 ≤ e < 256 →
  let v := Z.shiftl a (8 * 3) + Z.shiftl b (8 * 2) + Z.shiftl c 8 + e in
  Z.land (Z.shiftr v (8 * 3)) 0xFF = a ∧
  Z.land (Z.shiftr v (8 * 2)) 0xFF = b ∧
  Z.land (Z.shiftr v 8) 0xFF = c ∧
  Z.land v 0xFF = e.
Proof.
  intros Ha Hb Hc He v.
  assert (Hv : v = a * 16777216 + b * 65536 + c * 256 + e).
  { subst v. rewrite !Z.shiftl_mul_pow2 by lia. reflexivity. }
  clearbody v. subst v.
  set (v := a * 16777216 + b * 65536 + c * 256 + e).
  rewrite !land_255_mod, !Z.shiftr_div_pow2 by lia.
  change (2 ^ (8 * 3)) with 16777216.
  change (2 ^ (8 * 2)) with 65536. change (2 ^ 8) with 256.
  assert (Q3 : v / 16777216 = a).
  { symmetry. apply (Z.div_unique_pos v 16777216 a (b * 65536 + c * 256 + e));
      subst v; lia. }
  assert (Q2 : v / 65536 = a * 256 + b).
  { symmetry. apply (Z.div_unique_pos v 65536 (a * 256 + b) (c * 256 + e));
      subst v; lia. }
  assert (Q1 : v / 256 = a * 65536 + b * 256 + c).
  { symmetry. apply (Z.div_unique_pos v 256 (a * 65536 + b * 256 + c) e);
      subst v; lia. }
  rewrite Q3, Q2, Q1. repeat split.
  - apply Z.mod_small. lia.
  - symmetry. apply (Z.mod_unique_pos _ _ a); lia.
  - symmetry. apply (Z.mod_unique_pos _ _ (a * 256 + b)); lia.
  - symmetry. apply (Z.mod_unique_pos _ _ (a * 65536 + b * 256 + c)); subst v; lia.
Qed.

Section AddressRoundTrip.
Context (py_int : string → option Z).
(** [int(str(n)) == n] for the octets. *)
Context (py_int_str : ∀ o, 0 ≤ o < 256 → py_int (str_int o) = Some o).

(** X12: [StringToDoubleAddress(DoubleToStringAddress(n))] is [n] for every
    32-bit number [n]; for any other integer it is [n] modulo [2^32]. *)
Theorem address_number_round_trip n :
  StringToDoubleAddress py_int (DoubleToStringAddress n)
  = Ret (n mod 4294967296).
Proof.
  unfold StringToDoubleAddress, DoubleToStringAddress.
  rewrite split_dotted by apply land_255_octet.
  rewrite !py_int_str by apply land_255_octet.
  rewrite octets_of_number. reflexivity.
Qed.

(** X13: for four octets, the dotted string is read as the number with
    these octets, highest first, and [DoubleToStringAddress] of that number
    gives the dotted string back. *)
Theorem address_string_round_trip a b c e :
  0 ≤ a < 256 → 0 ≤ b < 256 → 0 ≤ c < 256 → 0 ≤ e < 256 →
  let s := (str_int a +:+ "." +:+ str_int b +:+ "." +:+ str_int c +:+ "." +:+
            str_int e)%string in
  let v := a * 16777216 + b * 65536 + c * 256 + e in
  StringToDoubleAddress py_int s = Ret v ∧ DoubleToStringAddress v = s.
Proof.
  intros Ha Hb Hc He s v.
  assert (Hv : v = Z.shiftl a (8 * 3) + Z.shiftl b (8 * 2) + Z.shiftl c 8 + e).
  { subst v. rewrite !Z.shiftl_mul_pow2 by lia. reflexivity. }
  split.
  - subst s. unfold StringToDoubleAddress.
    rewrite split_dotted by assumption.
    rewrite !py_int_str by assumption. rewrite Hv. reflexivity.
  - destruct (number_of_octets a b c e Ha Hb Hc He) as (E3 & E2 & E1 & E0).
    cbv zeta in E3, E2, E1, E0. rewrite <- Hv in E3, E2, E1, E0.
    unfold DoubleToStringAddress. rewrite E3, E2, E1, E0. reflexivity.
Qed.

(** X14: [StringToDoubleAddress] raises "IP address not correctly
    formatted" for every string that does not have exactly three dots. *)
Theorem address_needs_three_dots s :
  count_dots s ≠ 3%nat →
  StringToDoubleAddress py_int s
  = Raise (LJE0 "IP address not correctly formatted").
Proof.
  intros Hd. unfold StringToDoubleAddress.
  pose proof (split_dot_length s) as Hl.
  destruct (split_dot s) as [|p0 [|p1 [|p2 [|p3 [|p4 ps]]]]]; try reflexivity.
  cbn [length] in Hl. lia.
Qed.

End AddressRoundTrip.

Lemma decimal_str_int o : 0 ≤ o < 256 → decimal (str_int o) = Some o.
Proof.
  intros Ho. unfold decimal, str_int.
  rewrite NilEmpty.isi. cbn [option_map]. rewrite DecimalZ.of_to.
  destruct (NilEmpty.string_of_int (Z.to_int o)) eqn:Hs; [|reflexivity].
  exfalso.
  assert (Hall : forallb (λ k, negb (String.eqb (str_int (Z.of_nat k)) ""))
                   (seq 0 256) = true) by (vm_compute; reflexivity).
  rewrite forallb_forall in Hall.
  specialize (Hall (Z.to_nat o)). rewrite Z2Nat.id in Hall by lia.
  unfold str_int in Hall. rewrite Hs in Hall.
  assert (Hin : In (Z.to_nat o) (seq 0 256)) by (apply in_seq; lia).
  specialize (Hall Hin). discriminate Hall.
Qed.

Lemma address_number_round_trip_witness :
  StringToDoubleAddress decimal (DoubleToStringAddress 3232235985)
  = Ret (3232235985 mod 4294967296).
Proof. exact (address_number_round_trip decimal decimal_str_int 3232235985). Defined.

Lemma address_string_round_trip_witness :
  StringToDoubleAddress decimal "192.168.1.209" = Ret 3232235985 ∧
  DoubleToStringAddress 3232235985 = "192.168.1.209"%string.
Proof.
  apply (address_string_round_trip decimal decimal_str_int 192 168 1 209); lia.
Defined.

Lemma address_needs_three_dots_witness :
  StringToDoubleAddress decimal "192.168.1"
  = Raise (LJE0 "IP address not correctly formatted").
Proof.
  apply (address_needs_three_dots decimal "192.168.1"). simpl. lia.
Defined.

(** ** The wire layout of the identification responses *)

Lemma chr_byte b : is_byte b → ∃ x, chr b = Ret x ∧ ord x = b.
Proof.
  intros Hb. unfold chr, is_byte in *.
  destruct (decide (0 ≤ b)) as [_|?]; [|lia].
  destruct (Byte.of_N (Z.to_N b)) as [x|] eqn:Hx.
  - exists x. split; [reflexivity|]. unfold ord.
    rewrite (Byte.to_of_N _ Hx), Z2N.id by lia. reflexivity.
  - apply Byte.of_N_None_iff in Hx. lia.
Qed.

Lemma append_chrs_bytes js : ∀ s,
  Forall is_byte js →
  ∃ s', append_chrs s js = Ret (s ++ s') ∧ map ord s' = js.
Proof.
  induction js as [|j js IH]; intros s Hb; cbn [append_chrs].
  - exists []. rewrite app_nil_r. split; reflexivity.
  - inversion Hb as [|? ? Hj Hjs]; subst.
    destruct (chr_byte j Hj) as (x & -> & Hx).
    destruct (IH (s ++ [x]) Hjs) as (s' & -> & Hs').
    exists (x :: s'). rewrite <- app_assoc. split; [reflexivity|].
    cbn [map]. rewrite Hx, Hs'. reflexivity.
Qed.

Lemma strip_last_dot s : strip_last (s +:+ ".") = s.
Proof.
  induction s as [|c s IH]; [reflexivity|].
  change (String c s +:+ ".") with (String c (s +:+ ".")).
  cbn [strip_last]. rewrite IH.
  destruct s; reflexivity.
Qed.

Lemma append_assoc' (a b c : string) : (a +:+ b) +:+ c = a +:+ (b +:+ c).
Proof.
  induction a as [|x a IH]; [reflexivity|].
  change ((String x a +:+ b) +:+ c) with (String x ((a +:+ b) +:+ c)).
  rewrite IH. reflexivity.
Qed.

Lemma run_item xs i x w : xs !! i = Some x → item xs i w = (Ret x, w).
Proof. intros H. unfold item. rewrite H. reflexivity. Qed.

Lemma run_item_out xs i w :
  (length xs ≤ i)%nat →
  item xs i w = (Raise (IndexError "list index out of range"), w).
Proof.
  intros H. unfold item. rewrite (lookup_ge_None_2 _ _ H). reflexivity.
Qed.

Lemma run_lift {A} (o : outcome A) w : lift o w = (o, w).
Proof. reflexivity. Qed.

(** X15: the UE9 comm-config response is parsed bit-exactly.  For a response
    of at least 34 bytes the serial number is the big-endian number of
    [0x10] and bytes 30, 29, 28, the address is bytes 13, 12, 11, 10 in
    dotted decimal, and the local ID is byte 8; a shorter response cannot be
    parsed ([struct.error]). *)
Theorem parseUE9_layout rcv w :
  Forall is_byte rcv →
  ((34 ≤ length rcv)%nat →
   ∃ b8 b10 b11 b12 b13 b28 b29 b30,
     rcv !! 8%nat = Some b8 ∧ rcv !! 10%nat = Some b10 ∧
     rcv !! 11%nat = Some b11 ∧ rcv !! 12%nat = Some b12 ∧
     rcv !! 13%nat = Some b13 ∧ rcv !! 28%nat = Some b28 ∧
     rcv !! 29%nat = Some b29 ∧ rcv !! 30%nat = Some b30 ∧
     let serial := 0x10000000 + b30 * 65536 + b29 * 256 + b28 in
     parseUE9 rcv w
     = (Ret (serial,
             DevInfo LJ_dtUE9 b8 serial
               (Some (str_int b13 +:+ "." +:+ str_int b12 +:+ "." +:+
                      str_int b11 +:+ "." +:+ str_int b10))), w)) ∧
  ((length rcv < 34)%nat →
   parseUE9 rcv w
   = (Raise (struct_error "unpack requires a string argument of length 4"), w)).
Proof.
  intros Hb. split; intros Hlen.
  - destruct (lookup_lt_is_Some_2 rcv 8) as [b8 H8]; [lia|].
    destruct (lookup_lt_is_Some_2 rcv 10) as [b10 H10]; [lia|].
    destruct (lookup_lt_is_Some_2 rcv 11) as [b11 H11]; [lia|].
    destruct (lookup_lt_is_Some_2 rcv 12) as [b12 H12]; [lia|].
    destruct (lookup_lt_is_Some_2 rcv 13) as [b13 H13]; [lia|].
    destruct (lookup_lt_is_Some_2 rcv 28) as [b28 H28]; [lia|].
    destruct (lookup_lt_is_Some_2 rcv 29) as [b29 H29]; [lia|].
    destruct (lookup_lt_is_Some_2 rcv 30) as [b30 H30]; [lia|].
    exists b8, b10, b11, b12, b13, b28, b29, b30.
    repeat (split; [assumption|]). cbv zeta.
    assert (Hmac : drop 3 (reverse (slice rcv 28 34)) = [b30; b29; b28]).
    { unfold slice. change (34 - 28)%nat with 6%nat.
      rewrite <- (take_drop 3 (take 6 (drop 28 rcv))).
      rewrite reverse_app, drop_app_length'.
      2:{ rewrite length_reverse, length_drop, length_take, length_drop. lia. }
      rewrite take_take. change (3 `min` 6)%nat with 3%nat.
      rewrite (take_S_r _ 2 b30), (take_S_r _ 1 b29), (take_S_r _ 0 b28);
        rewrite ?lookup_drop; try assumption.
      reflexivity. }
    assert (Hb3 : Forall is_byte [b30; b29; b28]).
    { apply Forall_cons_2; [exact (Forall_lookup_1 _ _ _ _ Hb H30)|].
      apply Forall_cons_2; [exact (Forall_lookup_1 _ _ _ _ Hb H29)|].
      apply Forall_cons_2; [exact (Forall_lookup_1 _ _ _ _ Hb H28)|].
      apply Forall_nil_2. }
    destruct (append_chrs_bytes _ [Byte.x10] Hb3) as (s' & Hs & Hord).
    destruct s' as [|x30 [|x29 [|x28 [|? ?]]]]; try discriminate Hord.
    injection Hord as E30 E29 E28.
    unfold parseUE9. rewrite Hmac, Hs.
    rewrite (run_bind_ret _ _ _ _ _ (run_lift _ w)).
    cbn [app struct_unpack_I_be].
    rewrite (run_bind_ret _ _ w _ w (run_lift _ w)).
    cbn [for_].
    rewrite (run_bind_ret _ _ w (("" +:+ str_int b13 +:+ ".") +:+ str_int b12 +:+ "."
                                 +:+ str_int b11 +:+ "." +:+ str_int b10 +:+ ".")%string w).
    2:{ rewrite (run_bind_ret _ _ w ("" +:+ str_int b13 +:+ ".")%string w)
          by (rewrite (run_bind_ret _ _ _ _ _ (run_item _ _ _ w H13)); reflexivity).
        rewrite (run_bind_ret _ _ w (("" +:+ str_int b13 +:+ ".") +:+ str_int b12 +:+ ".")%string w)
          by (rewrite (run_bind_ret _ _ _ _ _ (run_item _ _ _ w H12)); reflexivity).
        rewrite (run_bind_ret _ _ w ((("" +:+ str_int b13 +:+ ".") +:+ str_int b12 +:+ ".")
                                     +:+ str_int b11 +:+ ".")%string w)
          by (rewrite (run_bind_ret _ _ _ _ _ (run_item _ _ _ w H11)); reflexivity).
        rewrite (run_bind_ret _ _ w (((("" +:+ str_int b13 +:+ ".") +:+ str_int b12 +:+ ".")
                                      +:+ str_int b11 +:+ ".") +:+ str_int b10 +:+ ".")%string w)
          by (rewrite (run_bind_ret _ _ _ _ _ (run_item _ _ _ w H10)); reflexivity).
        rewrite !append_assoc'. reflexivity. }
    rewrite (run_bind_ret _ _ _ _ _ (run_item _ _ _ w H8)).
    rewrite (land_255_byte b8) by exact (Forall_lookup_1 _ _ _ _ Hb H8).
    change (ord Byte.x10) with 16. rewrite E30, E29, E28.
    replace (16 * 16777216 + b30 * 65536 + b29 * 256 + b28)
      with (268435456 + b30 * 65536 + b29 * 256 + b28) by lia.
    f_equal. f_equal. f_equal. f_equal. f_equal.
    change ("" +:+ ?s)%string with s.
    rewrite <- !append_assoc'. rewrite strip_last_dot. rewrite !append_assoc'.
    reflexivity.
  - unfold parseUE9.
    assert (Hbm : Forall is_byte (drop 3 (reverse (slice rcv 28 34)))).
    { apply Forall_drop, Forall_reverse. unfold slice.
      apply Forall_take, Forall_drop, Hb. }
    destruct (append_chrs_bytes _ [Byte.x10] Hbm) as (s' & Hs & Hord).
    assert (Hl : (length s' < 3)%nat).
    { rewrite <- (length_map ord), Hord, length_drop, length_reverse.
      unfold slice. rewrite length_take, length_drop. lia. }
    rewrite Hs.
    rewrite (run_bind_ret _ _ _ _ _ (run_lift _ w)).
    apply run_bind_raise. unfold lift.
    destruct s' as [|x [|y [|z l]]]; try reflexivity.
    cbn [length] in Hl. lia.
Qed.

Lemma parseUE9_layout_witness :
  parseUE9 (ue9_response 1 2 3) (World [] [])
  = (Ret (0x10010203,
          DevInfo LJ_dtUE9 7 0x10010203 (Some "192.168.1.209"%string)),
     World [] []).
Proof.
  assert (Hb : Forall is_byte (ue9_response 1 2 3)).
  { let l := eval vm_compute in (ue9_response 1 2 3) in
    change (Forall is_byte l).
    repeat (apply Forall_cons_2; [unfold is_byte; lia|]). apply Forall_nil_2. }
  destruct (proj1 (parseUE9_layout (ue9_response 1 2 3) (World [] []) Hb))
    as (b8 & b10 & b11 & b12 & b13 & b28 & b29 & b30 &
        H8 & H10 & H11 & H12 & H13 & H28 & H29 & H30 & H).
  { vm_compute. lia. }
  injection H8 as <-. injection H10 as <-. injection H11 as <-.
  injection H12 as <-. injection H13 as <-. injection H28 as <-.
  injection H29 as <-. injection H30 as <-.
  exact H.
Defined.

(** X16: the U3 config response is parsed bit-exactly.  For a response of at
    least 22 bytes the serial number is the little-endian number of bytes
    15 to 18 and the local ID is byte 21.  A response of 19 to 21 bytes
    fails on the local ID ([IndexError]), a shorter one on the serial number
    ([struct.error]). *)
Theorem parseU3_layout rcv w :
  Forall is_byte rcv →
  ((22 ≤ length rcv)%nat →
   ∃ b15 b16 b17 b18 b21,
     rcv !! 15%nat = Some b15 ∧ rcv !! 16%nat = Some b16 ∧
     rcv !! 17%nat = Some b17 ∧ rcv !! 18%nat = Some b18 ∧
     rcv !! 21%nat = Some b21 ∧
     let serial := b15 + b16 * 256 + b17 * 65536 + b18 * 16777216 in
     parseU3 rcv w = (Ret (serial, DevInfo LJ_dtU3 b21 serial None), w)) ∧
  ((19 ≤ length rcv < 22)%nat →
   parseU3 rcv w = (Raise (IndexError "list index out of range"), w)) ∧
  ((length rcv < 19)%nat →
   parseU3 rcv w = (Raise (struct_error "pack requires exactly 4 arguments"), w)).
Proof.
  intros Hb.
  assert (Hfour : (19 ≤ length rcv)%nat →
    ∃ b15 b16 b17 b18,
      rcv !! 15%nat = Some b15 ∧ rcv !! 16%nat = Some b16 ∧
      rcv !! 17%nat = Some b17 ∧ rcv !! 18%nat = Some b18 ∧
      struct_pack_BBBB_unpack_I_le (slice rcv 15 19)
      = Ret (b15 + b16 * 256 + b17 * 65536 + b18 * 16777216)).
  { intros Hlen.
    destruct (lookup_lt_is_Some_2 rcv 15) as [b15 H15]; [lia|].
    destruct (lookup_lt_is_Some_2 rcv 16) as [b16 H16]; [lia|].
    destruct (lookup_lt_is_Some_2 rcv 17) as [b17 H17]; [lia|].
    destruct (lookup_lt_is_Some_2 rcv 18) as [b18 H18]; [lia|].
    exists b15, b16, b17, b18. repeat (split; [assumption|]).
    assert (Hs : slice rcv 15 19 = [b15; b16; b17; b18]).
    { unfold slice. change (19 - 15)%nat with 4%nat.
      rewrite (take_S_r _ 3 b18), (take_S_r _ 2 b17), (take_S_r _ 1 b16),
        (take_S_r _ 0 b15); rewrite ?lookup_drop; try assumption.
      reflexivity. }
    rewrite Hs.
    assert (Hb4 : Forall is_byte [b15; b16; b17; b18]).
    { apply Forall_cons_2; [exact (Forall_lookup_1 _ _ _ _ Hb H15)|].
      apply Forall_cons_2; [exact (Forall_lookup_1 _ _ _ _ Hb H16)|].
      apply Forall_cons_2; [exact (Forall_lookup_1 _ _ _ _ Hb H17)|].
      apply Forall_cons_2; [exact (Forall_lookup_1 _ _ _ _ Hb H18)|].
      apply Forall_nil_2. }
    destruct (struct_pack_B_bytes _ Hb4) as (s & Hp & Hord).
    destruct s as [|x15 [|x16 [|x17 [|x18 [|? ?]]]]]; try discriminate Hord.
    injection Hord as E15 E16 E17 E18.
    unfold struct_pack_BBBB_unpack_I_le. rewrite Hp, E15, E16, E17, E18.
    reflexivity. }
  split; [|split]; intros Hlen.
  - destruct Hfour as (b15 & b16 & b17 & b18 & H15 & H16 & H17 & H18 & Hs); [lia|].
    destruct (lookup_lt_is_Some_2 rcv 21) as [b21 H21]; [lia|].
    exists b15, b16, b17, b18, b21. repeat (split; [assumption|]). cbv zeta.
    unfold parseU3. rewrite Hs.
    rewrite (run_bind_ret _ _ _ _ _ (run_lift _ w)).
    rewrite (run_bind_ret _ _ _ _ _ (run_item _ _ _ w H21)).
    rewrite (land_255_byte b21) by exact (Forall_lookup_1 _ _ _ _ Hb H21).
    reflexivity.
  - destruct Hfour as (b15 & b16 & b17 & b18 & H15 & H16 & H17 & H18 & Hs); [lia|].
    unfold parseU3. rewrite Hs.
    rewrite (run_bind_ret _ _ _ _ _ (run_lift _ w)).
    apply run_bind_raise. apply run_item_out. lia.
  - unfold parseU3. apply run_bind_raise. unfold lift. f_equal.
    assert (Hl : (length (slice rcv 15 19) < 4)%nat)
      by (unfold slice; rewrite length_take, length_drop; lia).
    unfold struct_pack_BBBB_unpack_I_le.
    destruct (slice rcv 15 19) as [|x [|y [|z [|u l]]]]; try reflexivity.
    cbn [length] in Hl. lia.
Qed.

Lemma parseU3_layout_witness :
  parseU3 (replicate 15 0 ++ [4; 3; 2; 1; 0; 0; 9]) (World [] [])
  = (Ret (0x01020304, DevInfo LJ_dtU3 9 0x01020304 None), World [] []).
Proof.
  assert (Hb : Forall is_byte (replicate 15 0 ++ [4; 3; 2; 1; 0; 0; 9])).
  { let l := eval vm_compute in (replicate 15 0 ++ [4; 3; 2; 1; 0; 0; 9]) in
    change (Forall is_byte l).
    repeat (apply Forall_cons_2; [unfold is_byte; lia|]). apply Forall_nil_2. }
  destruct (proj1 (parseU3_layout (replicate 15 0 ++ [4; 3; 2; 1; 0; 0; 9])
                     (World [] []) Hb))
    as (b15 & b16 & b17 & b18 & b21 & H15 & H16 & H17 & H18 & H21 & H).
  { vm_compute. lia. }
  injection H15 as <-. injection H16 as <-. injection H17 as <-.
  injection H18 as <-. injection H21 as <-.
  exact H.
Defined.

(** ** Opening a device: helper facts *)

Lemma bind_returns {A B} (m : M A) (k : A → M B) w b w' :
  (m ≫= k) w = (Ret b, w') → ∃ a w1, m w = (Ret a, w1) ∧ k a w1 = (Ret b, w').
Proof.
  rewrite run_bind. destruct (m w) as [[a|e] w1]; intros H.
  - exists a, w1. split; [reflexivity | exact H].
  - discriminate H.
Qed.

Lemma bind_raises {A B} (m : M A) (k : A → M B) w e w' :
  (m ≫= k) w = (Raise e, w') →
  m w = (Raise e, w') ∨ ∃ a w1, m w = (Ret a, w1) ∧ k a w1 = (Raise e, w').
Proof.
  rewrite run_bind. destruct (m w) as [[a|e0] w1]; intros H.
  - right. exists a, w1. split; [reflexivity | exact H].
  - left. injection H as -> ->. reflexivity.
Qed.

Lemma session_free_nil evs :
  count_events is_session evs = 0%nat → opened evs = [] ∧ closed evs = [].
Proof.
  unfold count_events, opened, closed.
  induction evs as [|e evs IH]; [split; reflexivity|].
  destruct e; cbn [List.filter is_session length]; intros H;
    try discriminate H; apply IH in H; destruct H as [H1 H2];
    (split; [exact H1 | exact H2]).
Qed.

(** A computation that neither opens nor closes a handle. *)
Lemma session_free {A} (m : M A) w :
  adds is_session 0 m →
  ∃ evs, trace (m w).2 = evs ++ trace w ∧ opened evs = [] ∧ closed evs = [].
Proof.
  intros Hm. destruct (Hm w) as (evs & Ht & Hc).
  exists evs. split; [exact Ht|]. apply session_free_nil. lia.
Qed.

Section OpenTrace.
Context (d : driver).

Lemma session_BulkWrite h ep buf n : adds is_session 0 (BulkWrite d h ep buf n).
Proof. adds_one. Qed.
Lemma session_BulkRead h ep n : adds is_session 0 (BulkRead d h ep n).
Proof. adds_one. Qed.
Lemma session_UD_eGet h io ch pv x1 : adds is_session 0 (UD_eGet d h io ch pv x1).
Proof. adds_one. Qed.
Lemma session_send c ch s : adds is_session 0 (send d c ch s).
Proof. adds_one. Qed.
Lemma session_recv c ch n : adds is_session 0 (recv d c ch n).
Proof. adds_one. Qed.
Lemma session_socket c ch : adds is_session 0 (socket_ d c ch).
Proof. adds_one. Qed.
Lemma session_connect c ch ip port : adds is_session 0 (connect d c ch ip port).
Proof. adds_one. Qed.
Lemma session_settimeout c ch t : adds is_session 0 (settimeout d c ch t).
Proof. adds_one. Qed.

Ltac prim_step :=
  first [ apply adds_setChecksum | apply adds_bulk_result
        | apply session_BulkWrite | apply session_BulkRead
        | apply session_UD_eGet | apply session_send | apply session_recv
        | apply session_socket | apply session_connect
        | apply session_settimeout | adds_step ].

Lemma session_eGetRaw h io ch pv x1 : adds is_session 0 (eGetRaw d h io ch pv x1).
Proof.
  unfold eGetRaw. destruct (os_name d);
    (eapply adds_mono; [|repeat prim_step]); simpl; lia.
Qed.

Ltac open_step := first [ apply session_eGetRaw | prim_step ].

Ltac open_auto := (eapply adds_mono; [|repeat open_step]); [simpl; lia].

Lemma session_write self l modbus checksum :
  adds is_session 0 (Device.write d self l modbus checksum).
Proof.
  unfold Device.write.
  destruct (Device.handle self) as [[h|conn]|]; [destruct (os_name d)| |];
    open_auto.
Qed.

Lemma session_read self n stream modbus :
  adds is_session 0 (Device.read d self n stream modbus).
Proof.
  unfold Device.read.
  destruct (Device.handle self) as [[h|conn]|]; [destruct (os_name d)| |];
    try open_auto.
  destruct stream; [open_auto|]. destruct modbus; [|open_auto].
  eapply adds_mono; [|eapply adds_bind; [eapply adds_try|intros ?]].
  2: apply session_recv.
  2:{ intros e. instantiate (1 := 0%nat). destruct e; open_auto. }
  2: apply adds_ret.
  simpl. lia.
Qed.

End OpenTrace.

(** A new list of [n] zeros with its first items assigned; nothing is
    logged. *)
Lemma run_frame3 {A} n b1 b2 b3 (k : loc → M A) w :
  (4 ≤ n)%nat →
  ∃ w0, (l ← alloc (replicate n 0);
         setitem l 1 b1;; setitem l 2 b2;; setitem l 3 b3;; k l) w
        = k (length (heap w)) w0 ∧
        trace w0 = trace w.
Proof.
  intros Hn.
  set (l := length (heap w)).
  set (w1 := set_heap (heap w ++ [replicate n 0]) w).
  assert (H1 : heap w1 !! l = Some (replicate n 0)) by apply heap_alloc_eq.
  rewrite (run_bind_ret _ _ w l w1) by reflexivity.
  erewrite run_bind_ret;
    [|eapply run_setitem; [exact H1 | rewrite length_replicate; lia]].
  erewrite run_bind_ret;
    [|eapply run_setitem; [eapply heap_store_eq, H1
                          | rewrite length_insert, length_replicate; lia]].
  erewrite run_bind_ret;
    [|eapply run_setitem; [eapply heap_store_eq, heap_store_eq, H1
                          | rewrite !length_insert, length_replicate; lia]].
  eexists. split; reflexivity.
Qed.

Lemma run_frame4 {A} n b0 b1 b2 b3 (k : loc → M A) w :
  (4 ≤ n)%nat →
  ∃ w0, (l ← alloc (replicate n 0);
         setitem l 0 b0;; setitem l 1 b1;; setitem l 2 b2;; setitem l 3 b3;;
         k l) w
        = k (length (heap w)) w0 ∧
        trace w0 = trace w.
Proof.
  intros Hn.
  set (l := length (heap w)).
  set (w1 := set_heap (heap w ++ [replicate n 0]) w).
  assert (H1 : heap w1 !! l = Some (replicate n 0)) by apply heap_alloc_eq.
  rewrite (run_bind_ret _ _ w l w1) by reflexivity.
  erewrite run_bind_ret;
    [|eapply run_setitem; [exact H1 | rewrite length_replicate; lia]].
  erewrite run_bind_ret;
    [|eapply run_setitem; [eapply heap_store_eq, H1
                          | rewrite length_insert, length_replicate; lia]].
  erewrite run_bind_ret;
    [|eapply run_setitem; [eapply heap_store_eq, heap_store_eq, H1
                          | rewrite !length_insert, length_replicate; lia]].
  erewrite run_bind_ret;
    [|eapply run_setitem; [eapply heap_store_eq, heap_store_eq, heap_store_eq, H1
                          | rewrite !length_insert, length_replicate; lia]].
  eexists. split; reflexivity.
Qed.

(** The identity that [_makeDeviceFromHandle] reads out of a UE9 response
    is the one that the enumeration reads out of it. *)
Lemma UE9_fields_returned device rcv w dev w' :
  (b8 ← item rcv 8;
   let device := set_localID (Z.land b8 0xff) device in
   let macAddress := reverse (slice rcv 28 34) in
   serialBytes ← lift (append_chrs [Byte.x10] (drop 3 macAddress));
   serial ← lift (struct_unpack_I_be serialBytes);
   let device := set_serialNumber serial device in
   ipAddress ← for_ [13; 12; 11; 10]%nat
                  (λ j ip, b ← item rcv j; mret (ip +:+ str_int b +:+ "."))
                  ""%string;
   let device := set_ipAddress (strip_last ipAddress) device in
   mret device) w = (Ret dev, w') →
  w' = w ∧
  ∃ lid sn ip,
    result_of (parseUE9 rcv) = Ret (sn, DevInfo LJ_dtUE9 lid sn (Some ip)) ∧
    dev = set_ipAddress ip (set_serialNumber sn (set_localID lid device)).
Proof.
  unfold parseUE9, result_of. cbn [for_].
  unfold item, lift, mbind, M_bind, mret, M_ret, raise.
  destruct (rcv !! 8%nat) as [b8|]; [|intros H; discriminate H].
  destruct (append_chrs [Byte.x10] (drop 3 (reverse (slice rcv 28 34))))
    as [sb|]; [|intros H; discriminate H].
  destruct (struct_unpack_I_be sb) as [sn|]; [|intros H; discriminate H].
  destruct (rcv !! 13%nat) as [b13|]; [|intros H; discriminate H].
  destruct (rcv !! 12%nat) as [b12|]; [|intros H; discriminate H].
  destruct (rcv !! 11%nat) as [b11|]; [|intros H; discriminate H].
  destruct (rcv !! 10%nat) as [b10|]; [|intros H; discriminate H].
  intros [= <- <-]. split; [reflexivity|].
  eexists _, _, _. split; reflexivity.
Qed.

Lemma UE9_fields_silent device rcv :
  adds is_session 0
    (b8 ← item rcv 8;
     let device := set_localID (Z.land b8 0xff) device in
     let macAddress := reverse (slice rcv 28 34) in
     serialBytes ← lift (append_chrs [Byte.x10] (drop 3 macAddress));
     serial ← lift (struct_unpack_I_be serialBytes);
     let device := set_serialNumber serial device in
     ipAddress ← for_ [13; 12; 11; 10]%nat
                    (λ j ip, b ← item rcv j; mret (ip +:+ str_int b +:+ "."))
                    ""%string;
     let device := set_ipAddress (strip_last ipAddress) device in
     mret device).
Proof. cbv zeta. adds_auto. Qed.

Lemma fill_in_returned device rcv w dev w' :
  fill_in device rcv w = (Ret dev, w') →
  w' = w ∧
  ∃ lid sn,
    result_of (parseU3 rcv) = Ret (sn, DevInfo LJ_dtU3 lid sn None) ∧
    dev = set_ipAddress "" (set_serialNumber sn (set_localID lid device)).
Proof.
  unfold fill_in, parseU3, result_of.
  unfold item, lift, mbind, M_bind, mret, M_ret, raise.
  destruct (rcv !! 21%nat) as [b21|]; [|intros H; discriminate H].
  destruct (struct_pack_BBBB_unpack_I_le (slice rcv 15 19)) as [sn|];
    [|intros H; discriminate H].
  intros [= <- <-]. split; [reflexivity|].
  eexists _, _. split; reflexivity.
Qed.

Lemma fill_in_raised device rcv w e w' :
  fill_in device rcv w = (Raise e, w') → w' = w ∧ is_LabJackException e = false.
Proof.
  unfold fill_in.
  unfold item, lift, mbind, M_bind, mret, M_ret, raise.
  destruct (rcv !! 21%nat) as [b21|].
  - unfold struct_pack_BBBB_unpack_I_le.
    destruct (slice rcv 15 19) as [|x0 [|x1 [|x2 [|x3 [|? ?]]]]];
      try (intros [= <- <-]; split; reflexivity).
    destruct (struct_pack_B [x0; x1; x2; x3]) as [s|e0] eqn:Hs.
    + destruct s as [|y0 [|y1 [|y2 [|y3 [|? ?]]]]];
        intros H; try discriminate H; injection H as <- <-; split; reflexivity.
    + intros [= <- <-]. split; [reflexivity|].
      cbn [struct_pack_B] in Hs.
      repeat match type of Hs with
             | context [decide ?P] => destruct (decide P)
             | context [Byte.of_N ?n] => destruct (Byte.of_N n)
             end; try discriminate Hs; injection Hs as <-; reflexivity.
  - intros [= <- <-]. split; reflexivity.
Qed.

(** ** Opening a device: one handle *)

Section UnixOpen.
Context (d : driver) (Hos : os_name d = posix).

Lemma run_close_session self h w :
  Device.handle self = Some (USBHandle h) →
  ∃ self', Device.close d self w = (Ret self', log (EvCloseDevice h) w).
Proof.
  intros Hh. unfold Device.close. rewrite Hos, Hh. eexists. reflexivity.
Qed.

Lemma identified_read parse h n buf nread rcv p :
  result_of (bulk_result buf nread) = Ret rcv →
  result_of (parse rcv) = Ret p →
  identified parse (EvBulkRead h 2 n buf nread) = Some p.
Proof.
  intros Hb Hp. unfold identified.
  rewrite (result_of_bind _ _ (stateless_bulk_result buf nread)), Hb, Hp.
  reflexivity.
Qed.

Lemma make_UE9_spec h w o w' :
  _makeDeviceFromHandle_UE9 d h w = (o, w') →
  ∃ evs, trace w' = evs ++ trace w ∧ opened evs = [] ∧
         match o with
         | Ret dev => closed evs = [] ∧
                      identified_as parseUE9 LJ_dtUE9
                        (Some (Device.ipAddress dev)) h evs dev
         | Raise e => closed evs = [h]
         end.
Proof.
  unfold _makeDeviceFromHandle_UE9. cbv zeta.
  edestruct (run_frame4 (A := Device.t) 38 0x89 0x78 0x10 0x01)
    as (w0 & Hrun & Htr); [lia | rewrite Hrun; clear Hrun].
  set (l := length (heap w)). set (device := Device.new (USBHandle h) 9).
  unfold try_except.
  match goal with |- context [match ?body w0 with _ => _ end] =>
    set (B := body) end.
  destruct (B w0) as [[dev|e] w1] eqn:HB.
  - intros [= <- <-]. unfold B in HB.
    apply bind_returns in HB. destruct HB as ([] & wa & Hw & HB).
    apply bind_returns in HB. destruct HB as (rcv & wb & Hr & HB).
    apply UE9_fields_returned in HB.
    destruct HB as (-> & lid & sn & ip & Hp & ->).
    unfold device in Hr. rewrite (run_read_usb d Hos) in Hr.
    injection Hr as Hrcv <-.
    destruct (session_free _ w0 (session_write d device l false false))
      as (evw & Hevw & How & Hcw).
    rewrite Hw in Hevw. cbn [snd] in Hevw.
    rewrite Hevw, Htr in Hrcv.
    eexists (_ :: evw). cbn [trace log]. rewrite Hevw, Htr.
    split; [reflexivity|]. split; [exact How|]. split; [exact Hcw|].
    eexists _, evw, lid, sn. split; [reflexivity|].
    split; [|reflexivity].
    eapply identified_read; [exact Hrcv | exact Hp].
  - assert (HBs : adds is_session 0 B).
    { unfold B. eapply adds_mono;
        [|eapply adds_bind; [apply session_write|intros ?];
          eapply adds_bind; [apply session_read|intros ?];
          apply UE9_fields_silent].
      simpl. lia. }
    destruct (session_free _ w0 HBs) as (evs & Hevs & Ho & Hc).
    rewrite HB in Hevs. cbn [snd] in Hevs.
    destruct (run_close_session device h w1 eq_refl) as (self' & Hcl).
    rewrite (run_bind_ret _ _ _ _ _ Hcl). unfold raise.
    intros [= <- <-].
    exists (EvCloseDevice h :: evs). cbn [trace log]. rewrite Hevs, Htr.
    split; [reflexivity|].
    split; [exact Ho|]. change (closed (?e :: evs)) with (h :: closed evs).
    rewrite Hc. reflexivity.
Qed.

(** The U3 and the U6 branch: the handle is closed when the exchange raises
    a [LabJackException], and only then. *)
Lemma make_U3_U6_spec ty l (checksum : bool) h w0 o w' :
  (rcvDataBuff ←
     try_except
       (Device.write d (Device.new (USBHandle h) ty) l false checksum;;
        Device.read d (Device.new (USBHandle h) ty) 38 false false)
       (λ e, if is_LabJackException e
             then Device.close d (Device.new (USBHandle h) ty);; raise e
             else raise e);
   fill_in (Device.new (USBHandle h) ty) rcvDataBuff) w0 = (o, w') →
  ∃ evs, trace w' = evs ++ trace w0 ∧ opened evs = [] ∧
         match o with
         | Ret dev => closed evs = [] ∧ identified_as parseU3 LJ_dtU3 None h evs
                        (Device.Make (Device.handle dev) (Device.localID dev)
                           (Device.serialNumber dev) (Device.ipAddress dev)
                           (Some LJ_dtU3) (Device.debug dev)) ∧
                      Device.devType dev = Some ty
         | Raise e => closed evs = if is_LabJackException e then [h] else []
         end.
Proof.
  set (device := Device.new (USBHandle h) ty).
  rewrite run_bind. unfold try_except.
  match goal with |- context [match ?body w0 with _ => _ end] =>
    set (B := body) end.
  assert (HBs : adds is_session 0 B).
  { unfold B. eapply adds_mono;
      [|eapply adds_bind; [apply session_write|intros ?]; apply session_read].
    simpl. lia. }
  destruct (session_free _ w0 HBs) as (evs & Hevs & Ho & Hc).
  destruct (B w0) as [[rcv|e] w1] eqn:HB; cbn [snd] in Hevs.
  - destruct (fill_in device rcv w1) as [[dev|e] w2] eqn:Hf.
    + intros [= <- <-].
      apply fill_in_returned in Hf. destruct Hf as (-> & lid & sn & Hp & ->).
      unfold B in HB.
      apply bind_returns in HB. destruct HB as ([] & wa & Hw & Hr).
      unfold device in Hr. rewrite (run_read_usb d Hos) in Hr.
    injection Hr as Hrcv <-.
      destruct (session_free _ w0 (session_write d device l false checksum))
        as (evw & Hevw & How & Hcw).
      rewrite Hw in Hevw. cbn [snd] in Hevw.
      rewrite Hevw in Hrcv.
      eexists (_ :: evw). cbn [trace log]. rewrite Hevw.
      split; [reflexivity|]. split; [exact How|]. split; [exact Hcw|].
      split; [|reflexivity].
      eexists _, evw, lid, sn. split; [reflexivity|].
      split; [|reflexivity].
      eapply identified_read; [exact Hrcv | exact Hp].
    + intros [= <- <-].
      apply fill_in_raised in Hf. destruct Hf as (-> & ->).
      exists evs. split; [exact Hevs|]. split; [exact Ho | exact Hc].
  - destruct (is_LabJackException e) eqn:He.
    + destruct (run_close_session device h w1 eq_refl) as (self' & Hcl).
      rewrite (run_bind_ret _ _ _ _ _ Hcl). unfold raise.
      intros [= <- <-]. rewrite He.
      exists (EvCloseDevice h :: evs). cbn [trace log]. rewrite Hevs.
      split; [reflexivity|].
      split; [exact Ho|]. change (closed (?e :: evs)) with (h :: closed evs).
      rewrite Hc. reflexivity.
    + unfold raise. intros [= <- <-]. rewrite He.
      exists evs. split; [exact Hevs|]. split; [exact Ho | exact Hc].
Qed.

Lemma make_U3_spec h w o w' :
  _makeDeviceFromHandle_U3 d h w = (o, w') →
  ∃ evs, trace w' = evs ++ trace w ∧ opened evs = [] ∧
         match o with
         | Ret dev => closed evs = [] ∧ identified_as parseU3 LJ_dtU3 None h evs dev
         | Raise e => closed evs = if is_LabJackException e then [h] else []
         end.
Proof.
  unfold _makeDeviceFromHandle_U3. cbv zeta.
  edestruct (run_frame4 (A := Device.t) 26 0x0b 0xf8 0x0a 0x08)
    as (w0 & Hrun & Htr); [lia | rewrite Hrun; clear Hrun].
  intros H. apply make_U3_U6_spec in H.
  destruct H as (evs & Hevs & Ho & H). exists evs. rewrite <- Htr.
  split; [exact Hevs|]. split; [exact Ho|].
  destruct o as [dev|e]; [|exact H].
  destruct H as (Hc & (ev & rest & lid & sn & -> & Hid & Hdev) & Hty).
  split; [exact Hc|]. exists ev, rest, lid, sn.
  split; [reflexivity|]. split; [exact Hid|].
  destruct dev. cbn in Hdev, Hty. injection Hdev as -> -> -> -> ->.
  rewrite Hty. reflexivity.
Qed.

Lemma make_U6_spec h w o w' :
  _makeDeviceFromHandle_U6 d h w = (o, w') →
  ∃ evs, trace w' = evs ++ trace w ∧ opened evs = [] ∧
         match o with
         | Ret dev => closed evs = [] ∧
                      ∃ lid sn, dev = Device.Make (Some (USBHandle h)) (Some lid)
                                        (Some sn) "" (Some 6) false
         | Raise e => closed evs = if is_LabJackException e then [h] else []
         end.
Proof.
  unfold _makeDeviceFromHandle_U6. cbv zeta.
  edestruct (run_frame3 (A := Device.t) 26 0xF8 0x0A 0x08)
    as (w0 & Hrun & Htr); [lia | rewrite Hrun; clear Hrun].
  intros H. apply make_U3_U6_spec in H.
  destruct H as (evs & Hevs & Ho & H). exists evs. rewrite <- Htr.
  split; [exact Hevs|]. split; [exact Ho|].
  destruct o as [dev|e]; [|exact H].
  destruct H as (Hc & (ev & rest & lid & sn & -> & Hid & Hdev) & Hty).
  split; [exact Hc|]. exists lid, sn.
  destruct dev. cbn in Hdev, Hty. injection Hdev as -> -> -> -> ->.
  rewrite Hty. reflexivity.
Qed.

Lemma make_spec h ty w o w' :
  _makeDeviceFromHandle d h ty w = (o, w') →
  ∃ evs, trace w' = evs ++ trace w ∧ opened evs = [] ∧
         match o with
         | Ret (Some dev) =>
             closed evs = [] ∧ fresh_session h ty dev ∧
             (ty = LJ_dtUE9 ∨ ty = LJ_dtU3 ∨ ty = 6)
         | Ret None => closed evs = [] ∧ ty ≠ LJ_dtUE9
         | Raise e => ty = LJ_dtUE9 → closed evs = [h]
         end.
Proof.
  unfold _makeDeviceFromHandle.
  destruct (decide (ty = LJ_dtUE9)) as [->|H9];
    [|destruct (decide (ty = LJ_dtU3)) as [->|H3];
      [|destruct (decide (ty = 6)) as [->|H6]]].
  - rewrite run_bind.
    destruct (_makeDeviceFromHandle_UE9 d h w) as [[dev|e] w1] eqn:Hm;
      intros [= <- <-]; apply make_UE9_spec in Hm;
      destruct Hm as (evs & Hevs & Ho & H); exists evs;
      (split; [exact Hevs|]); (split; [exact Ho|]).
    + destruct H as (Hc & ev & rest & lid & sn & -> & Hid & Hdev).
      split; [exact Hc|]. split; [|left; reflexivity].
      exists lid, sn. rewrite Hdev at 1. cbn. rewrite Hdev. reflexivity.
    + intros _. exact H.
  - rewrite run_bind.
    destruct (_makeDeviceFromHandle_U3 d h w) as [[dev|e] w1] eqn:Hm;
      intros [= <- <-]; apply make_U3_spec in Hm;
      destruct Hm as (evs & Hevs & Ho & H); exists evs;
      (split; [exact Hevs|]); (split; [exact Ho|]).
    + destruct H as (Hc & ev & rest & lid & sn & -> & Hid & Hdev).
      split; [exact Hc|]. split; [|right; left; reflexivity].
      exists lid, sn. rewrite Hdev at 1. cbn. rewrite Hdev. reflexivity.
    + intros E. discriminate E.
  - rewrite run_bind.
    destruct (_makeDeviceFromHandle_U6 d h w) as [[dev|e] w1] eqn:Hm;
      intros [= <- <-]; apply make_U6_spec in Hm;
      destruct Hm as (evs & Hevs & Ho & H); exists evs;
      (split; [exact Hevs|]); (split; [exact Ho|]).
    + destruct H as (Hc & lid & sn & Hdev).
      split; [exact Hc|]. split; [|right; right; reflexivity].
      exists lid, sn. rewrite Hdev at 1. cbn. rewrite Hdev. reflexivity.
    + intros E. discriminate E.
  - intros [= <- <-]. exists []. split; [reflexivity|].
    split; [reflexivity|]. split; [reflexivity | exact H9].
Qed.

(** The guarded identification never raises.  A device comes with a
    positive handle that is still open; a failed UE9 identification has
    closed the handle. *)
Lemma attempt_spec h ty w :
  ∃ r w' evs,
    attempt d h ty w = (Ret r, w') ∧ trace w' = evs ++ trace w ∧
    opened evs = [] ∧
    match r with
    | inr dev => 0 < h ∧ closed evs = [] ∧ fresh_session h ty dev ∧
                 (ty = LJ_dtUE9 ∨ ty = LJ_dtU3 ∨ ty = 6)
    | inl c => ty = LJ_dtUE9 → closed evs = if decide (0 < h) then [h] else []
    end.
Proof.
  unfold attempt. destruct (decide (h ≤ 0)) as [Hh|Hh].
  { eexists _, _, []. split; [reflexivity|]. split; [reflexivity|].
    split; [reflexivity|]. intros _.
    destruct (decide (0 < h)); [lia | reflexivity]. }
  unfold try_except. rewrite run_bind.
  destruct (_makeDeviceFromHandle d h ty w) as [[[dev|]|e] w1] eqn:Hm;
    apply make_spec in Hm; destruct Hm as (evs & Hevs & Ho & H);
    eexists _, _, evs; (split; [reflexivity|]); (split; [exact Hevs|]);
    (split; [exact Ho|]).
  - destruct H as (Hc & Hf & Hty). split; [lia|]. split; [exact Hc|].
    split; [exact Hf | exact Hty].
  - intros E. destruct H as [_ H]. contradiction.
  - intros E. destruct (decide (0 < h)); [|lia]. exact (H E).
Qed.

End UnixOpen.

(** ** Opening a device: the three modes *)

Section UnixOpenModes.
Context (d : driver) (Hos : os_name d = posix).

Lemma not_found_posix :
  LabJackException_ec d LJE_LABJACK_NOT_FOUND = LabJackException (EcInt 1007) "1007".
Proof. unfold LabJackException_ec. rewrite Hos. reflexivity. Qed.

Lemma filter_positive_one (h : Z) :
  base.filter (λ x, 0 < x) [h] = if decide (0 < h) then [h] else [].
Proof.
  destruct (decide (0 < h)) as [H|H].
  - rewrite filter_cons_True by exact H. reflexivity.
  - rewrite filter_cons_False by exact H. reflexivity.
Qed.

Lemma bind_assoc_run {A B C} (m : M A) (k : A → M B) (k' : B → M C) w :
  ((m ≫= k) ≫= k') w = (m ≫= λ a, k a ≫= k') w.
Proof.
  rewrite !run_bind. destruct (m w) as [[a|e] w1]; [rewrite run_bind|];
    reflexivity.
Qed.

Lemma fresh_session_handle h ty dev :
  fresh_session h ty dev → Device.handle dev = Some (USBHandle h).
Proof. intros (lid & sn & ->). reflexivity. Qed.

(** One handle, opened and tried: what the three modes have in common. *)
Lemma open_attempt_spec n ty w :
  ∃ h r w' evs,
    (handle ← OpenDevice d n 0 ty; attempt d handle ty) w = (Ret r, w') ∧
    trace w' = evs ++ trace w ∧ opened evs = [h] ∧
    match r with
    | inr dev => 0 < h ∧ closed evs = [] ∧ fresh_session h ty dev ∧
                 (ty = LJ_dtUE9 ∨ ty = LJ_dtU3 ∨ ty = 6)
    | inl c => ty = LJ_dtUE9 → closed evs = if decide (0 < h) then [h] else []
    end.
Proof.
  set (h := LJUSB_OpenDevice d (trace w) n 0 ty).
  rewrite (run_bind_ret _ _ w h (log (EvOpenDevice n 0 ty h) w)) by reflexivity.
  destruct (attempt_spec d Hos h ty (log (EvOpenDevice n 0 ty h) w))
    as (r & w' & evs & Hrun & Htr & Ho & Hr).
  exists h, r, w', (evs ++ [EvOpenDevice n 0 ty h]).
  split; [exact Hrun|]. split; [rewrite Htr, <- app_assoc; reflexivity|].
  rewrite opened_app, closed_app, Ho, app_nil_r.
  split; [reflexivity|]. exact Hr.
Qed.

(** The search loop.  It returns a matching session that is still open, or
    raises "not found"; for a UE9 the positive handles it was given are the
    ones it has closed, the returned one apart. *)
Lemma search_spec ty p cands : ∀ w,
  ∃ o w' evs,
    search d ty p cands w = (o, w') ∧ trace w' = evs ++ trace w ∧
    match o with
    | Ret dev =>
        ∃ h, 0 < h ∧ fresh_session h ty dev ∧
             (ty = LJ_dtUE9 ∨ ty = LJ_dtU3 ∨ ty = 6) ∧
             matches dev p = true ∧
             (ty = LJ_dtUE9 →
              base.filter (λ x, 0 < x) (opened evs) = h :: closed evs)
    | Raise e =>
        e = LabJackException (EcInt 1007) "1007" ∧
        (ty = LJ_dtUE9 → base.filter (λ x, 0 < x) (opened evs) = closed evs)
    end.
Proof.
  induction cands as [|i rest IH]; intros w; cbn [search].
  { eexists _, _, []. split; [reflexivity|]. split; [reflexivity|].
    split; [apply not_found_posix | intros _; reflexivity]. }
  destruct (open_attempt_spec (Z.of_nat i + 1) ty w)
    as (h & r & w1 & eva & Hrun & Htr & Ho & Hr).
  rewrite <- (bind_assoc_run (OpenDevice d (Z.of_nat i + 1) 0 ty)
                (λ handle, attempt d handle ty) _ w).
  rewrite (run_bind_ret _ _ _ _ _ Hrun).
  destruct r as [c|dev].
  - destruct (IH w1) as (o & w2 & evr & Hs & Htr2 & Hres).
    exists o, w2, (evr ++ eva). split; [exact Hs|].
    split; [rewrite Htr2, Htr, app_assoc; reflexivity|].
    rewrite opened_app, closed_app, filter_app, Ho, filter_positive_one.
    destruct o as [dev|e].
    + destruct Hres as (h' & Hh' & Hf & Hty & Hm & Hacc).
      exists h'. repeat (split; [assumption|]).
      intros E. rewrite (Hacc E), (Hr E). reflexivity.
    + destruct Hres as (He & Hacc). split; [exact He|].
      intros E. rewrite (Hacc E), (Hr E). reflexivity.
  - destruct Hr as (Hh & Hc & Hf & Hty).
    destruct (matches dev p) eqn:Hm.
    + eexists _, _, eva. split; [reflexivity|]. split; [exact Htr|].
      exists h. repeat (split; [assumption|]).
      intros _. rewrite Ho, Hc, filter_positive_one.
      destruct (decide (0 < h)); [reflexivity | lia].
    + destruct (run_close_session d Hos dev h w1 (fresh_session_handle _ _ _ Hf))
        as (self' & Hcl).
      rewrite (run_bind_ret _ _ _ _ _ Hcl).
      destruct (IH (log (EvCloseDevice h) w1)) as (o & w2 & evr & Hs & Htr2 & Hres).
      exists o, w2, (evr ++ EvCloseDevice h :: eva). split; [exact Hs|].
      split; [rewrite Htr2; cbn [trace log]; rewrite Htr, <- app_assoc;
              reflexivity|].
      rewrite opened_app, closed_app, filter_app.
      change (opened (EvCloseDevice h :: eva)) with (opened eva).
      change (closed (EvCloseDevice h :: eva)) with (h :: closed eva).
      rewrite Ho, Hc, filter_positive_one.
      destruct (decide (0 < h)); [|lia].
      destruct o as [dev'|e].
      * destruct Hres as (h' & Hh' & Hf' & Hty' & Hm' & Hacc).
        exists h'. repeat (split; [assumption|]).
        intros E. rewrite (Hacc E). reflexivity.
      * destruct Hres as (He & Hacc). split; [exact He|].
        intros E. rewrite (Hacc E). reflexivity.
Qed.

End UnixOpenModes.

(** ** Opening a device: what a caller can rely on *)

(** The three modes of [openLabJack] over USB on Unix at once. *)
Lemma openLabJack_USB_spec d ty firstFound p devNumber w :
  os_name d = posix →
  ∃ o w' evs,
    openLabJack_USB d ty firstFound p devNumber w = (o, w') ∧
    trace w' = evs ++ trace w ∧
    match o with
    | Ret dev =>
        ∃ h, 0 < h ∧ fresh_session h ty dev ∧
             (ty = LJ_dtUE9 ∨ ty = LJ_dtU3 ∨ ty = 6) ∧
             (devNumber = None → firstFound = false → matches dev p = true) ∧
             (ty = LJ_dtUE9 →
              base.filter (λ x, 0 < x) (opened evs) = h :: closed evs)
    | Raise e =>
        e = LabJackException (EcInt 1007) "1007" ∧
        (ty = LJ_dtUE9 → base.filter (λ x, 0 < x) (opened evs) = closed evs)
    end.
Proof.
  intros Hos. unfold openLabJack_USB.
  assert (Hone : ∀ n (quiet : bool),
    ∃ o w' evs,
      (handle ← OpenDevice d n 0 ty;
       r ← attempt d handle ty;
       match r with
       | inr device => mret device
       | inl e =>
           if quiet then raise (LabJackException_ec d LJE_LABJACK_NOT_FOUND)
           else print (str_type e +:+ " " +:+ str_caught e);;
                raise (LabJackException_ec d LJE_LABJACK_NOT_FOUND)
       end) w = (o, w') ∧
      trace w' = evs ++ trace w ∧
      match o with
      | Ret dev =>
          ∃ h, 0 < h ∧ fresh_session h ty dev ∧
               (ty = LJ_dtUE9 ∨ ty = LJ_dtU3 ∨ ty = 6) ∧
               (ty = LJ_dtUE9 →
                base.filter (λ x, 0 < x) (opened evs) = h :: closed evs)
      | Raise e =>
          e = LabJackException (EcInt 1007) "1007" ∧
          (ty = LJ_dtUE9 → base.filter (λ x, 0 < x) (opened evs) = closed evs)
      end).
  { intros n quiet.
    destruct (open_attempt_spec d Hos n ty w)
      as (h & r & w1 & eva & Hrun & Htr & Ho & Hr).
    rewrite <- (bind_assoc_run (OpenDevice d n 0 ty)
                  (λ handle, attempt d handle ty) _ w).
    rewrite (run_bind_ret _ _ _ _ _ Hrun).
    destruct r as [c|dev].
    - destruct quiet.
      + eexists _, _, eva. split; [reflexivity|]. split; [exact Htr|].
        split; [apply not_found_posix, Hos|].
        intros E. rewrite Ho, filter_positive_one. symmetry. exact (Hr E).
      + rewrite (run_bind_ret _ _ _ tt (log (EvPrint _) w1)) by reflexivity.
        eexists _, _, (_ :: eva). split; [reflexivity|].
        split; [cbn [trace log]; rewrite Htr; reflexivity|].
        split; [apply not_found_posix, Hos|].
        intros E.
        change (opened (EvPrint ?s :: eva)) with (opened eva).
        change (closed (EvPrint ?s :: eva)) with (closed eva).
        rewrite Ho, filter_positive_one. symmetry. exact (Hr E).
    - destruct Hr as (Hh & Hc & Hf & Hty).
      eexists _, _, eva. split; [reflexivity|]. split; [exact Htr|].
      exists h. repeat (split; [assumption|]).
      intros _. rewrite Ho, Hc, filter_positive_one.
      destruct (decide (0 < h)); [reflexivity | lia]. }
  destruct devNumber as [n|]; [|destruct firstFound].
  - destruct (Hone n false) as (o & w' & evs & Hrun & Htr & Hres).
    exists o, w', evs. split; [exact Hrun|]. split; [exact Htr|].
    destruct o as [dev|e]; [|exact Hres].
    destruct Hres as (h & Hh & Hf & Hty & Hacc). exists h.
    repeat (split; [assumption|]). split; [|exact Hacc].
    intros E. discriminate E.
  - destruct (Hone 1 true) as (o & w' & evs & Hrun & Htr & Hres).
    exists o, w', evs. split; [exact Hrun|]. split; [exact Htr|].
    destruct o as [dev|e]; [|exact Hres].
    destruct Hres as (h & Hh & Hf & Hty & Hacc). exists h.
    repeat (split; [assumption|]). split; [|exact Hacc].
    intros _ E. discriminate E.
  - set (n := LJUSB_GetDevCount d (trace w) ty).
    rewrite (run_bind_ret _ _ w n (log (EvGetDevCount ty n) w)) by reflexivity.
    destruct (search_spec d Hos ty p (range 0 (Z.to_nat n))
                (log (EvGetDevCount ty n) w))
      as (o & w' & evs & Hrun & Htr & Hres).
    exists o, w', (evs ++ [EvGetDevCount ty n]). split; [exact Hrun|].
    split; [rewrite Htr, <- app_assoc; reflexivity|].
    rewrite opened_app, closed_app, !app_nil_r.
    destruct o as [dev|e]; [|exact Hres].
    destruct Hres as (h & Hh & Hf & Hty & Hm & Hacc). exists h.
    repeat (split; [assumption|]). split; [|exact Hacc].
    intros _ _. exact Hm.
Qed.

(** X17: over USB on Unix [openLabJack] either returns an open session or
    raises [LabJackException(1007)] (LABJACK_NOT_FOUND); no other exception
    gets out, whatever the driver and the device answer.  A returned session
    is on a positive handle, for a UE9, U3 or U6, with its local ID and
    serial number filled in; in the search mode it matches [pAddress]. *)
Theorem openLabJack_USB_opens_or_not_found d deviceType firstFound pAddress
    devNumber w :
  os_name d = posix →
  match (openLabJack_USB d deviceType firstFound pAddress devNumber w).1 with
  | Ret dev =>
      ∃ h, 0 < h ∧ fresh_session h deviceType dev ∧
           (deviceType = LJ_dtUE9 ∨ deviceType = LJ_dtU3 ∨ deviceType = 6) ∧
           (devNumber = None → firstFound = false → matches dev pAddress = true)
  | Raise e => e = LabJackException (EcInt 1007) "1007"
  end.
Proof.
  intros Hos.
  destruct (openLabJack_USB_spec d deviceType firstFound pAddress devNumber w Hos)
    as (o & w' & evs & -> & _ & Hres).
  cbn [fst]. destruct o as [dev|e].
  - destruct Hres as (h & Hh & Hf & Hty & Hm & _). exists h.
    repeat (split; [assumption|]). exact Hm.
  - apply Hres.
Qed.

Lemma openLabJack_USB_opens_or_not_found_witness :
  match (openLabJack_USB
           (scripted posix [AInt 1; AInt 11; AInt 38; ABuf (ue9_response 1 2 3) 38])
           LJ_dtUE9 false (PyInt 7) None (World [] [])).1 with
  | Ret dev =>
      ∃ h, 0 < h ∧ fresh_session h LJ_dtUE9 dev ∧
           (LJ_dtUE9 = LJ_dtUE9 ∨ LJ_dtUE9 = LJ_dtU3 ∨ LJ_dtUE9 = 6) ∧
           (@None Z = None → false = false → matches dev (PyInt 7) = true)
  | Raise e => e = LabJackException (EcInt 1007) "1007"
  end.
Proof.
  apply (openLabJack_USB_opens_or_not_found
           (scripted posix [AInt 1; AInt 11; AInt 38; ABuf (ue9_response 1 2 3) 38])
           LJ_dtUE9 false (PyInt 7) None (World [] [])).
  reflexivity.
Defined.


(** X18: opening a UE9 over USB on Unix leaks no handle.  Whatever the mode
    and the answers, the positive handles that the driver gave during the
    call are exactly the handles closed during it, in the same order, plus
    the handle of the returned session when there is one. *)
Theorem openLabJack_UE9_releases_handles d firstFound pAddress devNumber w :
  os_name d = posix →
  let run := openLabJack_USB d LJ_dtUE9 firstFound pAddress devNumber w in
  ∃ evs,
    trace run.2 = evs ++ trace w ∧
    match run.1 with
    | Ret dev =>
        ∃ h, Device.handle dev = Some (USBHandle h) ∧
             base.filter (λ x, 0 < x) (opened evs) = h :: closed evs
    | Raise _ => base.filter (λ x, 0 < x) (opened evs) = closed evs
    end.
Proof.
  intros Hos. cbv zeta.
  destruct (openLabJack_USB_spec d LJ_dtUE9 firstFound pAddress devNumber w Hos)
    as (o & w' & evs & -> & Htr & Hres).
  cbn [fst snd]. exists evs. split; [exact Htr|].
  destruct o as [dev|e].
  - destruct Hres as (h & _ & Hf & _ & _ & Hacc). exists h.
    split; [eapply fresh_session_handle, Hf | exact (Hacc eq_refl)].
  - exact (proj2 Hres eq_refl).
Qed.

Lemma openLabJack_UE9_releases_handles_witness :
  let run := openLabJack_USB
               (scripted posix [AInt 1; AInt 11; AInt 38; ABuf (ue9_response 1 2 3) 38])
               LJ_dtUE9 false (PyInt 8) None (World [] []) in
  ∃ evs,
    trace run.2 = evs ++ trace (World [] []) ∧
    match run.1 with
    | Ret dev =>
        ∃ h, Device.handle dev = Some (USBHandle h) ∧
             base.filter (λ x, 0 < x) (opened evs) = h :: closed evs
    | Raise _ => base.filter (λ x, 0 < x) (opened evs) = closed evs
    end.
Proof.
  apply (openLabJack_UE9_releases_handles
           (scripted posix [AInt 1; AInt 11; AInt 38; ABuf (ue9_response 1 2 3) 38])
           false (PyInt 8) None (World [] [])).
  reflexivity.
Defined.


(** X19: [_makeDeviceFromHandle] and the enumeration read the same identity
    out of a response.  When it returns a UE9 (a U3) session, the last
    event is the bulk read, and [__listAllUE9Unix] ([__listAllU3Unix])
    would enter that response under the serial number, with the local ID
    and the address, that the session carries. *)
Theorem makeDeviceFromHandle_agrees_with_listAll d h deviceType w dev w' :
  os_name d = posix →
  _makeDeviceFromHandle d h deviceType w = (Ret (Some dev), w') →
  (deviceType = LJ_dtUE9 →
   ∃ ev rest lid sn ip,
     trace w' = ev :: rest ∧
     identified parseUE9 ev = Some (sn, DevInfo LJ_dtUE9 lid sn (Some ip)) ∧
     dev = Device.Make (Some (USBHandle h)) (Some lid) (Some sn) ip
             (Some LJ_dtUE9) false) ∧
  (deviceType = LJ_dtU3 →
   ∃ ev rest lid sn,
     trace w' = ev :: rest ∧
     identified parseU3 ev = Some (sn, DevInfo LJ_dtU3 lid sn None) ∧
     dev = Device.Make (Some (USBHandle h)) (Some lid) (Some sn) ""
             (Some LJ_dtU3) false).
Proof.
  intros Hos Hrun. split; intros ->.
  - unfold _makeDeviceFromHandle in Hrun.
    destruct (decide (LJ_dtUE9 = LJ_dtUE9)) as [_|N]; [|contradiction].
    apply bind_returns in Hrun. destruct Hrun as (dev0 & w1 & Hm & Hr).
    injection Hr as -> ->.
    apply (make_UE9_spec d Hos) in Hm.
    destruct Hm as (evs & Htr & _ & _ & ev & rest & lid & sn & -> & Hid & Hdev).
    exists ev, (rest ++ trace w), lid, sn, (Device.ipAddress dev).
    split; [exact Htr|]. split; [exact Hid | exact Hdev].
  - unfold _makeDeviceFromHandle in Hrun.
    destruct (decide (LJ_dtU3 = LJ_dtUE9)) as [N|_]; [discriminate N|].
    destruct (decide (LJ_dtU3 = LJ_dtU3)) as [_|N]; [|contradiction].
    apply bind_returns in Hrun. destruct Hrun as (dev0 & w1 & Hm & Hr).
    injection Hr as -> ->.
    apply (make_U3_spec d Hos) in Hm.
    destruct Hm as (evs & Htr & _ & _ & ev & rest & lid & sn & -> & Hid & Hdev).
    exists ev, (rest ++ trace w), lid, sn.
    split; [exact Htr|]. split; [exact Hid | exact Hdev].
Qed.

Lemma makeDeviceFromHandle_agrees_with_listAll_witness :
  let d := scripted posix [AInt 38; ABuf (ue9_response 1 2 3) 38] in
  let dev := Device.Make (Some (USBHandle 5)) (Some 7) (Some 0x10010203)
               "192.168.1.209" (Some LJ_dtUE9) false in
  let w' := (_makeDeviceFromHandle d 5 LJ_dtUE9 (World [] [])).2 in
  (LJ_dtUE9 = LJ_dtUE9 →
   ∃ ev rest lid sn ip,
     trace w' = ev :: rest ∧
     identified parseUE9 ev = Some (sn, DevInfo LJ_dtUE9 lid sn (Some ip)) ∧
     dev = Device.Make (Some (USBHandle 5)) (Some lid) (Some sn) ip
             (Some LJ_dtUE9) false) ∧
  (LJ_dtUE9 = LJ_dtU3 →
   ∃ ev rest lid sn,
     trace w' = ev :: rest ∧
     identified parseU3 ev = Some (sn, DevInfo LJ_dtU3 lid sn None) ∧
     dev = Device.Make (Some (USBHandle 5)) (Some lid) (Some sn) ""
             (Some LJ_dtU3) false).
Proof.
  cbv zeta.
  apply (makeDeviceFromHandle_agrees_with_listAll
           (scripted posix [AInt 38; ABuf (ue9_response 1 2 3) 38]) 5 LJ_dtUE9
           (World [] [])).
  - reflexivity.
  - vm_compute. reflexivity.
Defined.


(** X20: when [_makeDeviceFromHandle] fails, the UE9 branch has closed the
    handle, whatever was raised; the U3 and the U6 branch close it only for
    a [LabJackException], so that a response too short to parse leaves the
    handle open. *)
Theorem makeDeviceFromHandle_failure_and_handle d h deviceType w e w' :
  os_name d = posix →
  _makeDeviceFromHandle d h deviceType w = (Raise e, w') →
  ∃ evs, trace w' = evs ++ trace w ∧ opened evs = [] ∧
         closed evs = if bool_decide (deviceType = LJ_dtUE9) ||
                         is_LabJackException e
                      then [h] else [].
Proof.
  intros Hos. unfold _makeDeviceFromHandle.
  destruct (decide (deviceType = LJ_dtUE9)) as [->|H9];
    [|destruct (decide (deviceType = LJ_dtU3)) as [->|H3];
      [|destruct (decide (deviceType = 6)) as [->|H6]]].
  - intros Hrun. apply bind_raises in Hrun.
    destruct Hrun as [Hm|(dev & w1 & _ & Hr)]; [|discriminate Hr].
    apply (make_UE9_spec d Hos) in Hm. exact Hm.
  - intros Hrun. apply bind_raises in Hrun.
    destruct Hrun as [Hm|(dev & w1 & _ & Hr)]; [|discriminate Hr].
    apply (make_U3_spec d Hos) in Hm. exact Hm.
  - intros Hrun. apply bind_raises in Hrun.
    destruct Hrun as [Hm|(dev & w1 & _ & Hr)]; [|discriminate Hr].
    apply (make_U6_spec d Hos) in Hm. exact Hm.
  - intros Hrun. discriminate Hrun.
Qed.

Lemma makeDeviceFromHandle_failure_and_handle_witness :
  let d := scripted posix [AInt 26; ABuf [] 0] in
  let w' := (_makeDeviceFromHandle d 5 LJ_dtU3 (World [] [])).2 in
  ∃ evs, trace w' = evs ++ trace (World [] []) ∧ opened evs = [] ∧
         closed evs = if bool_decide (LJ_dtU3 = LJ_dtUE9) ||
                         is_LabJackException (IndexError "list index out of range")
                      then [5] else [].
Proof.
  cbv zeta.
  apply (makeDeviceFromHandle_failure_and_handle
           (scripted posix [AInt 26; ABuf [] 0]) 5 LJ_dtU3 (World [] [])).
  - reflexivity.
  - vm_compute. reflexivity.
Defined.


(** ** Register access over USB on Unix *)

Lemma read_usb_raises d h self n stream modbus w e w' :
  os_name d = posix → Device.handle self = Some (USBHandle h) →
  Device.read d self n stream modbus w = (Raise e, w') →
  e = IndexError "invalid index".
Proof.
  intros Hos Hh. unfold Device.read. rewrite Hh, Hos.
  rewrite run_bind. unfold BulkRead. cbn [fst snd].
  rewrite run_bulk_result.
  destruct (decide _); intros H; [discriminate H|].
  injection H as <- _. reflexivity.
Qed.

(** X21: over USB on Unix the retry of [_modbusWriteRead] is dead code.  A
    read there can only fail with an [IndexError], never with the
    [LabJackException] that triggers the retry, so the operation is one
    write followed by one read: it transmits at most once and receives at
    most once. *)
Theorem modbusWriteRead_usb_single_cycle d self h request numBytes :
  os_name d = posix → Device.handle self = Some (USBHandle h) →
  (∀ w, Device._modbusWriteRead d self request numBytes w
        = (Device.write d self request true false;;
           Device.read d self numBytes false true) w) ∧
  adds is_transmit 1 (Device._modbusWriteRead d self request numBytes) ∧
  adds is_receive 1 (Device._modbusWriteRead d self request numBytes).
Proof.
  intros Hos Hh.
  assert (Heq : ∀ w, Device._modbusWriteRead d self request numBytes w
                     = (Device.write d self request true false;;
                        Device.read d self numBytes false true) w).
  { intros w. unfold Device._modbusWriteRead. rewrite !run_bind.
    destruct (Device.write d self request true false w) as [[[]|e] w1];
      [|reflexivity].
    unfold try_except.
    destruct (Device.read d self numBytes false true w1) as [[r|e] w2] eqn:Hr;
      [reflexivity|].
    rewrite (read_usb_raises _ _ _ _ _ _ _ _ _ Hos Hh Hr). reflexivity. }
  split; [exact Heq|]. split; intros w; rewrite Heq.
  - refine (adds_bind is_transmit 1 0 _ _ (transmit_write d self request true false)
              (λ _, transmit_read d self numBytes false true) w).
  - refine (adds_bind is_receive 0 1 _ _ (receive_write d self request true false)
              (λ _, receive_read d self numBytes false true) w).
Qed.

Lemma modbusWriteRead_usb_single_cycle_witness :
  (∀ w, Device._modbusWriteRead (scripted posix []) ue9_usb 0%nat 9 w
        = (Device.write (scripted posix []) ue9_usb 0%nat true false;;
           Device.read (scripted posix []) ue9_usb 9 false true) w) ∧
  adds is_transmit 1 (Device._modbusWriteRead (scripted posix []) ue9_usb 0%nat 9) ∧
  adds is_receive 1 (Device._modbusWriteRead (scripted posix []) ue9_usb 0%nat 9).
Proof.
  apply (modbusWriteRead_usb_single_cycle (scripted posix []) ue9_usb 5 0%nat 9);
    reflexivity.
Defined.

(** ** ping, for every kind of device *)

(** X22: [Device.ping] never raises, and it can answer [True] for a U3 only.
    For a UE9 the probe is too short for the checksum that [write] applies
    by default, so the answer is always [False]; for any other type there is
    no probe at all: the answer is [False] and nothing is sent, printed or
    allocated. *)
Theorem ping_answers_true_only_for_U3 d self w :
  ∃ b w',
    Device.ping d self w = (Ret b, w') ∧
    (b = true → Device.devType self = Some LJ_dtU3) ∧
    (Device.devType self ≠ Some LJ_dtUE9 →
     Device.devType self ≠ Some LJ_dtU3 → b = false ∧ w' = w).
Proof.
  unfold Device.ping.
  destruct (decide (Device.devType self = Some LJ_dtUE9)) as [H9|H9].
  - set (w1 := set_heap (heap w ++ [[0x70; 0x70]]) w).
    assert (Hl : heap w1 !! length (heap w) = Some [0x70; 0x70])
      by apply heap_alloc_eq.
    assert (Hraise : ∃ e,
      (writeBuffer ← alloc [0x70; 0x70];
       Device.write d self writeBuffer false true;;
       try_except (Device.read d self 2 false false;; mret tt)
         (λ e, if is_LabJackException e
               then Device.write d self writeBuffer false true;;
                    Device.read d self 2 false false;; mret tt
               else raise e);;
       mret true) w = (Raise e, w1)).
    { rewrite (run_bind_ret _ _ w (length (heap w)) w1) by reflexivity.
      unfold Device.write. destruct (Device.handle self) as [h|].
      - eexists. apply run_bind_raise, run_bind_raise, run_bind_raise.
        eapply run_setChecksum_short; [exact Hl | simpl; lia].
      - eexists. apply run_bind_raise. reflexivity. }
    destruct Hraise as (e & Hraise).
    rewrite (run_try_raise _ _ _ _ _ Hraise).
    eexists false, _. split; [reflexivity|].
    split; [intros E; discriminate E | intros N; contradiction].
  - destruct (decide (Device.devType self = Some LJ_dtU3)) as [H3|H3].
    + unfold try_except.
      match goal with |- context [match ?m w with _ => _ end] =>
        destruct (m w) as [[b|e] w1] end.
      * eexists b, w1. split; [reflexivity|].
        split; [intros _; exact H3 | intros _ N; contradiction].
      * eexists false, _. split; [reflexivity|].
        split; [intros E; discriminate E | intros _ N; contradiction].
    + exists false, w. split; [reflexivity|].
      split; [intros E; discriminate E | intros _ _; split; reflexivity].
Qed.

(** ** Connecting a UE9 over TCP *)

(** X23: [UE9TCPHandle(ipAddress)] makes its nine socket calls in order, or
    stops at the first one that fails, prints its message and raises
    "Could not connect to labjack at address: ..." and nothing else.  On
    the failing path the calls before the failure all succeeded and the
    sockets that they opened are not closed. *)
Theorem UE9TCPHandle_init_connects_or_reports d conn ipAddress timeout w :
  let run := UE9TCPHandle_init d conn ipAddress timeout w in
  match run.1 with
  | Ret _ => trace run.2 = connected conn ipAddress timeout ++ trace w
  | Raise e =>
      e = LJE ("Could not connect to labjack at address: " ++ ipAddress) ∧
      ∃ msg ev evs,
        trace run.2 = EvPrint msg :: ev :: evs ++ trace w ∧
        sock_failure ev = Some msg ∧
        evs `suffix_of` connected conn ipAddress timeout ∧
        (length evs < 10)%nat
  end.
Proof.
  cbv zeta.
  unfold UE9TCPHandle_init, try_except, mbind, M_bind, print, socket_, connect,
    settimeout, raise, sock_status.
  cbn [trace log fst snd].
  repeat match goal with
         | |- context [match ?r with Some _ => _ | None => _ end] =>
             destruct r as [msg|] eqn:?; cbn [trace log fst snd]
         end;
    first
      [ reflexivity
      | split; [reflexivity|]; eexists msg, _, _;
        split; [apply (f_equal (cons _)), (f_equal (cons _));
                repeat apply cons_ext; apply nil_ext|];
        split; [reflexivity|];
        split; [|cbn [length]; lia];
        unfold connected;
        repeat first [ reflexivity | apply suffix_cons_r ] ].
Qed.

(** ** What the checksums detect *)

Lemma byte_sum_insert xs : ∀ j x y,
  xs !! j = Some x →
  Spec.byte_sum (<[j := y]> xs) = Spec.byte_sum xs - x + y.
Proof.
  unfold Spec.byte_sum.
  induction xs as [|b xs IH]; intros j x y Hj; [discriminate Hj|].
  destruct j as [|j]; simpl in *.
  - injection Hj as ->. lia.
  - rewrite (IH j x y Hj). lia.
Qed.

(** The sum that the checksum of a frame is made of, before and after one
    item from index [a] on is replaced. *)
Lemma summed_insert f a i x y :
  Forall is_byte f → is_byte y → (a ≤ i)%nat → f !! i = Some x →
  total_from 0 (drop a f) = Spec.byte_sum (drop a f) ∧
  total_from 0 (drop a (<[i := y]> f)) = Spec.byte_sum (drop a f) - x + y ∧
  0 ≤ Spec.byte_sum (drop a f) ≤ 255 * Z.of_nat (length f - a) ∧
  0 ≤ Spec.byte_sum (drop a f) - x + y ≤ 255 * Z.of_nat (length f - a).
Proof.
  intros Hb Hy Hi Hx.
  assert (Hg : Forall is_byte (<[i := y]> f)) by (apply Forall_insert; assumption).
  rewrite !total_from_byte_sum by (apply Forall_drop; assumption).
  rewrite drop_insert_ge by exact Hi.
  rewrite (byte_sum_insert _ _ x) by (rewrite lookup_drop, <- Hx; f_equal; lia).
  pose proof (byte_sum_bound _ (Forall_drop _ a _ Hb)) as B1.
  pose proof (byte_sum_bound _ (Forall_drop _ a _ Hg)) as B2.
  rewrite drop_insert_ge in B2 by exact Hi.
  rewrite (byte_sum_insert _ _ x) in B2
    by (rewrite lookup_drop, <- Hx; f_equal; lia).
  rewrite length_insert in B2. rewrite !length_drop in *.
  split; [lia|]. split; [lia|]. split; [exact B1 | exact B2].
Qed.

Lemma frame8_whole f :
  frame8 f (length f) = <[0%nat := fold8 (fold8 (total_from 0 (drop 1 f)))]> f.
Proof.
  unfold frame8. rewrite take_ge by (rewrite length_drop; lia). reflexivity.
Qed.

(** X24: what the 8-bit checksum of a normal frame detects.  Take a frame
    of 8 to 258 bytes that passes [verifyChecksum] and replace one byte
    after the checksum byte by a different byte (the frame staying a normal
    one).  [verifyChecksum] returns [True] for the changed frame exactly when
    the change swaps 0x00 and 0xFF and the other summed bytes are not all
    zero; every other single-byte change is detected. *)
Theorem verifyChecksum_single_byte_change w l f i x y :
  heap w !! l = Some (<[i := y]> f) →
  Forall is_byte f → is_byte y → (8 ≤ length f ≤ 258)%nat →
  class_nibble f ≠ 15 → class_nibble (<[i := y]> f) ≠ 15 →
  (1 ≤ i)%nat → f !! i = Some x → x ≠ y →
  checks_agree f (checksummed f) = true →
  ∃ b, verifyChecksum l w = (Ret b, store l (checksummed (<[i := y]> f)) w) ∧
       (b = true ↔ Z.abs (x - y) = 255 ∧ Spec.byte_sum (drop 1 f) ≠ x).
Proof.
  intros H Hb Hy Hlen Hcf Hcg Hi Hx Hxy Hvalid.
  set (g := <[i := y]> f) in *.
  assert (Hlg : length g = length f) by apply length_insert.
  rewrite (run_verifyChecksum _ _ _ H) by lia.
  eexists. split; [reflexivity|].
  assert (Hxb : is_byte x) by exact (Forall_lookup_1 _ _ _ _ Hb Hx).
  destruct (summed_insert f 1 i x y Hb Hy Hi Hx) as (Sf & Sg & Bf & Bg).
  fold g in Sg. rewrite Nat2Z.inj_sub in Bf, Bg by lia.
  set (S := Spec.byte_sum (drop 1 f)) in *.
  destruct (fold8_fold8_carry S ltac:(lia)) as (C1 & C2 & C3).
  destruct (fold8_fold8_carry (S - x + y) ltac:(lia)) as (D1 & D2 & D3).
  (* the stored checksum of [f] *)
  assert (Hf0 : f !! 0%nat = Some (fold8 (fold8 S))).
  { unfold checks_agree in Hvalid.
    rewrite !andb_true_iff, !bool_decide_eq_true in Hvalid.
    destruct Hvalid as [[E0 _] _]. rewrite E0. unfold checksummed.
    destruct (decide (class_nibble f = 15)); [contradiction|].
    rewrite frame8_whole, Sf. apply list_lookup_insert_eq. lia. }
  assert (Hg0 : g !! 0%nat = Some (fold8 (fold8 S))).
  { unfold g. rewrite list_lookup_insert_ne by lia. exact Hf0. }
  assert (Hcg0 : checksummed g !! 0%nat = Some (fold8 (fold8 (S - x + y)))).
  { unfold checksummed.
    destruct (decide (class_nibble g = 15)); [contradiction|].
    rewrite frame8_whole, Sg. apply list_lookup_insert_eq. lia. }
  unfold checks_agree.
  rewrite (checksummed_normal g 4) by (assumption || lia).
  rewrite (checksummed_normal g 5) by (assumption || lia).
  rewrite (bool_decide_eq_true_2 (g !! 4%nat = g !! 4%nat)) by reflexivity.
  rewrite (bool_decide_eq_true_2 (g !! 5%nat = g !! 5%nat)) by reflexivity.
  rewrite !andb_true_r, bool_decide_eq_true, Hg0, Hcg0.
  unfold is_byte in Hxb, Hy.
  pose proof (Z.div_mod S 255 ltac:(lia)) as M1.
  pose proof (Z.mod_pos_bound S 255 ltac:(lia)) as M2.
  pose proof (Z.div_mod (S - x + y) 255 ltac:(lia)) as M3.
  pose proof (Z.mod_pos_bound (S - x + y) 255 ltac:(lia)) as M4.
  pose proof (Z.div_mod (fold8 (fold8 S)) 255 ltac:(lia)) as M5.
  pose proof (Z.div_mod (fold8 (fold8 (S - x + y))) 255 ltac:(lia)) as M6.
  rewrite C2 in M5. rewrite D2 in M6.
  split.
  - intros [= E]. rewrite E in M5. split; [lia|].
    intros ES. destruct (decide (x = 0)) as [X0|X0]; lia.
  - intros [Habs HS]. f_equal. lia.
Qed.

Lemma verifyChecksum_single_byte_change_witness :
  ∃ b, verifyChecksum 0%nat (World [[1; 1; 255; 0; 0; 0; 0; 0]] [])
       = (Ret b, store 0%nat
                   (checksummed (<[2%nat := 255]> [1; 1; 0; 0; 0; 0; 0; 0]))
                   (World [[1; 1; 255; 0; 0; 0; 0; 0]] [])) ∧
       (b = true ↔ Z.abs (0 - 255) = 255 ∧
                   Spec.byte_sum (drop 1 [1; 1; 0; 0; 0; 0; 0; 0]) ≠ 0).
Proof.
  apply (verifyChecksum_single_byte_change
           (World [[1; 1; 255; 0; 0; 0; 0; 0]] []) 0%nat
           [1; 1; 0; 0; 0; 0; 0; 0] 2 0 255 eq_refl).
  - repeat (apply Forall_cons_2; [unfold is_byte; lia|]). apply Forall_nil_2.
  - unfold is_byte. lia.
  - simpl. lia.
  - vm_compute. intros E. discriminate E.
  - vm_compute. intros E. discriminate E.
  - lia.
  - reflexivity.
  - lia.
  - vm_compute. reflexivity.
Defined.

(** X25: what the 16-bit checksum of an extended frame detects.  Take an
    extended frame (class nibble 15) that passes [verifyChecksum] and
    replace one byte of its payload (index 6 or more) by a different byte:
    [verifyChecksum] returns [False] for the changed frame, whatever its
    length. *)
Theorem verifyChecksum_detects_payload_change w l f i x y :
  heap w !! l = Some (<[i := y]> f) →
  Forall is_byte f → is_byte y → (8 ≤ length f)%nat →
  class_nibble f = 15 →
  (6 ≤ i)%nat → f !! i = Some x → x ≠ y →
  checks_agree f (checksummed f) = true →
  verifyChecksum l w = (Ret false, store l (checksummed (<[i := y]> f)) w).
Proof.
  intros H Hb Hy Hlen Hcf Hi Hx Hxy Hvalid.
  set (g := <[i := y]> f) in *.
  assert (Hlg : length g = length f) by apply length_insert.
  assert (Hcg : class_nibble g = 15).
  { unfold class_nibble, g. rewrite list_lookup_insert_ne by lia. exact Hcf. }
  rewrite (run_verifyChecksum _ _ _ H) by lia.
  f_equal. f_equal.
  assert (Hxb : is_byte x) by exact (Forall_lookup_1 _ _ _ _ Hb Hx).
  destruct (summed_insert f 6 i x y Hb Hy Hi Hx) as (Sf & Sg & Bf & Bg).
  fold g in Sg.
  set (S := Spec.byte_sum (drop 6 f)) in *.
  assert (H45 : ∀ h, (8 ≤ length h)%nat → class_nibble h = 15 →
            checksummed h !! 4%nat = Some (Z.land (total_from 0 (drop 6 h)) 0xff) ∧
            checksummed h !! 5%nat
            = Some (Z.land (Z.shiftr (total_from 0 (drop 6 h)) 8) 0xff)).
  { intros h Hh Hc. unfold checksummed.
    destruct (decide (class_nibble h = 15)); [|contradiction].
    unfold frame8, frame16. split.
    - rewrite (list_lookup_insert_ne _ 0 4) by lia.
      rewrite (list_lookup_insert_ne _ 5 4) by lia.
      apply list_lookup_insert_eq. lia.
    - rewrite (list_lookup_insert_ne _ 0 5) by lia.
      apply list_lookup_insert_eq. rewrite length_insert. lia. }
  destruct (H45 f Hlen Hcf) as (F4 & F5).
  destruct (H45 g ltac:(lia) Hcg) as (G4 & G5).
  rewrite Sf in F4, F5. rewrite Sg in G4, G5.
  unfold checks_agree in Hvalid.
  rewrite !andb_true_iff, !bool_decide_eq_true in Hvalid.
  destruct Hvalid as [[_ E4] E5]. rewrite F4 in E4. rewrite F5 in E5.
  assert (Hg4 : g !! 4%nat = f !! 4%nat)
    by (unfold g; apply list_lookup_insert_ne; lia).
  assert (Hg5 : g !! 5%nat = f !! 5%nat)
    by (unfold g; apply list_lookup_insert_ne; lia).
  unfold checks_agree. rewrite G4, G5, Hg4, Hg5, E4, E5.
  apply andb_false_iff.
  destruct (decide (Z.land S 0xff = Z.land (S - x + y) 0xff)) as [E|N].
  2:{ left. apply andb_false_iff. right.
      apply bool_decide_eq_false_2. congruence. }
  right. apply bool_decide_eq_false_2. intros [= E'].
  rewrite !land_255_mod in E, E'. rewrite !Z.shiftr_div_pow2 in E' by lia.
  change (2 ^ 8) with 256 in E'.
  unfold is_byte in Hxb, Hy.
  pose proof (Z.div_mod S 256 ltac:(lia)) as M1.
  pose proof (Z.div_mod (S - x + y) 256 ltac:(lia)) as M2.
  pose proof (Z.div_mod (S / 256) 256 ltac:(lia)) as M3.
  pose proof (Z.div_mod ((S - x + y) / 256) 256 ltac:(lia)) as M4.
  rewrite <- E in M2. rewrite <- E' in M4. lia.
Qed.

Lemma verifyChecksum_detects_payload_change_witness :
  verifyChecksum 0%nat (World [[0x79; 0x78; 0; 0; 1; 0; 1; 1]] [])
  = (Ret false,
     store 0%nat (checksummed (<[7%nat := 1]> [0x79; 0x78; 0; 0; 1; 0; 1; 0]))
       (World [[0x79; 0x78; 0; 0; 1; 0; 1; 1]] [])).
Proof.
  apply (verifyChecksum_detects_payload_change
           (World [[0x79; 0x78; 0; 0; 1; 0; 1; 1]] []) 0%nat
           [0x79; 0x78; 0; 0; 1; 0; 1; 0] 7 0 1 eq_refl).
  - repeat (apply Forall_cons_2; [unfold is_byte; lia|]). apply Forall_nil_2.
  - unfold is_byte. lia.
  - simpl. lia.
  - reflexivity.
  - lia.
  - reflexivity.
  - lia.
  - vm_compute. reflexivity.
Defined.

(** ** Response validation: every response *)

(** On fewer than 8 items the verification stops at the first item it
    cannot read, or at the length test of [setChecksum]. *)
Lemma run_verifyChecksum_short_exact w l f :
  heap w !! l = Some f → (1 ≤ length f < 8)%nat →
  verifyChecksum l w
  = (Raise (if decide (length f < 6)%nat
            then IndexError "list index out of range"
            else LJE "Command does not contain enough bytes."), w).
Proof.
  intros H Hlen. unfold verifyChecksum.
  destruct (lookup_lt_is_Some_2 f 0) as [b0 H0]; [lia|].
  rewrite (run_bind_ret _ _ _ _ _ (run_getitem _ _ _ _ _ H H0)).
  destruct (f !! 4%nat) as [b4|] eqn:H4.
  2:{ apply lookup_ge_None_1 in H4. rewrite decide_True by lia.
      apply run_bind_raise. eapply run_getitem_out; [exact H | lia]. }
  rewrite (run_bind_ret _ _ _ _ _ (run_getitem _ _ _ _ _ H H4)).
  destruct (f !! 5%nat) as [b5|] eqn:H5.
  2:{ apply lookup_ge_None_1 in H5. rewrite decide_True by lia.
      apply run_bind_raise. eapply run_getitem_out; [exact H | lia]. }
  rewrite (run_bind_ret _ _ _ _ _ (run_getitem _ _ _ _ _ H H5)).
  apply lookup_lt_Some in H5. rewrite decide_False by lia.
  apply run_bind_raise. eapply run_setChecksum_short; [exact H | lia].
Qed.

(** The echo test and the verification on a short response. *)
Lemma run_echo_short {A} w l f cb (k : bool → M A) :
  heap w !! l = Some f → (1 ≤ length f < 8)%nat →
  (rs ← contents l;
   if decide (slice rs 1 (length cb + 1) ≠ cb)
   then raise (LJE "Got incorrect command bytes.")
   else ok ← verifyChecksum l; k ok) w
  = (Raise (if decide (slice f 1 (length cb + 1) ≠ cb)
            then LJE "Got incorrect command bytes."
            else if decide (length f < 6)%nat
                 then IndexError "list index out of range"
                 else LJE "Command does not contain enough bytes."), w).
Proof.
  intros H Hlen.
  rewrite (run_bind_ret _ _ _ _ _ (run_contents _ _ _ H)).
  destruct (decide (slice f 1 (length cb + 1) ≠ cb)); [reflexivity|].
  apply run_bind_raise, run_verifyChecksum_short_exact; assumption.
Qed.

(** C5, as stated, fails: the four errors and success are not all there
    is.  A response of seven items that does not start with the sentinel
    pair and echoes the command bytes is neither accepted nor refused with
    one of the four errors: [verifyChecksum] raises out of
    [_checkCommandBytes] with the error of [setChecksum]. *)
Lemma checkCommandBytes_fifth_error :
  _checkCommandBytes 0%nat [2; 3] (World [[1; 2; 3; 4; 5; 6; 7]] [])
  = (Raise (LJE "Command does not contain enough bytes."),
     World [[1; 2; 3; 4; 5; 6; 7]] []).
Proof. vm_compute. reflexivity. Qed.

(** C5, amended.  On a response that is a list of at least 8 items
    [_checkCommandBytes] checks in a fixed order and raises a
    [LabJackException] with its own message for each check: first the
    sentinel pair [0xB8, 0xB8] in items 0 and 1 ("Device detected a bad
    checksum."); otherwise the echo [results[1:size+1]] against the command
    bytes ("Got incorrect command bytes."); otherwise [verifyChecksum]
    ("Checksum was incorrect.", and the list then holds the recomputed
    checksum); otherwise the error code at offset 6 ("Command returned with
    error number" and the code); otherwise it returns, with the list as it
    was.  On a list of fewer than 8 items it never returns: the sentinel and
    the echo test come first as far as the items exist, and what would reach
    the verification raises [IndexError] or "Command does not contain enough
    bytes." instead.  On a tuple, which [Device.read] gives over TCP, it
    never returns either.  The five messages are pairwise different. *)
Theorem checkCommandBytes_order w results f commandBytes :
  heap w !! results = Some f →
  let run := _checkCommandBytes results commandBytes w in
  let sentinel := f !! 0%nat = Some 0xB8 ∧ f !! 1%nat = Some 0xB8 in
  let echo := slice f 1 (length commandBytes + 1) in
  let r6 := default 0 (f !! 6%nat) in
  ((8 ≤ length f)%nat →
   run =
   if decide sentinel
   then (Raise (LJE "Device detected a bad checksum."), w)
   else if decide (echo ≠ commandBytes)
   then (Raise (LJE "Got incorrect command bytes."), w)
   else if negb (checks_agree f (checksummed f))
   then (Raise (LJE "Checksum was incorrect."),
         store results (checksummed f) w)
   else if decide (r6 ≠ 0)
   then (Raise (LJE ("Command returned with error number " ++ str_int r6)), w)
   else (Ret tt, w)) ∧
  ((length f < 8)%nat →
   run =
   (Raise (if decide (length f = 0)%nat
           then IndexError "list index out of range"
           else if decide (f !! 0%nat = Some 0xB8 ∧ length f = 1%nat)
           then IndexError "list index out of range"
           else if decide sentinel
           then LJE "Device detected a bad checksum."
           else if decide (echo ≠ commandBytes)
           then LJE "Got incorrect command bytes."
           else if decide (length f < 6)%nat
           then IndexError "list index out of range"
           else LJE "Command does not contain enough bytes."), w)) ∧
  (∀ t cb w0, ∃ e, _checkCommandBytes_tuple t cb w0 = (Raise e, w0)) ∧
  (∀ c : Z,
     let e1 := LJE "Device detected a bad checksum." in
     let e2 := LJE "Got incorrect command bytes." in
     let e3 := LJE "Checksum was incorrect." in
     let e4 := LJE ("Command returned with error number " ++ str_int c) in
     let e5 := LJE "Command does not contain enough bytes." in
     e1 ≠ e2 ∧ e1 ≠ e3 ∧ e1 ≠ e4 ∧ e1 ≠ e5 ∧ e2 ≠ e3 ∧ e2 ≠ e4 ∧ e2 ≠ e5 ∧
     e3 ≠ e4 ∧ e3 ≠ e5 ∧ e4 ≠ e5).
Proof.
  intros H. cbv zeta. split; [|split; [|split]].
  - intros Hlen.
    destruct (lookup_lt_is_Some_2 f 0) as [r0 H0]; [lia|].
    destruct (lookup_lt_is_Some_2 f 1) as [r1 H1]; [lia|].
    destruct (lookup_lt_is_Some_2 f 6) as [x6 H6]; [lia|].
    unfold _checkCommandBytes.
    rewrite (run_sentinel _ _ _ _ _ _ H H0 H1). rewrite H0, H1, H6.
    destruct (decide (r0 = 0xB8 ∧ r1 = 0xB8)) as [Hs|Hs].
    { rewrite (bool_decide_eq_true_2 _ Hs).
      rewrite decide_True by (destruct Hs; split; congruence). reflexivity. }
    rewrite (bool_decide_eq_false_2 _ Hs).
    rewrite decide_False by (intros [[= ?] [= ?]]; tauto).
    rewrite (run_bind_ret _ _ _ _ _ (run_contents _ _ _ H)).
    destruct (decide (slice f 1 (length commandBytes + 1) ≠ commandBytes));
      [reflexivity|].
    rewrite (run_bind_ret _ _ _ _ _ (run_verifyChecksum _ _ _ H Hlen)).
    destruct (checks_agree f (checksummed f)) eqn:Hok; cbn [negb];
      [|reflexivity].
    rewrite (checksummed_fixed _ Hok), (store_id _ _ _ H).
    rewrite (run_bind_ret _ _ _ _ _ (run_getitem _ _ _ _ _ H H6)).
    change (default 0 (Some x6)) with x6.
    destruct (decide (x6 ≠ 0)); reflexivity.
  - intros Hlen. unfold _checkCommandBytes.
    destruct (f !! 0%nat) as [r0|] eqn:H0.
    2:{ apply lookup_ge_None_1 in H0. rewrite decide_True by lia.
        apply run_bind_raise. eapply run_getitem_out; [exact H | lia]. }
    pose proof (lookup_lt_Some _ _ _ H0) as L0.
    rewrite (decide_False (P := (length f = 0)%nat)) by lia.
    rewrite (run_bind_ret _ _ _ _ _ (run_getitem _ _ _ _ _ H H0)).
    destruct (decide (r0 = 0xB8)) as [E0|N0].
    + destruct (f !! 1%nat) as [r1|] eqn:H1.
      2:{ apply lookup_ge_None_1 in H1.
          rewrite decide_True by (split; [congruence | lia]).
          apply run_bind_raise, run_bind_raise.
          eapply run_getitem_out; [exact H | lia]. }
      pose proof (lookup_lt_Some _ _ _ H1) as L1.
      rewrite (decide_False (P := (_ ∧ length f = 1%nat))) by lia.
      rewrite (run_bind_ret _ _ w (bool_decide (r1 = 0xB8)) w)
        by (rewrite (run_bind_ret _ _ _ _ _ (run_getitem _ _ _ _ _ H H1));
            reflexivity).
      destruct (decide (r1 = 0xB8)) as [E1|N1].
      * rewrite (bool_decide_eq_true_2 _ E1).
        rewrite decide_True by (split; congruence). reflexivity.
      * rewrite (bool_decide_eq_false_2 _ N1).
        rewrite decide_False by (intros [_ [= ?]]; contradiction).
        apply run_echo_short; [exact H | lia].
    + rewrite (run_bind_ret _ _ w false w) by reflexivity.
      rewrite (decide_False (P := (_ ∧ length f = 1%nat)))
        by (intros [[= ?] _]; contradiction).
      rewrite decide_False by (intros [[= ?] _]; contradiction).
      apply run_echo_short; [exact H | lia].
  - intros t cb w0. apply checkCommandBytes_tuple_raises.
  - intros c. cbv zeta. unfold LJE. simpl.
    repeat split; intros Heq; injection Heq; intros; discriminate.
Qed.

Lemma checkCommandBytes_order_witness :
  _checkCommandBytes 0%nat [0xf8; 3; 0x0b]
    (World [[7; 0xf8; 3; 0x0b; 0; 0; 0; 0; 0; 0; 0; 0]] [])
  = (Ret tt, World [[7; 0xf8; 3; 0x0b; 0; 0; 0; 0; 0; 0; 0; 0]] []) ∧
  _checkCommandBytes 0%nat [0xf8; 3; 0x0b]
    (World [[7; 0xf8; 3; 0x0b; 0; 0; 5; 0; 0; 0; 0; 0]] [])
  = (Raise (LJE "Checksum was incorrect."),
     World [[12; 0xf8; 3; 0x0b; 5; 0; 5; 0; 0; 0; 0; 0]] []) ∧
  _checkCommandBytes 0%nat [2; 3] (World [[0xB8]] [])
  = (Raise (IndexError "list index out of range"), World [[0xB8]] []).
Proof.
  split; [|split].
  - rewrite (proj1 (checkCommandBytes_order
                      (World [[7; 0xf8; 3; 0x0b; 0; 0; 0; 0; 0; 0; 0; 0]] [])
                      0%nat [7; 0xf8; 3; 0x0b; 0; 0; 0; 0; 0; 0; 0; 0]
                      [0xf8; 3; 0x0b] eq_refl)) by (simpl; lia).
    vm_compute. reflexivity.
  - rewrite (proj1 (checkCommandBytes_order
                      (World [[7; 0xf8; 3; 0x0b; 0; 0; 5; 0; 0; 0; 0; 0]] [])
                      0%nat [7; 0xf8; 3; 0x0b; 0; 0; 5; 0; 0; 0; 0; 0]
                      [0xf8; 3; 0x0b] eq_refl)) by (simpl; lia).
    vm_compute. reflexivity.
  - rewrite (proj1 (proj2 (checkCommandBytes_order (World [[0xB8]] []) 0%nat
                             [0xB8] [2; 3] eq_refl))) by (simpl; lia).
    vm_compute. reflexivity.
Defined.
